(** * Planning GitHub dashboard: the state orchestration of [page.tsx]

    A shallow embedding of the [Home] component of
    [frontend/src/app/page.tsx]: its eleven [useState] slots, its two
    [useEffect] loaders, [ask], [speak] and [voiceAsk], the handlers of the
    inputs, what the chart, commit and list panels show, and the render of
    the page with what makes it throw.  Every [async] function is cut
    at its [await]s: the part before the first [await] is one transition, the
    continuation that runs when the awaited promise settles is another one,
    and the values the closure captured travel with the request in flight. *)

From Stdlib Require Import ZArith List String Ascii Bool Lia DecimalString.
From Stdlib Require Import DecimalPos.
From stdpp Require Import base tactics option list strings sorting.
Import ListNotations.

Set Warnings "-register-all".
Local Open Scope string_scope.
Local Open Scope Z_scope.

(** ** JavaScript values *)

Module Js.

(** Values of type [any]: what [JSON.parse] returns, plus [undefined].
    Strings are sequences of code units below 256; JSON numbers are kept as
    integers (the component only ever tests a number for truthiness). A
    parsed object is a finite map, kept here as a key-value list that holds
    each key once. *)
Inductive jsval : Type :=
| JUndefined
| JNull
| JBool (b : bool)
| JNum (n : Z)
| JStr (s : string)
| JArr (items : list jsval)
| JObj (fields : list (string * jsval)).

(** [SameValue] as used by [Object.is] on hook dependencies, read on values:
    two values are the same when they are structurally equal. *)
Fixpoint same_value (a b : jsval) {struct a} : bool :=
  match a, b with
  | JUndefined, JUndefined => true
  | JNull, JNull => true
  | JBool x, JBool y => Bool.eqb x y
  | JNum x, JNum y => Z.eqb x y
  | JStr x, JStr y => String.eqb x y
  | JArr xs, JArr ys =>
      (fix go (l1 l2 : list jsval) {struct l1} : bool :=
         match l1, l2 with
         | [], [] => true
         | x :: l1', y :: l2' => same_value x y && go l1' l2'
         | _, _ => false
         end) xs ys
  | JObj xs, JObj ys =>
      (fix go (l1 l2 : list (string * jsval)) {struct l1} : bool :=
         match l1, l2 with
         | [], [] => true
         | (k, x) :: l1', (k', y) :: l2' =>
             String.eqb k k' && same_value x y && go l1' l2'
         | _, _ => false
         end) xs ys
  | _, _ => false
  end.

(** [ToBoolean]. *)
Definition truthy (v : jsval) : bool :=
  match v with
  | JUndefined | JNull => false
  | JBool b => b
  | JNum n => negb (Z.eqb n 0)
  | JStr s => negb (String.eqb s "")
  | JArr _ | JObj _ => true
  end.

(** [a || b]. *)
Definition or_else (a b : jsval) : jsval := if truthy a then a else b.

(** An exception value: every throw the component can meet is an [Error]
    instance, of which the handlers read [message] and, failing that, the
    string form. *)
Record JsError : Type := mkError { ename : string; emessage : string }.

(** Result of an expression that may throw. *)
Inductive Completion (A : Type) : Type :=
| Normal (a : A)
| Throw (e : JsError).
Arguments Normal {A} a.
Arguments Throw {A} e.

Definition bind {A B} (c : Completion A) (k : A -> Completion B) : Completion B :=
  match c with
  | Normal a => k a
  | Throw e => Throw e
  end.

(** [try { body } catch (e) { handler e }]. *)
Definition try_catch {A} (body : Completion A) (handler : JsError -> A) : A :=
  match body with
  | Normal a => a
  | Throw e => handler e
  end.

(** [String(e)] for an [Error]: [Error.prototype.toString]. *)
Definition error_to_string (e : JsError) : string :=
  if String.eqb (ename e) "" then emessage e
  else if String.eqb (emessage e) "" then ename e
  else ename e ++ ": " ++ emessage e.

(** The interpolated [e?.message || e]. *)
Definition error_reason (e : JsError) : string :=
  if String.eqb (emessage e) "" then error_to_string e else emessage e.

Definition lookup_field (k : string) (fs : list (string * jsval)) : jsval :=
  match find (fun kv => String.eqb (fst kv) k) fs with
  | Some kv => snd kv
  | None => JUndefined
  end.

(** The [TypeError] of a property read on [null] or [undefined]; the text is
    the engine's (V8's wording is used). *)
Definition type_error_read (base k : string) : JsError :=
  mkError "TypeError"
    ("Cannot read properties of " ++ base ++ " (reading '" ++ k ++ "')").

(** [v.k] for a key [k] that no array, string, number or boolean carries
    (the component reads [site_bundle_id], [commits], [answer], [citations],
    [url] and [planning_reference]).  It throws on [null] and [undefined]. *)
Definition get (v : jsval) (k : string) : Completion jsval :=
  match v with
  | JUndefined => Throw (type_error_read "undefined" k)
  | JNull => Throw (type_error_read "null" k)
  | JObj fs => Normal (lookup_field k fs)
  | _ => Normal JUndefined
  end.

(** [v?.k] once [v] is known not to throw: [undefined] on a nullish base. *)
Definition get_opt (v : jsval) (k : string) : jsval :=
  match v with
  | JObj fs => lookup_field k fs
  | _ => JUndefined
  end.

(** [v?.[0]]. *)
Definition index0_opt (v : jsval) : jsval :=
  match v with
  | JArr (x :: _) => x
  | JStr (String c _) => JStr (String c "")
  | JObj fs => lookup_field "0" fs
  | _ => JUndefined
  end.

(** [v?.length]. *)
Definition length_opt (v : jsval) : jsval :=
  match v with
  | JArr l => JNum (Z.of_nat (length l))
  | JStr s => JNum (Z.of_nat (String.length s))
  | JObj fs => lookup_field "length" fs
  | _ => JUndefined
  end.

(** *** Numbers: [parseInt] and [String] *)

(** The numbers [parseInt] can return.  An integer is kept exact, which is
    what the engine does up to 2^53 in absolute value; beyond that a double
    rounds, and what is proved about numbers is stated within that range. *)
Inductive number : Type :=
| NaN
| NegZero
| Int (z : Z).

(** [Object.is] on numbers: [NaN] is the same as itself, the two zeros
    differ. *)
Definition number_same (a b : number) : bool :=
  match a, b with
  | NaN, NaN => true
  | NegZero, NegZero => true
  | Int x, Int y => Z.eqb x y
  | _, _ => false
  end.

(** [String(n)]: all the digits of an integer, as the engine prints them
    below 10^21. *)
Definition number_to_string (n : number) : string :=
  match n with
  | NaN => "NaN"
  | NegZero => "0"
  | Int z => NilZero.string_of_int (Z.to_int z)
  end.

Definition code (c : ascii) : Z := Z.of_nat (nat_of_ascii c).

(** [StrWhiteSpaceChar], on the code units a [string] here can hold. *)
Definition is_space (c : ascii) : bool :=
  let n := code c in
  (Z.leb 9 n && Z.leb n 13) || Z.eqb n 32 || Z.eqb n 160.

Fixpoint trim_start (s : string) : string :=
  match s with
  | String c r => if is_space c then trim_start r else s
  | EmptyString => EmptyString
  end.

(** Value of a code unit as a digit, in any radix up to 36. *)
Definition digit_value (c : ascii) : option Z :=
  let n := code c in
  if Z.leb 48 n && Z.leb n 57 then Some (n - 48)
  else if Z.leb 97 n && Z.leb n 122 then Some (n - 97 + 10)
  else if Z.leb 65 n && Z.leb n 90 then Some (n - 65 + 10)
  else None.

(** The longest prefix of radix-[r] digits, read as an integer; [acc] is
    [None] until a digit has been seen. *)
Fixpoint read_digits (r : Z) (s : string) (acc : option Z) : option Z :=
  match s with
  | EmptyString => acc
  | String c rest =>
      match digit_value c with
      | Some d =>
          if Z.ltb d r then read_digits r rest (Some (default 0 acc * r + d))
          else acc
      | None => acc
      end
  end.

Definition strip_sign (s : string) : bool * string :=
  match s with
  | String "-" r => (true, r)
  | String "+" r => (false, r)
  | _ => (false, s)
  end.

Definition strip_hex (s : string) : Z * string :=
  match s with
  | String "0" (String "x" r) => (16, r)
  | String "0" (String "X" r) => (16, r)
  | _ => (10, s)
  end.

(** [parseInt(s)] with no radix argument. *)
Definition parseInt (s : string) : number :=
  let '(neg, s1) := strip_sign (trim_start s) in
  let '(r, s2) := strip_hex s1 in
  match read_digits r s2 None with
  | None => NaN
  | Some m =>
      if Z.eqb m 0 then (if neg then NegZero else Int 0)
      else Int (if neg then - m else m)
  end.

(** [a || b] on strings. *)
Definition str_or (a b : string) : string :=
  if String.eqb a "" then b else a.

(** [s.slice(0, n)]. *)
Definition slice0 (n : nat) (s : string) : string := String.substring 0 n s.

End Js.

(** [Completion] is an error monad; its bind is written with stdpp's
    [x ← c; k]. *)
#[global] Instance completion_ret : MRet Js.Completion := @Js.Normal.
#[global] Instance completion_bind : MBind Js.Completion :=
  fun A B k c => Js.bind c k.

(** ** The component *)

Module Page.
Import Js.

(** *** HTTP, as [fetch] shows it *)

(** A [Response]: its status and what [res.text()], [res.json()] and
    [res.blob()] settle to (the body is read by the browser, so these are
    inputs here; of a blob only its arrival matters). *)
Record Response : Type := mkResponse {
  status : Z;
  text_body : Completion string;
  json_body : Completion jsval;
  blob_body : Completion unit
}.

(** [res.ok]. *)
Definition ok (r : Response) : bool :=
  Z.leb 200 (status r) && Z.leb (status r) 299.

(** How the promise of one [fetch] settles. *)
Inductive FetchResult : Type :=
| Rejected (e : JsError)
| Fulfilled (r : Response).

(** [await fetch(...)]. *)
Definition awaited (f : FetchResult) : Completion Response :=
  match f with
  | Rejected e => Throw e
  | Fulfilled r => Normal r
  end.

(** The two resources of the detail loader, in the order of the array given
    to [Promise.all]. *)
Inductive Resource : Type := Repo | Overview.

(** How [Promise.all([fetch(repo), fetch(overview)])] settles: fulfilled
    with both responses, or rejected with the error of the first fetch that
    is rejected.  [which] records whose rejection it was; the code has no
    access to it. *)
Inductive AllResult : Type :=
| AllFulfilled (r1 r2 : Response)
| FirstRejected (which : Resource) (e : JsError).

Definition awaited_all (a : AllResult) : Completion (Response * Response) :=
  match a with
  | AllFulfilled r1 r2 => Normal (r1, r2)
  | FirstRejected _ e => Throw e
  end.

(** [throw new Error(msg)]. *)
Definition throw_error {A} (msg : string) : Completion A :=
  Throw (mkError "Error" msg).

(** [String(res.status)] inside a template literal. *)
Definition status_text (r : Response) : string :=
  number_to_string (Int (status r)).

(** *** State *)

Inductive Role : Type := User | Assistant.

(** An element of [chat]. A turn built without a [citations] key reads
    [undefined] there. *)
Record ChatMsg : Type := mkMsg {
  role : Role;
  text : jsval;
  citations : jsval
}.

(** The [useState] slots of [Home], in declaration order. *)
Record State : Type := mkState {
  council : string;
  q : string;
  minApps : number;
  bundles : list jsval;
  selected : jsval;
  commits : jsval;
  overview : jsval;
  question : string;
  chat : list ChatMsg;
  loading : bool;
  err : option string
}.

Definition initial : State :=
  {| council := ""; q := ""; minApps := Int 5; bundles := []; selected := JNull;
     commits := JArr []; overview := JNull; question := ""; chat := [];
     loading := false; err := None |}.

Definition setCouncil (v : string) (s : State) : State :=
  mkState v (q s) (minApps s) (bundles s) (selected s) (commits s)
    (overview s) (question s) (chat s) (loading s) (err s).
Definition setQ (v : string) (s : State) : State :=
  mkState (council s) v (minApps s) (bundles s) (selected s) (commits s)
    (overview s) (question s) (chat s) (loading s) (err s).
Definition setMinApps (v : number) (s : State) : State :=
  mkState (council s) (q s) v (bundles s) (selected s) (commits s)
    (overview s) (question s) (chat s) (loading s) (err s).
Definition setBundles (v : list jsval) (s : State) : State :=
  mkState (council s) (q s) (minApps s) v (selected s) (commits s)
    (overview s) (question s) (chat s) (loading s) (err s).
Definition setSelected (v : jsval) (s : State) : State :=
  mkState (council s) (q s) (minApps s) (bundles s) v (commits s)
    (overview s) (question s) (chat s) (loading s) (err s).
Definition setCommits (v : jsval) (s : State) : State :=
  mkState (council s) (q s) (minApps s) (bundles s) (selected s) v
    (overview s) (question s) (chat s) (loading s) (err s).
Definition setOverview (v : jsval) (s : State) : State :=
  mkState (council s) (q s) (minApps s) (bundles s) (selected s) (commits s)
    v (question s) (chat s) (loading s) (err s).
Definition setQuestion (v : string) (s : State) : State :=
  mkState (council s) (q s) (minApps s) (bundles s) (selected s) (commits s)
    (overview s) v (chat s) (loading s) (err s).
(** [setChat] takes the updater, as the calls in [ask] do; a plain value is
    the constant updater. *)
Definition setChat (f : list ChatMsg -> list ChatMsg) (s : State) : State :=
  mkState (council s) (q s) (minApps s) (bundles s) (selected s) (commits s)
    (overview s) (question s) (f (chat s)) (loading s) (err s).
Definition setLoading (v : bool) (s : State) : State :=
  mkState (council s) (q s) (minApps s) (bundles s) (selected s) (commits s)
    (overview s) (question s) (chat s) v (err s).
Definition setErr (v : option string) (s : State) : State :=
  mkState (council s) (q s) (minApps s) (bundles s) (selected s) (commits s)
    (overview s) (question s) (chat s) (loading s) v.

(** *** Requests *)

(** The query string built for [/bundles]. *)
Record BundlesQuery : Type := mkQuery {
  p_council : option string;
  p_q : option string;
  min_apps : string;
  limit : string
}.

Definition bundles_url (s : State) : BundlesQuery :=
  {| p_council := if String.eqb (council s) "" then None else Some (council s);
     p_q := if String.eqb (q s) "" then None else Some (q s);
     min_apps := number_to_string (minApps s);
     limit := "200" |}.

(** A suspended [async] function: the request it awaits and what its closure
    captured. *)
Inductive Pending : Type :=
| PBundles (selected_then : jsval) (u : BundlesQuery)
| PDetail (selected_then : jsval)
| PChat (selected_then : jsval) (text : string)
| PTts (text : jsval)
| PVoice (selected_then : jsval).

(** *** The bundle list loader, [useEffect(..., [council, q, minApps])] *)

(** [run] up to [await fetch(u.toString())]. *)
Definition bundles_run (s : State) : State * Pending :=
  (setErr None s, PBundles (selected s) (bundles_url s)).

(** [run] from that [await] on; [selected_then] is the [selected] of the
    render whose effect started this [run]. *)
Definition bundles_resume (selected_then : jsval) (f : FetchResult) (s : State)
  : State :=
  try_catch
    (res ← awaited f;
     _ ← (if ok res then Normal tt
          else throw_error ("Bundles HTTP " ++ status_text res));
     data ← json_body res;
     let s1 := setBundles (match data with JArr l => l | _ => [] end) s in
     let id := get_opt (index0_opt data) "site_bundle_id" in
     Normal (if negb (truthy selected_then) && truthy id
             then setSelected id s1 else s1))
    (fun e =>
       setBundles []
         (setErr (Some ("Failed to load bundles: " ++ error_reason e)) s)).

(** *** The detail loader, [useEffect(..., [selected])] *)

Definition intro_text : string :=
  "Open a repo and ask me: “What changed recently and what should I do next?” I’ll cite commits so you can verify.".

Definition intro_turn : ChatMsg :=
  {| role := Assistant; text := JStr intro_text; citations := JUndefined |}.

(** The effect body up to [await Promise.all(...)]; nothing happens without
    a selection. *)
Definition detail_run (s : State) : State * option Pending :=
  if negb (truthy (selected s)) then (s, None)
  else (setErr None s, Some (PDetail (selected s))).

(** [run] from [await Promise.all(...)] on.  No [selected] is read here. *)
Definition detail_resume (a : AllResult) (s : State) : State :=
  try_catch
    ('(r1, r2) ← awaited_all a;
     _ ← (if ok r1 then Normal tt
          else throw_error ("Repo HTTP " ++ status_text r1));
     _ ← (if ok r2 then Normal tt
          else throw_error ("Overview HTTP " ++ status_text r2));
     repoData ← json_body r1;
     ov ← json_body r2;
     cs ← get repoData "commits";
     Normal (setQuestion ""
               (setChat (fun _ => [intro_turn])
                  (setOverview ov
                     (setCommits (or_else cs (JArr [])) s)))))
    (fun e =>
       setOverview JNull
         (setCommits (JArr [])
            (setErr (Some ("Failed to load repo: " ++ error_reason e)) s))).

(** *** [ask] *)

Definition user_turn (t : string) : ChatMsg :=
  {| role := User; text := JStr t; citations := JUndefined |}.

Definition fallback_text : string :=
  "Chat is unavailable right now. Check backend /chat and GEMINI_API_KEY (optional).".

Definition fallback_turn : ChatMsg :=
  {| role := Assistant; text := JStr fallback_text; citations := JArr [] |}.

(** The object literal inside the updater of line 112. *)
Definition assistant_turn (data : jsval) : Completion ChatMsg :=
  answer ← get data "answer";
  cits ← get data "citations";
  Normal {| role := Assistant;
            text := or_else answer (JStr "No answer returned.");
            citations := or_else cits (JArr []) |}.

(** [ask(text)] up to [await fetch(...)]; [selected_now] is the [selected]
    of the render that created this [ask]. *)
Definition ask (selected_now : jsval) (t : string) (s : State)
  : State * option Pending :=
  if negb (truthy selected_now) then (s, None)
  else (setChat (fun c => (c ++ [user_turn t])%list) (setErr None (setLoading true s)),
        Some (PChat selected_now t)).

(** What the [try] block of [ask] evaluates before it touches the state. *)
Definition chat_exchange (f : FetchResult) : Completion jsval :=
  res ← awaited f;
  if ok res then json_body res
  else (t ← text_body res;
        throw_error ("Chat HTTP " ++ status_text res ++ ": " ++ slice0 200 t)).

(** [ask] from [await fetch(...)] on.  The updater given to [setChat] on the
    success path is run by React while it renders, outside the [try]: if it
    throws (a [null] body), the error is not caught by [ask] and the result
    is [Throw], the component being torn down. *)
Definition ask_resume (f : FetchResult) (s : State) : Completion State :=
  match chat_exchange f with
  | Normal data =>
      m ← assistant_turn data;
      Normal (setLoading false (setChat (fun c => (c ++ [m])%list) s))
  | Throw e =>
      Normal (setLoading false
                (setChat (fun c => (c ++ [fallback_turn])%list)
                   (setErr (Some ("Chat failed: " ++ error_reason e)) s)))
  end.

(** *** [speak] and [voiceAsk] *)

(** [speak(text)] up to [await fetch(...)]. *)
Definition speak (t : jsval) (s : State) : State * Pending :=
  (setErr None s, PTts t).

(** [speak] from that [await] on; playing the audio touches no state. *)
Definition speak_resume (f : FetchResult) (s : State) : State :=
  try_catch
    (res ← awaited f;
     _ ← (if ok res then Normal tt
          else (t ← text_body res;
                throw_error ("TTS HTTP " ++ status_text res ++ ": "
                             ++ slice0 200 t)));
     _ ← blob_body res;
     Normal s)
    (fun e => setErr (Some ("Voice failed: " ++ error_reason e)) s).

Definition voice_unsupported : string :=
  "Voice input requires Chrome (SpeechRecognition not supported here).".

(** [voiceAsk()]; [supported] tells whether the window has a
    [SpeechRecognition] constructor.  The recognizer started keeps the [ask]
    of this render in its [onresult]. *)
Definition voiceAsk (supported : bool) (s : State) : State * option Pending :=
  if supported then (s, Some (PVoice (selected s)))
  else (setErr (Some voice_unsupported) s, None).

(** *** The filter inputs *)

Definition is_digit (c : ascii) : bool :=
  Z.leb 48 (code c) && Z.leb (code c) 57.

Fixpoint skip_digits (s : string) : string :=
  match s with
  | String c r => if is_digit c then skip_digits r else s
  | EmptyString => EmptyString
  end.

Definition starts_with_digit (s : string) : bool :=
  match s with
  | String c _ => is_digit c
  | EmptyString => false
  end.

Definition strip_minus (s : string) : string :=
  match s with
  | String "-" r => r
  | _ => s
  end.

(** What may follow the mantissa of a number: nothing, or [e] or [E], an
    optional sign and one or more digits. *)
Definition valid_exponent (s : string) : bool :=
  match s with
  | EmptyString => true
  | String c r =>
      if Ascii.eqb c "e" || Ascii.eqb c "E" then
        let r' := match r with
                  | String "-" r1 => r1
                  | String "+" r1 => r1
                  | _ => r
                  end in
        starts_with_digit r' && String.eqb (skip_digits r') ""
      else false
  end.

(** A valid floating-point number of the HTML standard: an optional [-],
    then digits, or a dot and digits, or both in that order, then an
    optional exponent, and nothing else. *)
Definition valid_float (s : string) : bool :=
  let s1 := strip_minus s in
  match skip_digits s1 with
  | String "." r => starts_with_digit r && valid_exponent (skip_digits r)
  | s2 => starts_with_digit s1 && valid_exponent s2
  end.

(** [e.target.value] of the [type="number"] input of line 195 when the text
    in the box is [typed]: the value of such an input is the text when it is
    a valid floating-point number and the empty string otherwise. *)
Definition number_input_value (typed : string) : string :=
  if valid_float typed then typed else "".

(** [onChange] of the number input: [setMinApps(parseInt(e.target.value || "5"))]. *)
Definition onChange_minApps (value : string) (s : State) : State :=
  setMinApps (parseInt (str_or value "5")) s.

(** *** Citations under an assistant turn *)

(** One rendered anchor: its [href] and the value printed after [Source:]. *)
Record Anchor : Type := mkAnchor { href : jsval; source : jsval }.

Definition not_a_function (what : string) : JsError :=
  mkError "TypeError" (what ++ " is not a function").

(** [m.citations.slice(0,4).map(...)] of lines 345-354; [Normal []] when the
    block is not rendered. *)
Definition render_citations (m : ChatMsg) : Completion (list Anchor) :=
  match role m with
  | User => Normal []
  | Assistant =>
      if truthy (length_opt (citations m)) then
        match citations m with
        | JArr cs =>
            mapM (fun c => u ← get c "url";
                           p ← get c "planning_reference";
                           Normal (mkAnchor u p)) (take 4 cs)
        | JStr _ => Throw (not_a_function "m.citations.slice(...).map")
        | _ => Throw (not_a_function "m.citations.slice")
        end
      else Normal []
  end.

(** *** The component as a transition system *)

(** The state of the last render together with the [async] functions that
    are suspended on a request. *)
Record World : Type := mkWorld {
  state : State;
  inflight : list Pending
}.

(** What a request in flight settles to: one [fetch], the [Promise.all] of
    the detail loader, or the final result of the speech recognizer. *)
Inductive Settlement : Type :=
| One (f : FetchResult)
| All (a : AllResult)
| Heard (transcript : string).

Inductive Event : Type :=
| ChangeQ (value : string)
| ChangeCouncil (value : string)
| ChangeMinApps (typed : string)
| ClickBundle (i : nat)
| ChangeQuestion (value : string)
| CallAsk (t : string)
| Submit
| ClickReadAloud (j : nat)
| ClickMic (supported : bool)
| Settle (i : nat) (r : Settlement).

(** [Object.is] on the dependency arrays of the two effects. *)
Definition bundles_deps_changed (old new : State) : bool :=
  negb (String.eqb (council old) (council new)
        && String.eqb (q old) (q new)
        && number_same (minApps old) (minApps new)).

Definition detail_deps_changed (old new : State) : bool :=
  negb (same_value (selected old) (selected new)).

Definition suspend (s : State) (p : option Pending) (w : World) : World :=
  mkWorld s (inflight w ++ option_list p)%list.

(** The effects of one commit, in declaration order. *)
Definition run_effects (fire_bundles fire_detail : bool) (w : World) : World :=
  let w1 :=
    if fire_bundles
    then let '(s, p) := bundles_run (state w) in suspend s (Some p) w
    else w in
  if fire_detail
  then let '(s, p) := detail_run (state w1) in suspend s p w1
  else w1.

(** The first render: both effects run. *)
Definition mount : World := run_effects true true (mkWorld initial []).

(** [question.trim()]. *)
Definition trim (s : string) : string :=
  String.rev (trim_start (String.rev (trim_start s))).

(** The handler of an event, without the render it causes and the effects
    of that render.  [ChangeMinApps] carries the text typed in the number
    box, of which the handler sees the input's value.  [Throw] is an error
    nothing catches. *)
Definition handle (ev : Event) (w : World) : Completion World :=
  let s := state w in
  match ev with
  | ChangeQ v => Normal (mkWorld (setQ v s) (inflight w))
  | ChangeCouncil v => Normal (mkWorld (setCouncil v s) (inflight w))
  | ChangeMinApps v =>
      Normal (mkWorld (onChange_minApps (number_input_value v) s) (inflight w))
  | ClickBundle i =>
      match bundles s !! i with
      | Some b =>
          id ← get b "site_bundle_id";
          Normal (mkWorld (setSelected id s) (inflight w))
      | None => Normal w
      end
  | ChangeQuestion v => Normal (mkWorld (setQuestion v s) (inflight w))
  | CallAsk t =>
      let '(s', p) := ask (selected s) t s in Normal (suspend s' p w)
  | Submit =>
      let t := trim (question s) in
      if String.eqb t "" then Normal w
      else let '(s', p) := ask (selected s) t s in Normal (suspend s' p w)
  | ClickReadAloud j =>
      match chat s !! j with
      | Some (mkMsg Assistant t _) =>
          let '(s', p) := speak t s in Normal (suspend s' (Some p) w)
      | _ => Normal w
      end
  | ClickMic supported =>
      let '(s', p) := voiceAsk supported s in Normal (suspend s' p w)
  | Settle i r =>
      match inflight w !! i, r with
      | Some (PBundles sel _), One f =>
          Normal (mkWorld (bundles_resume sel f s) (delete i (inflight w)))
      | Some (PDetail _), All a =>
          Normal (mkWorld (detail_resume a s) (delete i (inflight w)))
      | Some (PChat _ _), One f =>
          s' ← ask_resume f s;
          Normal (mkWorld s' (delete i (inflight w)))
      | Some (PTts _), One f =>
          Normal (mkWorld (speak_resume f s) (delete i (inflight w)))
      | Some (PVoice sel), Heard t =>
          let '(s', p) := ask sel t s in
          Normal (suspend s' p (mkWorld s (delete i (inflight w))))
      | _, _ => Normal w
      end
  end.

(** The state transition of one event: its handler, then the effects whose
    dependencies changed.  The render between the two is [Screen.render],
    and [Screen.update] is this transition with that render in it. *)
Definition step (w : World) (ev : Event) : Completion World :=
  w' ← handle ev w;
  Normal (run_effects (bundles_deps_changed (state w) (state w'))
            (detail_deps_changed (state w) (state w')) w').

Fixpoint run (w : World) (evs : list Event) : Completion World :=
  match evs with
  | [] => Normal w
  | ev :: rest => w' ← step w ev; run w' rest
  end.

End Page.

(** ** Ways a request fails, and sample traffic *)

Import Js Page.

(** A failed [/bundles] request and the reason the [catch] block prints. *)
Inductive ListFailure : FetchResult -> string -> Prop :=
| list_network_error e :
    ListFailure (Rejected e) (error_reason e)
| list_bad_status r :
    ok r = false ->
    ListFailure (Fulfilled r) ("Bundles HTTP " ++ status_text r)
| list_malformed_body r e :
    ok r = true -> json_body r = Throw e ->
    ListFailure (Fulfilled r) (error_reason e).

(** A failed detail load: the resource whose request failed (network error
    or status outside 200-299) and the reason the [catch] block prints. *)
Inductive DetailFailure : AllResult -> Resource -> string -> Prop :=
| detail_network_error which e :
    DetailFailure (FirstRejected which e) which (error_reason e)
| detail_repo_status r1 r2 :
    ok r1 = false ->
    DetailFailure (AllFulfilled r1 r2) Repo ("Repo HTTP " ++ status_text r1)
| detail_overview_status r1 r2 :
    ok r1 = true -> ok r2 = false ->
    DetailFailure (AllFulfilled r1 r2) Overview
      ("Overview HTTP " ++ status_text r2).

(** A jointly successful detail load: both statuses are in 200-299, both
    bodies parse, and the repo body has the [commits] value [cs]
    ([undefined] when it has none). *)
Definition DetailSuccess (a : AllResult) (cs ov : jsval) : Prop :=
  exists r1 r2 repoData,
    a = AllFulfilled r1 r2 /\ ok r1 = true /\ ok r2 = true /\
    json_body r1 = Normal repoData /\ json_body r2 = Normal ov /\
    get repoData "commits" = Normal cs.

(** A failed [/chat] request and the reason the [catch] block prints. *)
Inductive ChatFailure : FetchResult -> string -> Prop :=
| chat_network_error e :
    ChatFailure (Rejected e) (error_reason e)
| chat_bad_status r t :
    ok r = false -> text_body r = Normal t ->
    ChatFailure (Fulfilled r)
      ("Chat HTTP " ++ status_text r ++ ": " ++ slice0 200 t)
| chat_bad_status_unread r e :
    ok r = false -> text_body r = Throw e ->
    ChatFailure (Fulfilled r) (error_reason e)
| chat_malformed_body r e :
    ok r = true -> json_body r = Throw e ->
    ChatFailure (Fulfilled r) (error_reason e).

(** The anchor line 348 builds from a citation that is an object. *)
Definition anchor_of (c : jsval) : Anchor :=
  mkAnchor (get_opt c "url") (get_opt c "planning_reference").

(** A decimal digit, the only kind of digit [parseInt] reads when the text
    has no [0x] prefix. *)
Definition decimal_digit (c : ascii) : bool :=
  match digit_value c with
  | Some d => Z.ltb d 10
  | None => false
  end.

Definition nullish (v : jsval) : bool :=
  match v with
  | JUndefined | JNull => true
  | _ => false
  end.

Module Sample.

Definition bundle (id : string) : jsval :=
  JObj [("site_bundle_id", JStr id); ("council_name", JStr "Camden");
        ("n_apps", JNum 7); ("sample_address", JStr "1 High Street");
        ("first_app", JStr "2019-03-01"); ("last_app", JStr "2024-06-30")].

Definition json_ok (v : jsval) : Response :=
  mkResponse 200 (Normal "") (Normal v) (Normal tt).

Definition not_json : JsError :=
  mkError "SyntaxError" "Unexpected token 'I', ... is not valid JSON".

Definition http_error (n : Z) (body : string) : Response :=
  mkResponse n (Normal body) (Throw not_json) (Normal tt).

Definition network_down : JsError := mkError "TypeError" "Failed to fetch".

Definition repo_of (id : string) : jsval :=
  JObj [("commits",
         JArr [JObj [("planning_reference", JStr (id ++ "/0001"));
                     ("heading", JStr "Rear extension")]])].

Definition overview_of (id : string) : jsval :=
  JObj [("n_commits", JNum 1); ("stage", JStr ("stage of " ++ id))].

Definition detail_ok (id : string) : AllResult :=
  AllFulfilled (json_ok (repo_of id)) (json_ok (overview_of id)).

Definition citation (n : string) : jsval :=
  JObj [("planning_reference", JStr ("2024/" ++ n));
        ("url", JStr ("https://portal.example/" ++ n))].

Definition answer (cs : list jsval) : jsval :=
  JObj [("answer", JStr "Two applications were approved.");
        ("citations", JArr cs)].

Definition five_citations : list jsval :=
  map citation ["1"; "2"; "3"; "4"; "5"].

(** A state in which bundle [id] is selected. *)
Definition selecting (id : string) : World :=
  mkWorld (setSelected (JStr id) initial) [].

(** [b1] is selected and its detail requests are in flight, then [b2] is
    selected and its detail has arrived. *)
Definition stale_trace : list Event :=
  [Settle 0 (One (Fulfilled (json_ok (JArr [bundle "b1"; bundle "b2"]))));
   ClickBundle 1;
   Settle 1 (All (detail_ok "b2"))].

(** A conversation about [b1], and a draft typed in the question box. *)
Definition conversation_trace : list Event :=
  [Settle 0 (One (Fulfilled (json_ok (JArr [bundle "b1"; bundle "b2"]))));
   Settle 0 (All (detail_ok "b1"));
   CallAsk "What changed?";
   Settle 0 (One (Fulfilled (json_ok (answer [citation "1"]))));
   ChangeQuestion "draft"].

(** [b1] is selected, a question has been asked, a draft is typed, and a
    detail load for [b1] is in flight. *)
Definition talking : World :=
  mkWorld
    (setQuestion "draft"
       (setChat (fun _ => [intro_turn; user_turn "What changed?"])
          (setBundles [bundle "b1"; bundle "b2"]
             (setSelected (JStr "b1") initial))))
    [PDetail (JStr "b1")].

End Sample.

(** ** Vocabulary of the properties of the whole component *)

(** A request that the code only issues under a selection: the detail
    loader returns before its [run] and [ask] before its [fetch] when
    [selected] is falsy. *)
Definition issued_with_selection (p : Pending) : Prop :=
  match p with
  | PDetail sel => truthy sel = true
  | PChat sel _ => truthy sel = true
  | _ => True
  end.

(** The turn that the settlement [f] of a [/chat] request appends: the
    assistant's answer, or the fallback when the [try] block throws. *)
Definition reply_of (f : FetchResult) : Completion ChatMsg :=
  match chat_exchange f with
  | Normal data => assistant_turn data
  | Throw _ => Normal fallback_turn
  end.

(** The integer a decimal numeral denotes, read from the left with [acc]
    as the value of the digits already read. *)
Fixpoint uint_value (d : Decimal.uint) (acc : Z) : Z :=
  match d with
  | Decimal.Nil => acc
  | Decimal.D0 l => uint_value l (acc * 10 + 0)
  | Decimal.D1 l => uint_value l (acc * 10 + 1)
  | Decimal.D2 l => uint_value l (acc * 10 + 2)
  | Decimal.D3 l => uint_value l (acc * 10 + 3)
  | Decimal.D4 l => uint_value l (acc * 10 + 4)
  | Decimal.D5 l => uint_value l (acc * 10 + 5)
  | Decimal.D6 l => uint_value l (acc * 10 + 6)
  | Decimal.D7 l => uint_value l (acc * 10 + 7)
  | Decimal.D8 l => uint_value l (acc * 10 + 8)
  | Decimal.D9 l => uint_value l (acc * 10 + 9)
  end.

(** A text that may follow an integer without changing what [parseInt]
    reads: it is empty or starts with a character that is no decimal digit
    (and no [x], which after a lone [0] would announce hexadecimal). *)
Definition ends_integer (rest : string) : bool :=
  match rest with
  | EmptyString => true
  | String c _ =>
      negb (decimal_digit c) && negb (Ascii.eqb c "x") && negb (Ascii.eqb c "X")
  end.

(** The settlement of a detail load, the one event that can take turns out
    of the transcript. *)
Definition settles_detail (ev : Event) : Prop :=
  match ev with
  | Settle _ (All _) => True
  | _ => False
  end.

(** A value with no structure - a string, a number, a boolean, [null],
    [undefined] - and an object all of whose fields are such values. *)
Definition scalar (v : jsval) : bool :=
  match v with
  | JObj _ | JArr _ => false
  | _ => true
  end.

Definition record (v : jsval) : bool :=
  match v with
  | JObj fs => forallb (fun kv => scalar (snd kv)) fs
  | _ => false
  end.

(** An array of such values, or nothing; and an overview whose two lists
    are of that kind and whose figures and link are values with no
    structure. *)
Definition scalars (v : jsval) : bool :=
  match v with
  | JArr l => forallb scalar l
  | JUndefined | JNull => true
  | _ => false
  end.

Definition plain_overview (ov : jsval) : bool :=
  scalars (get_opt ov "insights") && scalars (get_opt ov "next_actions")
  && scalar (get_opt (get_opt ov "latest") "url")
  && scalar (get_opt ov "n_commits") && scalar (get_opt ov "stage")
  && scalar (get_opt ov "days_span") && scalar (get_opt ov "churn_score").

(** A text, or nothing. *)
Definition text_or_missing (v : jsval) : bool :=
  match v with
  | JStr _ | JNull | JUndefined => true
  | _ => false
  end.

(** The largest integer up to which every integer is a double: within it
    [parseInt] and [String] are exact. *)
Definition max_exact : Z := 9007199254740992.

(** A [/chat] request in flight. *)
Definition is_chat_request (p : Pending) : Prop :=
  match p with
  | PChat _ _ => True
  | _ => False
  end.

(** The handlers as a relation, one rule for each branch of [handle]; the
    last three rules are the branches that do nothing. *)
Inductive Handles (w : World) : Event -> World -> Prop :=
| h_change_q v :
    Handles w (ChangeQ v) (mkWorld (setQ v (state w)) (inflight w))
| h_change_council v :
    Handles w (ChangeCouncil v) (mkWorld (setCouncil v (state w)) (inflight w))
| h_change_min_apps v :
    Handles w (ChangeMinApps v)
      (mkWorld (onChange_minApps (number_input_value v) (state w)) (inflight w))
| h_change_question v :
    Handles w (ChangeQuestion v)
      (mkWorld (setQuestion v (state w)) (inflight w))
| h_click i b id :
    bundles (state w) !! i = Some b ->
    get b "site_bundle_id" = Normal id ->
    Handles w (ClickBundle i) (mkWorld (setSelected id (state w)) (inflight w))
| h_ask t :
    Handles w (CallAsk t)
      (suspend (fst (ask (selected (state w)) t (state w)))
         (snd (ask (selected (state w)) t (state w))) w)
| h_submit :
    trim (question (state w)) <> "" ->
    Handles w Submit
      (suspend
         (fst (ask (selected (state w)) (trim (question (state w))) (state w)))
         (snd (ask (selected (state w)) (trim (question (state w))) (state w)))
         w)
| h_read_aloud j t c :
    chat (state w) !! j = Some (mkMsg Assistant t c) ->
    Handles w (ClickReadAloud j)
      (mkWorld (setErr None (state w)) (inflight w ++ [PTts t])%list)
| h_mic_supported :
    Handles w (ClickMic true)
      (mkWorld (state w) (inflight w ++ [PVoice (selected (state w))])%list)
| h_mic_unsupported :
    Handles w (ClickMic false)
      (mkWorld (setErr (Some voice_unsupported) (state w)) (inflight w))
| h_settle_list i sel u f :
    inflight w !! i = Some (PBundles sel u) ->
    Handles w (Settle i (One f))
      (mkWorld (bundles_resume sel f (state w)) (delete i (inflight w)))
| h_settle_detail i sel a :
    inflight w !! i = Some (PDetail sel) ->
    Handles w (Settle i (All a))
      (mkWorld (detail_resume a (state w)) (delete i (inflight w)))
| h_settle_chat i sel t f s' :
    inflight w !! i = Some (PChat sel t) ->
    ask_resume f (state w) = Normal s' ->
    Handles w (Settle i (One f)) (mkWorld s' (delete i (inflight w)))
| h_settle_tts i t f :
    inflight w !! i = Some (PTts t) ->
    Handles w (Settle i (One f))
      (mkWorld (speak_resume f (state w)) (delete i (inflight w)))
| h_heard i sel t :
    inflight w !! i = Some (PVoice sel) ->
    Handles w (Settle i (Heard t))
      (suspend (fst (ask sel t (state w))) (snd (ask sel t (state w)))
         (mkWorld (state w) (delete i (inflight w))))
| h_click_nothing i :
    bundles (state w) !! i = None -> Handles w (ClickBundle i) w
| h_submit_blank :
    trim (question (state w)) = "" -> Handles w Submit w
| h_nothing ev :
    (match ev with ClickReadAloud _ | Settle _ _ => True | _ => False end) ->
    Handles w ev w.

(** ** What the panels show *)

Module View.

(** The key of an array index: the decimal text of an integer from 0 to
    2^32-2, and nothing else.  Such keys come first, in ascending order,
    when the own keys of an object are listed. *)
Definition array_index (k : string) : option Z :=
  match read_digits 10 k None with
  | Some z =>
      if String.eqb (number_to_string (Int z)) k && Z.leb z 4294967294
      then Some z else None
  | None => None
  end.

Definition index_entries (fs : list (string * jsval))
  : list (Z * (string * jsval)) :=
  omap (fun kv => (fun z => (z, kv)) <$> array_index (fst kv)) fs.

Definition by_index (a b : Z * (string * jsval)) : Prop :=
  (fst a <= fst b)%Z.

#[global] Instance by_index_dec : RelDecision by_index :=
  fun a b => Z_le_dec (fst a) (fst b).

(** The own properties of a parsed object in the order [Object.entries]
    lists them: array indices ascending, then the other keys in the order
    they were created. *)
Definition own_entries (fs : list (string * jsval)) : list (string * jsval) :=
  (map snd (merge_sort by_index (index_entries fs))
   ++ filter (fun kv => ~ is_Some (array_index (fst kv))) fs)%list.

Definition index_key (i : nat) : string := number_to_string (Int (Z.of_nat i)).

(** [Object.entries(v)] for a [v] that is not nullish. *)
Definition object_entries (v : jsval) : list (string * jsval) :=
  match v with
  | JObj fs => own_entries fs
  | JArr l => imap (fun i x => (index_key i, x)) l
  | JStr s =>
      imap (fun i c => (index_key i, JStr (String c ""))) (list_ascii_of_string s)
  | _ => []
  end.

(** A bar of a chart, [{ name, value }]. *)
Record Bar : Type := mkBar { name : string; value : jsval }.

(** The body shared by [typeChartData] and [decisionChartData]. *)
Definition chart_data (key : string) (overview : jsval) : list Bar :=
  let counts := get_opt overview key in
  if negb (truthy counts) then []
  else map (fun kv => mkBar (fst kv) (snd kv)) (object_entries counts).

Definition typeChartData : jsval -> list Bar := chart_data "type_counts".
Definition decisionChartData : jsval -> list Bar := chart_data "decision_counts".

(** [Chart]: [true] when it renders [No data] instead of the bars. *)
Definition Chart_no_data (data : list Bar) : bool :=
  Nat.eqb (length data) 0.

(** [x.slice(0, 160)] on what [c.proposal || ""] can be. *)
Definition slice_160 (v : jsval) : Completion jsval :=
  match v with
  | JStr s => Normal (JStr (slice0 160 s))
  | JArr l => Normal (JArr (take 160 l))
  | _ => Throw (not_a_function "slice")
  end.

(** The line printed for a commit: [c.heading || (c.proposal || "").slice(0, 160)]. *)
Definition headline (c : jsval) : Completion jsval :=
  h ← get c "heading";
  if truthy h then Normal h
  else (p ← get c "proposal"; slice_160 (or_else p (JStr ""))).

(** [(overview?.key?.length ? overview.key : [placeholder]).map(...)]: the
    items of the list panel. *)
Definition list_panel (key placeholder : string) (overview : jsval)
  : Completion (list jsval) :=
  let xs := get_opt overview key in
  if truthy (length_opt xs) then
    match xs with
    | JArr l => Normal l
    | _ => Throw (not_a_function "map")
    end
  else Normal [JStr placeholder].

Definition insights_panel : jsval -> Completion (list jsval) :=
  list_panel "insights" "No insights available yet.".

Definition next_actions_panel : jsval -> Completion (list jsval) :=
  list_panel "next_actions" "Select a repo to see actions.".

End View.

(** ** The page as rendered *)

Module Screen.

(** [String(v)], [v + i] and the text React makes of a key or of an
    attribute.  On values parsed from JSON the conversion throws in one
    case: an object that has a key [toString] of its own, whose value is
    never callable, met directly or in an array that is being joined. *)
Definition cannot_convert : JsError :=
  mkError "TypeError" "Cannot convert object to primitive value".

Fixpoint to_text (v : jsval) : Completion unit :=
  match v with
  | JObj fs =>
      if existsb (fun kv => String.eqb (fst kv) "toString") fs
      then Throw cannot_convert else Normal tt
  | JArr l =>
      (fix join (l : list jsval) : Completion unit :=
         match l with
         | [] => Normal tt
         | x :: l' =>
             match to_text x with
             | Normal _ => join l'
             | Throw e => Throw e
             end
         end) l
  | _ => Normal tt
  end.

(** The error of React on a child that is a plain object. *)
Definition invalid_child (fs : list (string * jsval)) : JsError :=
  mkError "Error"
    ("Objects are not valid as a React child (found: object with keys {"
     ++ String.concat ", " (map fst (View.own_entries fs))
     ++ "}). If you meant to render a collection of children, use an array instead.").

(** A value between the tags of an element.  Strings and numbers are
    printed, booleans, [null] and [undefined] print nothing, an array is the
    sequence of its items, and an object is refused. *)
Fixpoint child (v : jsval) : Completion unit :=
  match v with
  | JObj fs => Throw (invalid_child fs)
  | JArr l =>
      (fix items (l : list jsval) : Completion unit :=
         match l with
         | [] => Normal tt
         | x :: l' =>
             match child x with
             | Normal _ => items l'
             | Throw e => Throw e
             end
         end) l
  | _ => Normal tt
  end.

(** What the body of [Home] hands to React for a place of the page: a value
    to put among the children of an element, or a value to turn into text
    (an attribute, the [String(value)] of [Kpi]). *)
Inductive Slot : Type :=
| Child (v : jsval)
| Text (v : jsval).

Definition place (x : Slot) : Completion unit :=
  match x with
  | Child v => child v
  | Text v => to_text v
  end.

Fixpoint place_all (slots : list Slot) : Completion unit :=
  match slots with
  | [] => Normal tt
  | x :: rest => _ ← place x; place_all rest
  end.

(** A piece of JSX: evaluating it may throw; what it yields is then placed
    by React, which may throw as well. *)
Definition paint (piece : Completion (list Slot)) : Completion unit :=
  slots ← piece; place_all slots.

(** [l.map(f)] in JSX. *)
Definition each {A} (f : A -> Completion (list Slot)) (l : list A)
  : Completion (list Slot) :=
  ls ← mapM f l; Normal (concat ls).

(** [a ?? b]. *)
Definition coalesce (a b : jsval) : jsval := if nullish a then b else a.

(** The button of a bundle, lines 206-223: the class name reads the
    identifier, the two dates go through [String], the key is turned into
    text. *)
Definition bundle_button (b : jsval) : Completion (list Slot) :=
  id ← get b "site_bundle_id";
  _ ← to_text (get_opt b "first_app");
  _ ← to_text (get_opt b "last_app");
  _ ← to_text id;
  Normal [Child (get_opt b "council_name"); Child (get_opt b "n_apps");
          Child (get_opt b "sample_address")].

(** The title of the repo card, line 241. *)
Definition title (selected : jsval) : Slot :=
  Child (coalesce selected (JStr "Pick a repo")).

(** The link of line 242-246 and the four [Kpi] of lines 250-257. *)
Definition latest_link (overview : jsval) : list Slot :=
  let url := get_opt (get_opt overview "latest") "url" in
  if truthy url then [Text url] else [].

Definition kpis (overview : jsval) : list Slot :=
  if truthy overview then
    [Text (get_opt overview "n_commits"); Text (get_opt overview "stage");
     Text (coalesce (get_opt overview "days_span") (JStr "—"));
     Text (get_opt overview "churn_score")]
  else [].

(** All that is drawn from [overview], lines 242-284.  The two charts hand
    their bars to the chart library, which is no part of this file and is
    taken to draw whatever bars it is given; they place nothing
    themselves. *)
Definition overview_panels (overview : jsval) : Completion (list Slot) :=
  ins ← View.insights_panel overview;
  act ← View.next_actions_panel overview;
  Normal (latest_link overview ++ kpis overview
          ++ map Child ins ++ map Child act)%list.

(** The card of a commit, lines 290-313. *)
Definition commit_card (c : jsval) : Completion (list Slot) :=
  ref ← get c "planning_reference";
  _ ← to_text (get_opt c "event_dt");
  h ← View.headline c;
  _ ← to_text ref;
  let url := get_opt c "url" in
  Normal [Child ref; Child (get_opt c "normalised_application_type");
          Child (get_opt c "normalised_decision"); Child h;
          Child (get_opt c "raw_address");
          if truthy url then Text url else Child url].

(** [commits.map(...)], line 289. *)
Definition feed (commits : jsval) : Completion (list Slot) :=
  match commits with
  | JArr l => each commit_card l
  | JUndefined => Throw (type_error_read "undefined" "map")
  | JNull => Throw (type_error_read "null" "map")
  | _ => Throw (not_a_function "commits.map")
  end.

(** A turn of the transcript, lines 338-362: its text, then the anchors of
    its citations. *)
Definition turn_bubble (m : ChatMsg) : Completion (list Slot) :=
  anchors ← render_citations m;
  Normal (Child (text m)
          :: concat (map (fun a => [Text (href a); Child (source a)]) anchors)).

(** The JSX returned by [Home], lines 164-388, in the order of the source:
    only the places whose value comes from a reply are kept, the rest
    (fixed texts, the inputs, the error line, the waiting line) cannot
    throw. *)
Definition screen (s : State) : Completion (list Slot) :=
  side ← each bundle_button (bundles s);
  panels ← overview_panels (overview s);
  history ← feed (commits s);
  talk ← each turn_bubble (chat s);
  Normal (side ++ title (selected s) :: panels ++ history ++ talk)%list.

(** One render of [Home]: [Throw] is an error thrown while rendering, which
    nothing catches and which takes the page down. *)
Definition render (s : State) : Completion unit := paint (screen s).

(** The page shows the state; and the same for each part of it. *)
Definition displays (s : State) : Prop := render s = Normal tt.

Definition list_displays (l : list jsval) : Prop :=
  paint (each bundle_button l) = Normal tt.

Definition selection_displays (sel : jsval) : Prop :=
  place (title sel) = Normal tt.

Definition overview_displays (ov : jsval) : Prop :=
  paint (overview_panels ov) = Normal tt.

Definition history_displays (cs : jsval) : Prop :=
  paint (feed cs) = Normal tt.

Definition turn_displays (m : ChatMsg) : Prop :=
  paint (turn_bubble m) = Normal tt.

Definition transcript_displays (c : list ChatMsg) : Prop :=
  paint (each turn_bubble c) = Normal tt.

(** One event as the page lives it: the handler, the render of the new
    state, then the effects whose dependencies changed.  The state changes
    of one handler or continuation are rendered together, React batching
    them.  When the render throws, nothing catches the error: no effect
    runs and the page is gone.  (The render that follows an effect differs
    in the error line only.) *)
Definition update (w : World) (ev : Event) : Completion World :=
  w' ← handle ev w;
  _ ← render (state w');
  Normal (run_effects (bundles_deps_changed (state w) (state w'))
            (detail_deps_changed (state w) (state w')) w').

Fixpoint updates (w : World) (evs : list Event) : Completion World :=
  match evs with
  | [] => Normal w
  | ev :: rest => w' ← update w ev; updates w' rest
  end.

End Screen.

(** ** Properties *)

(** *** [SameValue] is equality *)

Section jsval_induction.
Variable P : jsval -> Prop.
Hypothesis Hundef : P JUndefined.
Hypothesis Hnull : P JNull.
Hypothesis Hbool : forall b, P (JBool b).
Hypothesis Hnum : forall n, P (JNum n).
Hypothesis Hstr : forall s, P (JStr s).
Hypothesis Harr : forall l, Forall P l -> P (JArr l).
Hypothesis Hobj : forall fs, Forall (fun kv => P (snd kv)) fs -> P (JObj fs).

Fixpoint jsval_nested_ind (v : jsval) : P v :=
  match v with
  | JUndefined => Hundef
  | JNull => Hnull
  | JBool b => Hbool b
  | JNum n => Hnum n
  | JStr s => Hstr s
  | JArr l =>
      Harr l
        ((fix go (l : list jsval) : Forall P l :=
            match l with
            | [] => Forall_nil_2 P
            | x :: l' => Forall_cons_2 P x l' (jsval_nested_ind x) (go l')
            end) l)
  | JObj fs =>
      Hobj fs
        ((fix go (fs : list (string * jsval))
            : Forall (fun kv => P (snd kv)) fs :=
            match fs with
            | [] => Forall_nil_2 _
            | kv :: fs' =>
                Forall_cons_2 (fun kv => P (snd kv)) kv fs'
                  (jsval_nested_ind (snd kv)) (go fs')
            end) fs)
  end.
End jsval_induction.

Lemma same_value_spec (a b : jsval) : same_value a b = true <-> a = b.
Proof.
  revert b. induction a as [| | x | x | x | xs IH | xs IH] using jsval_nested_ind;
    intros [| | y | y | y | ys | ys]; simpl; try (split; congruence).
  - rewrite Bool.eqb_true_iff. split; congruence.
  - rewrite Z.eqb_eq. split; congruence.
  - rewrite String.eqb_eq. split; congruence.
  - revert ys. induction IH as [| x xs Hx _ IHxs]; intros [| y ys];
      try (split; congruence).
    rewrite andb_true_iff, Hx, IHxs. split.
    + intros [-> [= ->]]. reflexivity.
    + intros [= -> ->]. auto.
  - revert ys. induction IH as [| [k x] xs Hx _ IHxs]; intros [| [k' y] ys];
      try (split; congruence).
    simpl in Hx.
    rewrite !andb_true_iff, String.eqb_eq, Hx, IHxs. split.
    + intros [[-> ->] [= ->]]. reflexivity.
    + intros [= -> -> ->]. auto.
Qed.

Lemma same_value_refl (a : jsval) : same_value a a = true.
Proof. apply same_value_spec. reflexivity. Qed.

Lemma same_value_neq (a b : jsval) : a <> b -> same_value a b = false.
Proof.
  intros H. destruct (same_value a b) eqn:E; [|reflexivity].
  apply same_value_spec in E. contradiction.
Qed.

Lemma number_same_refl (n : number) : number_same n n = true.
Proof. destruct n; simpl; auto using Z.eqb_refl. Qed.

(** *** Which events start which effect *)

Lemma bundles_deps_same (s s' : State) :
  council s' = council s -> q s' = q s -> minApps s' = minApps s ->
  bundles_deps_changed s s' = false.
Proof.
  unfold bundles_deps_changed. intros -> -> ->.
  rewrite !String.eqb_refl, number_same_refl. reflexivity.
Qed.

Lemma detail_deps_same (s s' : State) :
  selected s' = selected s -> detail_deps_changed s s' = false.
Proof.
  unfold detail_deps_changed. intros ->. rewrite same_value_refl. reflexivity.
Qed.

Lemma suspend_none (w : World) : suspend (state w) None w = w.
Proof. destruct w. unfold suspend. simpl. rewrite app_nil_r. reflexivity. Qed.

(** The three continuations leave the filter inputs alone, and the last two
    the selection as well. *)
Lemma bundles_resume_filters sel f s :
  let s' := bundles_resume sel f s in
  council s' = council s /\ q s' = q s /\ minApps s' = minApps s.
Proof.
  unfold bundles_resume.
  destruct f as [e | r]; simpl; auto.
  destruct (ok r); simpl; auto.
  destruct (json_body r) as [data | e]; simpl; auto.
  destruct (negb (truthy sel) && _); simpl; auto.
Qed.

Lemma detail_resume_frame a s :
  let s' := detail_resume a s in
  council s' = council s /\ q s' = q s /\ minApps s' = minApps s /\
  selected s' = selected s /\ bundles s' = bundles s /\ loading s' = loading s.
Proof.
  unfold detail_resume.
  destruct a as [r1 r2 | which e]; simpl; [| tauto].
  destruct (ok r1); simpl; [| tauto].
  destruct (ok r2); simpl; [| tauto].
  destruct (json_body r1) as [repoData | e]; simpl; [| tauto].
  destruct (json_body r2) as [ov | e]; simpl; [| tauto].
  destruct (get repoData "commits") as [cs | e]; simpl; tauto.
Qed.

Lemma ask_resume_frame f s s' :
  ask_resume f s = Normal s' ->
  council s' = council s /\ q s' = q s /\ minApps s' = minApps s /\
  selected s' = selected s /\ bundles s' = bundles s /\
  commits s' = commits s /\ overview s' = overview s /\
  question s' = question s.
Proof.
  unfold ask_resume.
  destruct (chat_exchange f) as [data | e].
  - destruct (assistant_turn data) as [m | e]; simpl; [| discriminate].
    intros [= <-]. simpl. tauto.
  - intros [= <-]. simpl. tauto.
Qed.

Lemma step_unfold (w : World) (ev : Event) (w' : World) :
  handle ev w = Normal w' ->
  step w ev =
    Normal (run_effects (bundles_deps_changed (state w) (state w'))
              (detail_deps_changed (state w) (state w')) w').
Proof. intros H. unfold step. rewrite H. reflexivity. Qed.

Lemma step_quiet (w : World) (ev : Event) (w' : World) :
  handle ev w = Normal w' ->
  council (state w') = council (state w) -> q (state w') = q (state w) ->
  minApps (state w') = minApps (state w) ->
  selected (state w') = selected (state w) ->
  step w ev = Normal w'.
Proof.
  intros H Hc Hq Hm Hs. rewrite (step_unfold _ _ _ H).
  rewrite bundles_deps_same, detail_deps_same by assumption. reflexivity.
Qed.

Lemma step_call_ask (w : World) (t : string) :
  truthy (selected (state w)) = true ->
  step w (CallAsk t) =
    Normal (mkWorld
              (setChat (fun c => (c ++ [user_turn t])%list)
                 (setErr None (setLoading true (state w))))
              (inflight w ++ [PChat (selected (state w)) t])%list).
Proof.
  intros H. apply step_quiet; try reflexivity.
  unfold handle, ask. rewrite H. reflexivity.
Qed.

Lemma step_settle_chat (w : World) (i : nat) (sel : jsval) (t : string)
    (f : FetchResult) (s' : State) :
  inflight w !! i = Some (PChat sel t) ->
  ask_resume f (state w) = Normal s' ->
  step w (Settle i (One f)) = Normal (mkWorld s' (delete i (inflight w))).
Proof.
  intros Hi Hr. destruct (ask_resume_frame _ _ _ Hr) as (? & ? & ? & ? & _).
  apply step_quiet; try assumption.
  unfold handle. rewrite Hi, Hr. reflexivity.
Qed.

Lemma step_settle_chat_throw (w : World) (i : nat) (sel : jsval) (t : string)
    (f : FetchResult) (e : JsError) :
  inflight w !! i = Some (PChat sel t) ->
  ask_resume f (state w) = Throw e ->
  step w (Settle i (One f)) = Throw e.
Proof.
  intros Hi Hr. unfold step, handle. rewrite Hi, Hr. reflexivity.
Qed.

Lemma lookup_last_added {A} (l : list A) (x : A) :
  (l ++ [x])%list !! length l = Some x.
Proof. apply list_lookup_middle. reflexivity. Qed.

Lemma delete_last_added {A} (l : list A) (x : A) :
  delete (length l) (l ++ [x])%list = l.
Proof.
  induction l as [| a l IH]; simpl; [reflexivity |]. f_equal. exact IH.
Qed.

(** *** [ask] *)

Lemma assistant_turn_normal (data : jsval) :
  nullish data = false ->
  assistant_turn data =
    Normal (mkMsg Assistant
              (or_else (get_opt data "answer") (JStr "No answer returned."))
              (or_else (get_opt data "citations") (JArr []))).
Proof. destruct data; simpl; intros H; try discriminate; reflexivity. Qed.

Lemma assistant_turn_throw (data : jsval) (e : JsError) :
  assistant_turn data = Throw e -> data = JNull \/ data = JUndefined.
Proof. destruct data; simpl; intros H; try discriminate; auto. Qed.

Lemma assistant_turn_role (data : jsval) (m : ChatMsg) :
  assistant_turn data = Normal m -> role m = Assistant.
Proof.
  destruct data; simpl; intros H; try discriminate;
    injection H as <-; reflexivity.
Qed.

Lemma chat_failure_throws (f : FetchResult) (reason : string) :
  ChatFailure f reason ->
  exists e, chat_exchange f = Throw e /\ error_reason e = reason.
Proof.
  intros [e | r t Hok Ht | r e Hok Ht | r e Hok Hj]; unfold chat_exchange; simpl.
  - eauto.
  - rewrite Hok, Ht. simpl. eauto.
  - rewrite Hok, Ht. simpl. eauto.
  - rewrite Hok, Hj. eauto.
Qed.

(** Every way [chat_exchange] throws is one of the four failures. *)
Lemma chat_throws_failure (f : FetchResult) (e : JsError) :
  chat_exchange f = Throw e -> ChatFailure f (error_reason e).
Proof.
  unfold chat_exchange. destruct f as [e' | r]; simpl.
  - intros [= ->]. constructor.
  - destruct (ok r) eqn:Hok.
    + intros Hj. now apply chat_malformed_body.
    + destruct (text_body r) as [t | e'] eqn:Ht; simpl.
      * intros [= <-]. simpl. now apply chat_bad_status.
      * intros [= ->]. now apply chat_bad_status_unread.
Qed.

(** C10. [ask(text)] whose [selected] is falsy - no bundle is selected -
    returns at once: no slot of the state changes (transcript, pending flag
    and error slot included) and no request is issued.  Called from the
    quick buttons or from the question box it leaves the component exactly
    as it was. *)
Theorem ask_without_selection_is_noop (sel : jsval) (t : string) :
  truthy sel = false ->
  (forall s, ask sel t s = (s, None)) /\
  (forall w, selected (state w) = sel -> step w (CallAsk t) = Normal w) /\
  (forall w, selected (state w) = sel -> step w Submit = Normal w).
Proof.
  intros H.
  assert (Hask : forall t' s, ask sel t' s = (s, None))
    by (intros t' s; unfold ask; rewrite H; reflexivity).
  split; [apply Hask |]. split.
  - intros w <-. apply step_quiet; try reflexivity.
    unfold handle. rewrite Hask. f_equal. apply suspend_none.
  - intros w <-. apply step_quiet; try reflexivity.
    unfold handle. destruct (String.eqb _ ""); [reflexivity |].
    rewrite Hask. f_equal. apply suspend_none.
Qed.

Lemma ask_without_selection_is_noop_witness :
  ask JNull "What changed?" initial = (initial, None) /\
  step mount (CallAsk "What changed?") = Normal mount.
Proof.
  destruct (ask_without_selection_is_noop JNull "What changed?" eq_refl)
    as (Hask & Hcall & _).
  split; [apply Hask | apply Hcall; reflexivity].
Defined.

Lemma ask_resume_clears_loading (f : FetchResult) (s s' : State) :
  ask_resume f s = Normal s' -> loading s' = false.
Proof.
  unfold ask_resume. destruct (chat_exchange f) as [data | e].
  - destruct (assistant_turn data) as [m | e]; simpl; [| discriminate].
    intros [= <-]. reflexivity.
  - intros [= <-]. reflexivity.
Qed.

(** C7. When the [/chat] request of [ask(text)] fails - the fetch is
    rejected, the status is outside 200-299, or the body of a 2xx reply does
    not parse - the transcript gains the user turn and then the fixed
    fallback assistant turn with an empty citation list, the error slot
    holds [Chat failed: ] followed by the reason, and the pending flag, set
    by the call, is cleared; it is cleared after every settlement that
    leaves a transcript. *)
Theorem chat_failure_fallback (w : World) (t : string) (f : FetchResult)
    (reason : string) :
  truthy (selected (state w)) = true ->
  ChatFailure f reason ->
  (exists w1 w2,
     step w (CallAsk t) = Normal w1 /\
     step w1 (Settle (length (inflight w)) (One f)) = Normal w2 /\
     loading (state w1) = true /\
     chat (state w2) =
       (chat (state w) ++
          [mkMsg User (JStr t) JUndefined;
           mkMsg Assistant (JStr fallback_text) (JArr [])])%list /\
     err (state w2) = Some ("Chat failed: " ++ reason) /\
     loading (state w2) = false /\
     inflight w2 = inflight w) /\
  (forall f' s s', ask_resume f' s = Normal s' -> loading s' = false).
Proof.
  intros Hsel Hfail. split; [| apply ask_resume_clears_loading].
  destruct (chat_failure_throws _ _ Hfail) as (e & He & Hreason).
  eexists. eexists. split; [apply step_call_ask; exact Hsel |].
  split.
  - eapply step_settle_chat; [apply lookup_last_added |].
    unfold ask_resume. rewrite He. reflexivity.
  - simpl. rewrite Hreason, <- app_assoc, delete_last_added. auto.
Qed.

Lemma chat_failure_fallback_witness :
  exists w1 w2,
    step (Sample.selecting "b1") (CallAsk "hello") = Normal w1 /\
    step w1 (Settle 0 (One (Fulfilled (Sample.http_error 500 "Internal Server Error"))))
      = Normal w2 /\
    loading (state w1) = true /\
    chat (state w2) =
      [mkMsg User (JStr "hello") JUndefined;
       mkMsg Assistant (JStr fallback_text) (JArr [])] /\
    err (state w2) = Some "Chat failed: Chat HTTP 500: Internal Server Error" /\
    loading (state w2) = false /\
    inflight w2 = [].
Proof.
  apply (chat_failure_fallback (Sample.selecting "b1") "hello"
           (Fulfilled (Sample.http_error 500 "Internal Server Error"))
           "Chat HTTP 500: Internal Server Error" eq_refl).
  apply (chat_bad_status (Sample.http_error 500 "Internal Server Error")
           "Internal Server Error"); reflexivity.
Defined.

(** *** Citations *)

Lemma get_not_nullish (c : jsval) (k : string) :
  nullish c = false -> get c k = Normal (get_opt c k).
Proof. destruct c; simpl; intros H; try discriminate; reflexivity. Qed.

Lemma render_anchors (cs : list jsval) :
  forallb (fun c => negb (nullish c)) cs = true ->
  mapM (fun c => u ← get c "url";
                 p ← get c "planning_reference";
                 Normal (mkAnchor u p)) cs
  = Normal (map anchor_of cs).
Proof.
  induction cs as [| c cs IH]; simpl; [reflexivity |].
  rewrite andb_true_iff, negb_true_iff. intros [Hc Hcs].
  rewrite !(get_not_nullish _ _ Hc). simpl. rewrite (IH Hcs). reflexivity.
Qed.

Lemma render_citations_array (t : jsval) (cs : list jsval) :
  forallb (fun c => negb (nullish c)) (take 4 cs) = true ->
  render_citations (mkMsg Assistant t (JArr cs))
  = Normal (map anchor_of (take 4 cs)).
Proof.
  intros H. unfold render_citations. simpl.
  destruct cs as [| c cs]; [reflexivity |].
  replace (negb (Z.of_nat (length (c :: cs)) =? 0)%Z) with true
    by (symmetry; apply negb_true_iff, Z.eqb_neq; simpl length; lia).
  apply render_anchors. exact H.
Qed.

(** C6. The citation array of a successful [/chat] reply is stored as it is
    in the assistant turn that is appended, so every citation keeps its
    [planning_reference] and [url]; what is rendered under the turn is one
    anchor for each of the first four citations, at most four, in order,
    with that citation's [url] as [href] and its [planning_reference] as
    label, while the stored array keeps all of them. *)
Theorem citations_round_trip (s : State) (r : Response) (data : jsval)
    (cs : list jsval) :
  ok r = true ->
  json_body r = Normal data ->
  get data "citations" = Normal (JArr cs) ->
  exists s' m,
    ask_resume (Fulfilled r) s = Normal s' /\
    chat s' = (chat s ++ [m])%list /\
    role m = Assistant /\
    citations m = JArr cs /\
    (forallb (fun c => negb (nullish c)) (take 4 cs) = true ->
     exists anchors,
       render_citations m = Normal anchors /\
       anchors = map anchor_of (take 4 cs) /\
       (length anchors <= 4)%nat /\
       forall j a, anchors !! j = Some a ->
         exists c, cs !! j = Some c /\
                   href a = get_opt c "url" /\
                   source a = get_opt c "planning_reference").
Proof.
  intros Hok Hj Hc.
  assert (Hn : nullish data = false)
    by (destruct data; simpl in *; try discriminate; reflexivity).
  assert (Hcit : get_opt data "citations" = JArr cs).
  { rewrite (get_not_nullish _ _ Hn) in Hc. congruence. }
  eexists. eexists. split.
  { unfold ask_resume, chat_exchange. simpl. rewrite Hok, Hj.
    rewrite (assistant_turn_normal _ Hn). reflexivity. }
  simpl. rewrite Hcit. unfold or_else at 2. simpl.
  repeat split.
  intros Hobj. exists (map anchor_of (take 4 cs)).
  split; [apply render_citations_array; exact Hobj |].
  split; [reflexivity |]. split.
  - rewrite length_map, length_take. lia.
  - intros j a Ha. rewrite list_lookup_fmap in Ha.
    destruct (take 4 cs !! j) as [c |] eqn:Hcj; [| discriminate].
    injection Ha as <-. exists c. split; [| split; reflexivity].
    rewrite lookup_take_Some in Hcj. tauto.
Qed.

Lemma citations_round_trip_witness :
  exists s' m,
    ask_resume
      (Fulfilled (Sample.json_ok (Sample.answer Sample.five_citations)))
      initial = Normal s' /\
    chat s' = [m] /\
    citations m = JArr Sample.five_citations /\
    render_citations m
    = Normal (map anchor_of (map Sample.citation ["1"; "2"; "3"; "4"])).
Proof.
  destruct (citations_round_trip initial
              (Sample.json_ok (Sample.answer Sample.five_citations))
              (Sample.answer Sample.five_citations) Sample.five_citations
              eq_refl eq_refl eq_refl)
    as (s' & m & H1 & H2 & _ & H4 & H5).
  destruct (H5 eq_refl) as (anchors & Ha & -> & _).
  exists s', m. auto.
Defined.

(** *** The bundle list loader *)

Lemma list_failure_throws (f : FetchResult) (reason : string) (sel : jsval)
    (s : State) :
  ListFailure f reason ->
  bundles_resume sel f s
  = setBundles [] (setErr (Some ("Failed to load bundles: " ++ reason)) s).
Proof.
  intros [e | r Hok | r e Hok Hj]; unfold bundles_resume; simpl.
  - reflexivity.
  - rewrite Hok. reflexivity.
  - rewrite Hok, Hj. reflexivity.
Qed.

Lemma step_settle_bundles (w : World) (i : nat) (sel : jsval)
    (u : BundlesQuery) (f : FetchResult) :
  inflight w !! i = Some (PBundles sel u) ->
  step w (Settle i (One f)) =
    let s' := bundles_resume sel f (state w) in
    Normal (run_effects false (detail_deps_changed (state w) s')
              (mkWorld s' (delete i (inflight w)))).
Proof.
  intros Hi. unfold step, handle. rewrite Hi. simpl.
  destruct (bundles_resume_filters sel f (state w)) as (Hc & Hq & Hm).
  rewrite bundles_deps_same by assumption. reflexivity.
Qed.

(** C9. When a list fetch fails - rejected fetch, status outside 200-299,
    or a 2xx body that does not parse - the displayed list becomes empty,
    the error slot holds [Failed to load bundles: ] followed by the reason,
    the selection is what it was, and nothing else happens: no other slot
    changes and no request is issued. *)
Theorem list_failure_clears_list (w : World) (i : nat) (sel : jsval)
    (u : BundlesQuery) (f : FetchResult) (reason : string) :
  inflight w !! i = Some (PBundles sel u) ->
  ListFailure f reason ->
  exists w',
    step w (Settle i (One f)) = Normal w' /\
    bundles (state w') = [] /\
    err (state w') = Some ("Failed to load bundles: " ++ reason) /\
    selected (state w') = selected (state w) /\
    state w' =
      setBundles [] (setErr (Some ("Failed to load bundles: " ++ reason))
                       (state w)) /\
    inflight w' = delete i (inflight w).
Proof.
  intros Hi Hf. eexists. split.
  - rewrite (step_settle_bundles _ _ _ _ _ Hi). simpl.
    rewrite (list_failure_throws _ _ _ _ Hf).
    rewrite detail_deps_same by reflexivity. reflexivity.
  - simpl. auto.
Qed.

Lemma list_failure_clears_list_witness :
  exists w',
    step mount (Settle 0 (One (Fulfilled (Sample.http_error 503 "busy"))))
      = Normal w' /\
    bundles (state w') = [] /\
    err (state w') = Some "Failed to load bundles: Bundles HTTP 503" /\
    selected (state w') = JNull.
Proof.
  destruct (list_failure_clears_list mount 0 JNull (bundles_url initial)
              (Fulfilled (Sample.http_error 503 "busy")) "Bundles HTTP 503"
              eq_refl (list_bad_status (Sample.http_error 503 "busy") eq_refl))
    as (w' & H1 & H2 & H3 & H4 & _).
  exists w'. auto.
Defined.

Lemma bundles_resume_success (sel : jsval) (r : Response) (data : jsval)
    (s : State) :
  ok r = true -> json_body r = Normal data ->
  bundles_resume sel (Fulfilled r) s =
    let s1 := setBundles (match data with JArr l => l | _ => [] end) s in
    let id := get_opt (index0_opt data) "site_bundle_id" in
    if negb (truthy sel) && truthy id then setSelected id s1 else s1.
Proof.
  intros Hok Hj. unfold bundles_resume. simpl. rewrite Hok, Hj. reflexivity.
Qed.

(** The detail effect, when it runs, changes no slot but [err]. *)
Lemma run_effects_detail_frame (fire : bool) (w : World) :
  let w' := run_effects false fire w in
  bundles (state w') = bundles (state w) /\
  selected (state w') = selected (state w) /\
  commits (state w') = commits (state w) /\
  overview (state w') = overview (state w) /\
  chat (state w') = chat (state w) /\
  question (state w') = question (state w).
Proof.
  unfold run_effects, detail_run.
  destruct fire; simpl; [| tauto].
  destruct (truthy (selected (state w))); simpl; tauto.
Qed.

Lemma truthy_differs (a b : jsval) :
  truthy a = false -> truthy b = true -> same_value a b = false.
Proof.
  intros Ha Hb. apply same_value_neq. intros ->. congruence.
Qed.

(** C3 as stated fails in two ways.  A non-empty list whose first entry has
    an empty identifier selects nothing.  And the initial fetch overtaken by
    a filter change: both fetches were issued with no selection; the first
    reply selects [b1], the user picks [b2], and the second reply, arriving
    while [b2] is selected, replaces the selection by its own first entry. *)
Lemma default_selection_counterexample :
  (exists w',
     step mount
       (Settle 0 (One (Fulfilled (Sample.json_ok (JArr [Sample.bundle ""])))))
       = Normal w' /\
     bundles (state w') = [Sample.bundle ""] /\
     selected (state w') = JNull /\
     selected (state w') <> get_opt (Sample.bundle "") "site_bundle_id") /\
  (exists w w',
     run mount
       [ChangeQ "c";
        Settle 0 (One (Fulfilled
          (Sample.json_ok (JArr [Sample.bundle "b1"; Sample.bundle "b2"]))));
        ClickBundle 1] = Normal w /\
     selected (state w) = JStr "b2" /\
     step w (Settle 0 (One (Fulfilled
               (Sample.json_ok (JArr [Sample.bundle "c1"]))))) = Normal w' /\
     selected (state w') = JStr "c1").
Proof.
  split.
  - eexists. split; [vm_compute; reflexivity |].
    split; [reflexivity |]. split; [reflexivity | discriminate].
  - eexists. eexists. split; [vm_compute; reflexivity |].
    split; [reflexivity |]. split; [vm_compute; reflexivity | reflexivity].
Qed.

(** *** The detail loader *)

Lemma detail_success_applies (a : AllResult) (cs ov : jsval) (s : State) :
  DetailSuccess a cs ov ->
  detail_resume a s =
    setQuestion ""
      (setChat (fun _ => [intro_turn])
         (setOverview ov (setCommits (or_else cs (JArr [])) s))).
Proof.
  intros (r1 & r2 & repoData & -> & Hok1 & Hok2 & Hj1 & Hj2 & Hc).
  unfold detail_resume. simpl. rewrite Hok1, Hok2, Hj1, Hj2. simpl.
  rewrite Hc. reflexivity.
Qed.

Lemma detail_failure_clears (a : AllResult) (which : Resource)
    (reason : string) (s : State) :
  DetailFailure a which reason ->
  detail_resume a s =
    setOverview JNull
      (setCommits (JArr [])
         (setErr (Some ("Failed to load repo: " ++ reason)) s)).
Proof.
  intros [wh e | r1 r2 Hok1 | r1 r2 Hok1 Hok2]; unfold detail_resume; simpl.
  - reflexivity.
  - rewrite Hok1. reflexivity.
  - rewrite Hok1, Hok2. reflexivity.
Qed.

(** History and overview always change together: a detail load either is a
    joint success and replaces both, or throws somewhere in the [try] block
    and clears both. *)
Lemma detail_resume_all_or_nothing (a : AllResult) (s : State) :
  (exists cs ov,
     DetailSuccess a cs ov /\
     detail_resume a s =
       setQuestion ""
         (setChat (fun _ => [intro_turn])
            (setOverview ov (setCommits (or_else cs (JArr [])) s)))) \/
  (exists e,
     detail_resume a s =
       setOverview JNull
         (setCommits (JArr [])
            (setErr (Some ("Failed to load repo: " ++ error_reason e)) s))).
Proof.
  unfold detail_resume.
  destruct a as [r1 r2 | which e]; simpl; [| right; eauto].
  destruct (ok r1) eqn:Hok1; simpl; [| right; eauto].
  destruct (ok r2) eqn:Hok2; simpl; [| right; eauto].
  destruct (json_body r1) as [repoData | e] eqn:Hj1; simpl; [| right; eauto].
  destruct (json_body r2) as [ov | e] eqn:Hj2; simpl; [| right; eauto].
  destruct (get repoData "commits") as [cs | e] eqn:Hc; simpl; [| right; eauto].
  left. exists cs, ov. split; [| reflexivity].
  exists r1, r2, repoData. auto 10.
Qed.

Lemma step_settle_detail (w : World) (i : nat) (sel : jsval) (a : AllResult) :
  inflight w !! i = Some (PDetail sel) ->
  step w (Settle i (All a)) =
    Normal (mkWorld (detail_resume a (state w)) (delete i (inflight w))).
Proof.
  intros Hi.
  destruct (detail_resume_frame a (state w)) as (? & ? & ? & ? & _).
  apply step_quiet; try assumption.
  unfold handle. rewrite Hi. reflexivity.
Qed.

(** C1 as stated fails: the responses for [b1] arrive after [b2] has been
    selected and shown; they are applied, and the component shows the
    history and overview of [b1] under the selection [b2]. *)
Lemma stale_detail_counterexample :
  exists w w',
    run mount Sample.stale_trace = Normal w /\
    inflight w = [PDetail (JStr "b1")] /\
    selected (state w) = JStr "b2" /\
    commits (state w) = get_opt (Sample.repo_of "b2") "commits" /\
    overview (state w) = Sample.overview_of "b2" /\
    step w (Settle 0 (All (Sample.detail_ok "b1"))) = Normal w' /\
    selected (state w') = JStr "b2" /\
    commits (state w') = get_opt (Sample.repo_of "b1") "commits" /\
    overview (state w') = Sample.overview_of "b1" /\
    commits (state w') <> commits (state w) /\
    overview (state w') <> overview (state w).
Proof.
  eexists. eexists. split; [vm_compute; reflexivity |].
  split; [reflexivity |]. split; [reflexivity |].
  split; [reflexivity |]. split; [reflexivity |].
  split; [vm_compute; reflexivity |].
  split; [reflexivity |]. split; [reflexivity |]. split; [reflexivity |].
  split; discriminate.
Qed.

(** C8, as the code has it. When the history or the overview request fails
    (rejected fetch, or status outside 200-299), history becomes the empty
    list and the overview [null], whatever either response carried, and the
    error slot holds [Failed to load repo: ] followed by the reason.  For a
    bad status the reason names the resource, [Repo HTTP n] or
    [Overview HTTP n] (the repo's when both are bad); for a rejected fetch
    it is the message of the rejection and nothing else. *)
Theorem detail_failure_clears_both (w : World) (i : nat) (sel : jsval)
    (a : AllResult) (which : Resource) (reason : string) :
  inflight w !! i = Some (PDetail sel) ->
  DetailFailure a which reason ->
  exists w',
    step w (Settle i (All a)) = Normal w' /\
    commits (state w') = JArr [] /\
    overview (state w') = JNull /\
    err (state w') = Some ("Failed to load repo: " ++ reason) /\
    (forall r1 r2, a = AllFulfilled r1 r2 ->
       reason = match which with
                | Repo => "Repo HTTP " ++ status_text r1
                | Overview => "Overview HTTP " ++ status_text r2
                end) /\
    (forall wh e, a = FirstRejected wh e -> reason = error_reason e) /\
    selected (state w') = selected (state w) /\
    inflight w' = delete i (inflight w).
Proof.
  intros Hi Hf. eexists. split; [apply (step_settle_detail _ _ _ _ Hi) |].
  rewrite (detail_failure_clears _ _ _ _ Hf). simpl.
  repeat split.
  - intros r1 r2 ->. inversion Hf; reflexivity.
  - intros wh e ->. inversion Hf; reflexivity.
Qed.

Lemma detail_failure_clears_both_witness :
  exists w',
    step (mkWorld (setSelected (JStr "b1") initial) [PDetail (JStr "b1")])
      (Settle 0 (All (AllFulfilled (Sample.json_ok (Sample.repo_of "b1"))
                        (Sample.http_error 404 "Not Found"))))
      = Normal w' /\
    commits (state w') = JArr [] /\
    overview (state w') = JNull /\
    err (state w') = Some "Failed to load repo: Overview HTTP 404".
Proof.
  destruct (detail_failure_clears_both
              (mkWorld (setSelected (JStr "b1") initial) [PDetail (JStr "b1")])
              0 (JStr "b1")
              (AllFulfilled (Sample.json_ok (Sample.repo_of "b1"))
                 (Sample.http_error 404 "Not Found"))
              Overview "Overview HTTP 404" eq_refl
              (detail_overview_status (Sample.json_ok (Sample.repo_of "b1"))
                 (Sample.http_error 404 "Not Found") eq_refl eq_refl))
    as (w' & H1 & H2 & H3 & H4 & _).
  exists w'. auto.
Defined.

(** C8 as stated fails on the error text: a network failure of the history
    request and one of the overview request surface the very same error,
    so the error tells nothing about which of the two failed. *)
Lemma detail_error_counterexample :
  DetailFailure (FirstRejected Repo Sample.network_down) Repo
    "Failed to fetch" /\
  DetailFailure (FirstRejected Overview Sample.network_down) Overview
    "Failed to fetch" /\
  err (detail_resume (FirstRejected Repo Sample.network_down)
         (state (Sample.selecting "b1")))
  = Some "Failed to load repo: Failed to fetch" /\
  err (detail_resume (FirstRejected Overview Sample.network_down)
         (state (Sample.selecting "b1")))
  = Some "Failed to load repo: Failed to fetch" /\
  detail_resume (FirstRejected Repo Sample.network_down)
    (state (Sample.selecting "b1"))
  = detail_resume (FirstRejected Overview Sample.network_down)
      (state (Sample.selecting "b1")).
Proof.
  split; [exact (detail_network_error Repo Sample.network_down) |].
  split; [exact (detail_network_error Overview Sample.network_down) |].
  repeat split.
Qed.

(** C5 as stated fails: after a conversation about [b1], picking [b2]
    leaves the three turns and the typed draft in place, and a question
    asked now is sent for [b2] and appended to that old transcript before
    any reset; if the detail load for [b2] then fails, no reset ever
    comes. *)
Lemma selection_change_counterexample :
  exists w0 w w1 w2,
    run mount Sample.conversation_trace = Normal w0 /\
    selected (state w0) = JStr "b1" /\
    step w0 (ClickBundle 1) = Normal w /\
    selected (state w) = JStr "b2" /\
    chat (state w) = chat (state w0) /\
    length (chat (state w)) = 3%nat /\
    question (state w) = "draft" /\
    step w (CallAsk "And here?") = Normal w1 /\
    inflight w1 = [PDetail (JStr "b2"); PChat (JStr "b2") "And here?"] /\
    chat (state w1) = (chat (state w0) ++ [user_turn "And here?"])%list /\
    step w1 (Settle 0 (All (FirstRejected Repo Sample.network_down)))
      = Normal w2 /\
    chat (state w2) = chat (state w1) /\
    question (state w2) = "draft".
Proof.
  eexists. eexists. eexists. eexists.
  split; [vm_compute; reflexivity |]. split; [reflexivity |].
  split; [vm_compute; reflexivity |]. split; [reflexivity |].
  split; [reflexivity |]. split; [reflexivity |]. split; [reflexivity |].
  split; [vm_compute; reflexivity |]. split; [reflexivity |].
  split; [reflexivity |].
  split; [vm_compute; reflexivity |]. split; reflexivity.
Qed.

(** ** Further properties of the component *)

(** *** What each part leaves alone *)

Lemma run_effects_frame (b1 b2 : bool) (w : World) :
  let w' := run_effects b1 b2 w in
  council (state w') = council (state w) /\
  q (state w') = q (state w) /\
  minApps (state w') = minApps (state w) /\
  bundles (state w') = bundles (state w) /\
  selected (state w') = selected (state w) /\
  commits (state w') = commits (state w) /\
  overview (state w') = overview (state w) /\
  question (state w') = question (state w) /\
  chat (state w') = chat (state w) /\
  loading (state w') = loading (state w).
Proof.
  destruct w as [s infl].
  unfold run_effects, detail_run, bundles_run, suspend.
  destruct b1, b2; simpl; try tauto;
    destruct (truthy (selected s)); simpl; repeat split.
Qed.

Lemma ask_frame (sel : jsval) (t : string) (s : State) :
  let s' := fst (ask sel t s) in
  council s' = council s /\ q s' = q s /\ minApps s' = minApps s /\
  bundles s' = bundles s /\ selected s' = selected s /\
  commits s' = commits s /\ overview s' = overview s /\
  question s' = question s.
Proof. unfold ask. destruct (negb (truthy sel)); simpl; tauto. Qed.

Lemma ask_chat (sel : jsval) (t : string) (s : State) :
  chat (fst (ask sel t s))
  = (chat s ++ (if truthy sel then [user_turn t] else []))%list.
Proof.
  unfold ask. destruct (truthy sel); simpl; [reflexivity |].
  rewrite app_nil_r. reflexivity.
Qed.

Lemma speak_resume_cases (f : FetchResult) (s : State) :
  speak_resume f s = s \/
  exists e, speak_resume f s = setErr (Some ("Voice failed: " ++ error_reason e)) s.
Proof.
  unfold speak_resume. destruct f as [e | r]; simpl; [right; eauto |].
  destruct (ok r); simpl.
  - destruct (blob_body r) as [[] | e]; simpl; [left; reflexivity | right; eauto].
  - destruct (text_body r) as [t | e]; simpl; right; eauto.
Qed.

Lemma bundles_resume_frame (sel : jsval) (f : FetchResult) (s : State) :
  let s' := bundles_resume sel f s in
  commits s' = commits s /\ overview s' = overview s /\
  question s' = question s /\ chat s' = chat s /\ loading s' = loading s /\
  (selected s' = selected s \/ truthy sel = false).
Proof.
  unfold bundles_resume.
  destruct f as [e | r]; simpl; [tauto |].
  destruct (ok r); simpl; [| tauto].
  destruct (json_body r) as [data | e]; simpl; [| tauto].
  destruct (truthy sel); simpl; [tauto |].
  destruct (truthy _); simpl; auto 10.
Qed.

Lemma ask_resume_chat (f : FetchResult) (s s' : State) :
  ask_resume f s = Normal s' <->
  exists m, reply_of f = Normal m /\
    s' = setLoading false
           (setChat (fun c => (c ++ [m])%list)
              (match chat_exchange f with
               | Normal _ => s
               | Throw e => setErr (Some ("Chat failed: " ++ error_reason e)) s
               end)).
Proof.
  unfold ask_resume, reply_of. destruct (chat_exchange f) as [data | e].
  - destruct (assistant_turn data) as [m | e]; simpl; split.
    + intros [= <-]. eauto.
    + intros (m' & [= <-] & ->). reflexivity.
    + discriminate.
    + intros (m' & [=] & _).
  - split.
    + intros [= <-]. eauto.
    + intros (m' & [= <-] & ->). reflexivity.
Qed.

(** The selection changes in two places only: a click on a bundle, and the
    continuation of a list fetch that was issued without a selection.  No
    answer of the detail, chat or speech endpoints, no typing and no
    question asked moves it. *)
Theorem selection_changes_only_by_click_or_list (w w' : World) (ev : Event) :
  step w ev = Normal w' ->
  selected (state w') = selected (state w) \/
  (exists i, ev = ClickBundle i) \/
  (exists i f sel u,
     ev = Settle i (One f) /\ inflight w !! i = Some (PBundles sel u) /\
     truthy sel = false).
Proof.
  unfold step. destruct (handle ev w) as [w1 | e] eqn:Hh; simpl; [| discriminate].
  intros [= <-].
  destruct (run_effects_frame
              (bundles_deps_changed (state w) (state w1))
              (detail_deps_changed (state w) (state w1)) w1)
    as (_ & _ & _ & _ & -> & _).
  revert Hh. unfold handle.
  destruct ev as [v | v | v | i | v | t | | j | sup | i r].
  - intros [= <-]. auto.
  - intros [= <-]. auto.
  - intros [= <-]. auto.
  - eauto.
  - intros [= <-]. auto.
  - pose proof (ask_frame (selected (state w)) t (state w)) as Hf.
    destruct (ask _ t _) as [s' p]. intros [= <-]. simpl in *. tauto.
  - destruct (String.eqb _ ""); [intros [= <-]; auto |].
    pose proof (ask_frame (selected (state w)) (trim (question (state w)))
                  (state w)) as Hf.
    destruct (ask _ _ _) as [s' p]. intros [= <-]. simpl in *. tauto.
  - destruct (chat (state w) !! j) as [[[] t c] |]; intros [= <-]; auto.
  - unfold voiceAsk. destruct sup; intros [= <-]; auto.
  - destruct (inflight w !! i) as [[sel u | sel | sel t | t | sel] |] eqn:Hi;
      destruct r as [f | a | t']; try (intros [= <-]; auto; fail).
    + intros [= <-]. simpl.
      destruct (bundles_resume_frame sel f (state w))
        as (_ & _ & _ & _ & _ & [H | H]); [auto |].
      right. right. eauto 10.
    + intros [= <-]. simpl.
      destruct (detail_resume_frame a (state w)) as (_ & _ & _ & H & _). auto.
    + destruct (ask_resume f (state w)) as [s' | e] eqn:Hr; simpl; [| discriminate].
      intros [= <-]. simpl.
      destruct (ask_resume_frame _ _ _ Hr) as (_ & _ & _ & H & _). auto.
    + intros [= <-]. simpl.
      destruct (speak_resume_cases f (state w)) as [-> | (e & ->)]; auto.
    + pose proof (ask_frame sel t' (state w)) as Hf.
      destruct (ask sel t' (state w)) as [s' p]. intros [= <-]. simpl in *. tauto.
Qed.

Lemma selection_changes_only_by_click_or_list_witness :
  exists w',
    step Sample.talking (Settle 0 (All (Sample.detail_ok "b1"))) = Normal w' /\
    selected (state w') = JStr "b1".
Proof.
  eexists. split; [vm_compute; reflexivity |].
  destruct (selection_changes_only_by_click_or_list Sample.talking _
              (Settle 0 (All (Sample.detail_ok "b1"))) eq_refl)
    as [H | [(i & H) | (i & f & sel & u & H & _)]];
    [exact H | discriminate H | discriminate H].
Defined.

(** *** The handlers, rule by rule *)

Lemma handle_Handles (w w1 : World) (ev : Event) :
  handle ev w = Normal w1 -> Handles w ev w1.
Proof.
  unfold handle.
  destruct ev as [v | v | v | i | v | t | | j | sup | i r].
  - intros [= <-]. constructor.
  - intros [= <-]. constructor.
  - intros [= <-]. constructor.
  - destruct (bundles (state w) !! i) as [b |] eqn:Hb.
    + destruct (get b "site_bundle_id") as [id | e] eqn:Hid; simpl;
        [| discriminate].
      intros [= <-]. econstructor; eauto.
    + intros [= <-]. now apply h_click_nothing.
  - intros [= <-]. constructor.
  - destruct (ask _ t _) as [s' p] eqn:Ha. intros [= <-].
    pose proof (h_ask w t) as H. rewrite Ha in H. exact H.
  - destruct (String.eqb _ "") eqn:Hq.
    + intros [= <-]. apply h_submit_blank. now apply String.eqb_eq.
    + destruct (ask _ _ _) as [s' p] eqn:Ha. intros [= <-].
      apply String.eqb_neq in Hq.
      pose proof (h_submit w Hq) as H. rewrite Ha in H. exact H.
  - destruct (chat (state w) !! j) as [[[] t c] |] eqn:Hj;
      intros [= <-]; try (now apply h_nothing).
    unfold suspend. simpl. eapply h_read_aloud; eauto.
  - unfold voiceAsk, suspend. destruct sup; simpl; rewrite ?app_nil_r;
      intros [= <-];
      [apply h_mic_supported | apply h_mic_unsupported].
  - destruct (inflight w !! i) as [[sel u | sel | sel t | t | sel] |] eqn:Hi;
      destruct r as [f | a | t']; try (intros [= <-]; now apply h_nothing).
    + intros [= <-]. eapply h_settle_list; eauto.
    + intros [= <-]. eapply h_settle_detail; eauto.
    + destruct (ask_resume f (state w)) as [s' | e] eqn:Hr; simpl;
        [| discriminate].
      intros [= <-]. eapply h_settle_chat; eauto.
    + intros [= <-]. eapply h_settle_tts; eauto.
    + destruct (ask sel t' (state w)) as [s' p] eqn:Ha. intros [= <-].
      pose proof (h_heard w i sel t' Hi) as H. rewrite Ha in H. exact H.
Qed.

Lemma step_Handles (w w' : World) (ev : Event) :
  step w ev = Normal w' ->
  exists w1 b1 b2, Handles w ev w1 /\ w' = run_effects b1 b2 w1.
Proof.
  unfold step. destruct (handle ev w) as [w1 | e] eqn:Hh; simpl; [| discriminate].
  intros [= <-]. eexists. eexists. eexists.
  split; [apply handle_Handles; exact Hh | reflexivity].
Qed.

Lemma run_invariant (P : World -> Prop) :
  (forall w ev w', P w -> step w ev = Normal w' -> P w') ->
  forall evs w w', P w -> run w evs = Normal w' -> P w'.
Proof.
  intros Hstep. induction evs as [| ev evs IH]; simpl; intros w w' Hw.
  - intros [= <-]. exact Hw.
  - destruct (step w ev) as [w1 | e] eqn:Hs; simpl; [| discriminate].
    eauto.
Qed.

(** *** The transcript only grows, until a detail load resets it *)

Lemma detail_resume_chat (a : AllResult) (s : State) :
  chat (detail_resume a s) = chat s \/ chat (detail_resume a s) = [intro_turn].
Proof.
  destruct (detail_resume_all_or_nothing a s) as [(cs & ov & _ & ->) | (e & ->)];
    simpl; auto.
Qed.

(** Whatever happens - typing, clicks, answers and failures of any endpoint -
    the transcript after the event is the transcript before it, or that
    transcript with one turn appended at its end, or, after the settlement
    of a detail load, the single introductory turn.  No turn is ever edited,
    reordered or removed in any other way. *)
Theorem transcript_append_only (w w' : World) (ev : Event) :
  step w ev = Normal w' ->
  chat (state w') = chat (state w) \/
  (exists m, chat (state w') = (chat (state w) ++ [m])%list) \/
  ((exists i a, ev = Settle i (All a)) /\ chat (state w') = [intro_turn]).
Proof.
  intros Hs. destruct (step_Handles _ _ _ Hs) as (w1 & b1 & b2 & Hh & ->).
  destruct (run_effects_frame b1 b2 w1) as (_ & _ & _ & _ & _ & _ & _ & _ & -> & _).
  destruct Hh; simpl; auto.
  - rewrite ask_chat. destruct (truthy _); [eauto | rewrite app_nil_r; auto].
  - rewrite ask_chat. destruct (truthy _); [eauto | rewrite app_nil_r; auto].
  - destruct (bundles_resume_frame sel f (state w)) as (_ & _ & _ & -> & _). auto.
  - destruct (detail_resume_chat a (state w)) as [-> | ->]; eauto 10.
  - match goal with H : ask_resume _ _ = Normal _ |- _ =>
      apply ask_resume_chat in H; destruct H as (m & _ & ->) end.
    simpl. destruct (chat_exchange f); simpl; eauto.
  - destruct (speak_resume_cases f (state w)) as [-> | (e & ->)]; auto.
  - rewrite ask_chat. destruct (truthy _); [eauto | rewrite app_nil_r; auto].
Qed.

Lemma transcript_append_only_witness :
  exists w',
    step Sample.talking (CallAsk "And the decision?") = Normal w' /\
    chat (state w') =
      [intro_turn; user_turn "What changed?"; user_turn "And the decision?"].
Proof.
  eexists. split; [vm_compute; reflexivity |].
  destruct (transcript_append_only Sample.talking _
              (CallAsk "And the decision?") eq_refl)
    as [H | [(m & H) | ((i & a & H) & _)]]; [| | discriminate H];
    reflexivity.
Defined.

(** *** Invariants of every run *)

Lemma run_effects_inflight (P : Pending -> Prop) (b1 b2 : bool) (w : World) :
  (forall sel u, P (PBundles sel u)) ->
  (forall sel, truthy sel = true -> P (PDetail sel)) ->
  Forall P (inflight w) ->
  Forall P (inflight (run_effects b1 b2 w)).
Proof.
  intros Hb Hd Hw. destruct w as [s infl]. simpl in Hw.
  unfold run_effects, detail_run, bundles_run, suspend.
  destruct b1, b2; simpl; try assumption;
    try (destruct (truthy (selected s)) eqn:Hsel; simpl);
    rewrite ?app_nil_r; repeat (apply Forall_app; split); auto.
Qed.

Lemma ask_pending (P : Pending -> Prop) (sel : jsval) (t : string) (s : State) :
  (forall sel' t', truthy sel' = true -> P (PChat sel' t')) ->
  Forall P (option_list (snd (ask sel t s))).
Proof.
  intros Hc. unfold ask. destruct (truthy sel) eqn:Hsel; simpl; auto.
Qed.

Lemma Handles_inflight (P : Pending -> Prop) (w w1 : World) (ev : Event) :
  (forall sel' t', truthy sel' = true -> P (PChat sel' t')) ->
  (forall t, P (PTts t)) ->
  (forall sel, P (PVoice sel)) ->
  Handles w ev w1 ->
  Forall P (inflight w) -> Forall P (inflight w1).
Proof.
  intros Hc Ht Hv Hh Hw.
  destruct Hh; simpl; auto using Forall_delete;
    repeat (apply Forall_app; split);
    auto using Forall_delete, ask_pending.
Qed.

(** In every run from the first render, each detail request and each chat
    request in flight was issued under a selection: the page never asks the
    detail or the chat endpoint about no bundle. *)
Theorem requests_need_selection (evs : list Event) (w : World) :
  run mount evs = Normal w ->
  Forall issued_with_selection (inflight w).
Proof.
  apply (run_invariant (fun w => Forall issued_with_selection (inflight w))).
  - intros w0 ev w' Hw Hs.
    destruct (step_Handles _ _ _ Hs) as (w1 & b1 & b2 & Hh & ->).
    apply run_effects_inflight; simpl; auto.
    eapply Handles_inflight; eauto; simpl; auto.
  - repeat constructor.
Qed.

Lemma requests_need_selection_witness :
  exists w,
    run mount
      [Settle 0 (One (Fulfilled
         (Sample.json_ok (JArr [Sample.bundle "b1"; Sample.bundle "b2"]))));
       ClickBundle 1] = Normal w /\
    inflight w = [PDetail (JStr "b1"); PDetail (JStr "b2")] /\
    Forall issued_with_selection (inflight w).
Proof.
  eexists. split; [vm_compute; reflexivity |]. split; [reflexivity |].
  apply (requests_need_selection
           [Settle 0 (One (Fulfilled
              (Sample.json_ok (JArr [Sample.bundle "b1"; Sample.bundle "b2"]))));
            ClickBundle 1]).
  vm_compute. reflexivity.
Defined.

Lemma or_else_truthy (a b : jsval) : truthy b = true -> truthy (or_else a b) = true.
Proof. unfold or_else. destruct (truthy a) eqn:Ha; auto. Qed.

Lemma detail_resume_commits (a : AllResult) (s : State) :
  truthy (commits (detail_resume a s)) = true.
Proof.
  destruct (detail_resume_all_or_nothing a s) as [(cs & ov & _ & ->) | (e & ->)];
    simpl; auto using or_else_truthy.
Qed.

(** In every run from the first render the history slot holds a truthy
    value: a repo reply without [commits], or with a [null] or empty one,
    is shown as the empty history, and a failed load as well; the slot is
    never [null] or [undefined]. *)
Theorem history_never_falsy (evs : list Event) (w : World) :
  run mount evs = Normal w ->
  truthy (commits (state w)) = true.
Proof.
  apply (run_invariant (fun w => truthy (commits (state w)) = true)).
  - intros w0 ev w' Hw Hs.
    destruct (step_Handles _ _ _ Hs) as (w1 & b1 & b2 & Hh & ->).
    destruct (run_effects_frame b1 b2 w1) as (_ & _ & _ & _ & _ & -> & _).
    destruct Hh; simpl; auto.
    + destruct (ask_frame (selected (state w0)) t (state w0))
        as (_ & _ & _ & _ & _ & -> & _). exact Hw.
    + destruct (ask_frame (selected (state w0)) (trim (question (state w0)))
                  (state w0)) as (_ & _ & _ & _ & _ & -> & _). exact Hw.
    + destruct (bundles_resume_frame sel f (state w0)) as (-> & _). exact Hw.
    + apply detail_resume_commits.
    + match goal with H : ask_resume _ _ = Normal _ |- _ =>
        destruct (ask_resume_frame _ _ _ H) as (_ & _ & _ & _ & _ & -> & _) end.
      exact Hw.
    + destruct (speak_resume_cases f (state w0)) as [-> | (e & ->)]; exact Hw.
    + destruct (ask_frame sel t (state w0)) as (_ & _ & _ & _ & _ & -> & _).
      exact Hw.
  - reflexivity.
Qed.

Lemma history_never_falsy_witness :
  exists w,
    run mount
      [Settle 0 (One (Fulfilled (Sample.json_ok (JArr [Sample.bundle "b1"]))));
       Settle 0 (All (AllFulfilled (Sample.json_ok (JObj []))
                        (Sample.json_ok JNull)))] = Normal w /\
    commits (state w) = JArr [] /\
    truthy (commits (state w)) = true.
Proof.
  eexists. split; [vm_compute; reflexivity |]. split; [reflexivity |].
  apply (history_never_falsy
           [Settle 0 (One (Fulfilled
              (Sample.json_ok (JArr [Sample.bundle "b1"]))));
            Settle 0 (All (AllFulfilled (Sample.json_ok (JObj []))
                             (Sample.json_ok JNull)))]).
  vm_compute. reflexivity.
Defined.

Lemma Exists_delete_other {A} (P : A -> Prop) (l : list A) (i : nat) (x : A) :
  l !! i = Some x -> ~ P x -> Exists P l -> Exists P (delete i l).
Proof.
  revert i. induction l as [| y l IH]; intros i Hi Hx Hl; [inversion Hl |].
  destruct i as [| i]; simpl in *.
  - injection Hi as ->. inversion Hl; subst; [contradiction | assumption].
  - inversion Hl; subst; [now left | right; eauto].
Qed.

Lemma ask_loading (sel : jsval) (t : string) (s : State) :
  loading (fst (ask sel t s)) = true ->
  loading s = true \/ Exists is_chat_request (option_list (snd (ask sel t s))).
Proof.
  unfold ask. destruct (truthy sel); simpl; auto.
  intros _. right. left. exact I.
Qed.

(** In every run from the first render, the waiting indicator is on only
    while some chat request is in flight: [loading] is never left on with
    nothing to wait for. *)
Theorem loading_only_while_chat_in_flight (evs : list Event) (w : World) :
  run mount evs = Normal w ->
  loading (state w) = true ->
  Exists is_chat_request (inflight w).
Proof.
  apply (run_invariant
           (fun w => loading (state w) = true ->
                     Exists is_chat_request (inflight w))).
  - intros w0 ev w' Hw Hs.
    destruct (step_Handles _ _ _ Hs) as (w1 & b1 & b2 & Hh & ->).
    destruct (run_effects_frame b1 b2 w1)
      as (_ & _ & _ & _ & _ & _ & _ & _ & _ & ->).
    intros Hl.
    assert (H1 : Exists is_chat_request (inflight w1)).
    { destruct Hh; simpl in *; auto.
      - apply Exists_app. destruct (ask_loading _ _ _ Hl); auto.
      - apply Exists_app. destruct (ask_loading _ _ _ Hl); auto.
      - apply Exists_app. auto.
      - apply Exists_app. auto.
      - destruct (bundles_resume_frame sel f (state w0))
          as (_ & _ & _ & _ & Hlo & _). rewrite Hlo in Hl.
        eapply Exists_delete_other; [eassumption | simpl; tauto | auto].
      - destruct (detail_resume_frame a (state w0))
          as (_ & _ & _ & _ & _ & Hlo). rewrite Hlo in Hl.
        eapply Exists_delete_other; [eassumption | simpl; tauto | auto].
      - match goal with H : ask_resume _ _ = Normal _ |- _ =>
          apply ask_resume_clears_loading in H; congruence end.
      - assert (Hlo : loading (speak_resume f (state w0)) = loading (state w0))
          by (destruct (speak_resume_cases f (state w0)) as [-> | (e & ->)];
              reflexivity).
        rewrite Hlo in Hl. eapply Exists_delete_other; [eassumption | simpl; tauto | auto].
      - apply Exists_app. destruct (ask_loading _ _ _ Hl) as [Hon | Hon]; auto.
        left. eapply Exists_delete_other; [eassumption | simpl; tauto | auto]. }
    destruct w1 as [s1 infl1]. simpl in *.
    unfold run_effects, bundles_run, detail_run, suspend.
    destruct b1, b2; simpl; auto;
      try destruct (truthy (selected s1)); simpl;
      rewrite ?Exists_app; auto.
  - discriminate.
Qed.

Lemma loading_only_while_chat_in_flight_witness :
  exists w,
    run mount
      [Settle 0 (One (Fulfilled (Sample.json_ok (JArr [Sample.bundle "b1"]))));
       CallAsk "What changed?"] = Normal w /\
    loading (state w) = true /\
    Exists is_chat_request (inflight w).
Proof.
  eexists. split; [vm_compute; reflexivity |]. split; [reflexivity |].
  apply (loading_only_while_chat_in_flight
           [Settle 0 (One (Fulfilled
              (Sample.json_ok (JArr [Sample.bundle "b1"]))));
            CallAsk "What changed?"]);
    [vm_compute; reflexivity | reflexivity].
Defined.

(** *** Overlapping questions *)

Lemma step_settle_chat_reply (w : World) (i : nat) (sel : jsval) (t : string)
    (f : FetchResult) (m : ChatMsg) :
  inflight w !! i = Some (PChat sel t) ->
  reply_of f = Normal m ->
  exists w',
    step w (Settle i (One f)) = Normal w' /\
    chat (state w') = (chat (state w) ++ [m])%list /\
    loading (state w') = false /\
    selected (state w') = selected (state w) /\
    inflight w' = delete i (inflight w).
Proof.
  intros Hi Hm.
  assert (Hr : exists s', ask_resume f (state w) = Normal s').
  { unfold ask_resume, reply_of in *. destruct (chat_exchange f); [| eauto].
    rewrite Hm. simpl. eauto. }
  destruct Hr as (s' & Hr). exists (mkWorld s' (delete i (inflight w))).
  split; [eapply step_settle_chat; eauto |].
  apply ask_resume_chat in Hr. destruct Hr as (m' & Hm' & ->).
  rewrite Hm in Hm'. injection Hm' as <-.
  simpl. destruct (chat_exchange f); simpl; auto.
Qed.

Lemma Exists_delete_ne {A} (P : A -> Prop) (l : list A) (i j : nat) (y : A) :
  i <> j -> l !! j = Some y -> P y -> Exists P (delete i l).
Proof.
  revert i j. induction l as [| x l IH]; intros i j Hij Hj Hy; [discriminate |].
  destruct i as [| i], j as [| j]; simpl in *.
  - contradiction.
  - apply Exists_exists. exists y. split; [| exact Hy].
    eapply list_elem_of_lookup_2; eauto.
  - injection Hj as ->. now left.
  - right. eapply (IH i j); eauto.
Qed.

(** The waiting indicator is a single flag, not a count: the first answer
    to arrive turns it off although another chat request is still in
    flight. *)
Theorem first_reply_clears_indicator (w w' : World) (i j : nat)
    (sel sel' : jsval) (t t' : string) (f : FetchResult) :
  i <> j ->
  inflight w !! i = Some (PChat sel t) ->
  inflight w !! j = Some (PChat sel' t') ->
  step w (Settle i (One f)) = Normal w' ->
  loading (state w') = false /\ Exists is_chat_request (inflight w').
Proof.
  intros Hij Hi Hj Hs.
  destruct (ask_resume f (state w)) as [s' | e] eqn:Hr.
  - rewrite (step_settle_chat _ _ _ _ _ _ Hi Hr) in Hs. injection Hs as <-.
    simpl. split; [eapply ask_resume_clears_loading; eauto |].
    eapply Exists_delete_ne; eauto. exact I.
  - rewrite (step_settle_chat_throw _ _ _ _ _ _ Hi Hr) in Hs. discriminate.
Qed.

Lemma first_reply_clears_indicator_witness :
  exists w',
    step (mkWorld (setLoading true (setSelected (JStr "b1") initial))
            [PChat (JStr "b1") "first"; PChat (JStr "b1") "second"])
      (Settle 0 (One (Rejected Sample.network_down))) = Normal w' /\
    loading (state w') = false /\
    inflight w' = [PChat (JStr "b1") "second"].
Proof.
  eexists. split; [vm_compute; reflexivity |].
  split; [| reflexivity].
  apply (first_reply_clears_indicator
           (mkWorld (setLoading true (setSelected (JStr "b1") initial))
              [PChat (JStr "b1") "first"; PChat (JStr "b1") "second"])
           _ 0 1 (JStr "b1") (JStr "b1") "first" "second"
           (Rejected Sample.network_down));
    [discriminate | reflexivity | reflexivity | reflexivity].
Defined.

(** *** Filters and clicks *)

Lemma setQ_same (s : State) : setQ (q s) s = s.
Proof. destruct s; reflexivity. Qed.

Lemma setCouncil_same (s : State) : setCouncil (council s) s = s.
Proof. destruct s; reflexivity. Qed.


Lemma world_eta (w : World) : mkWorld (state w) (inflight w) = w.
Proof. destruct w; reflexivity. Qed.

(** Typing in the search box or in the council box: a text equal to the
    one already there changes nothing and fetches nothing; any other text
    clears the error slot and starts exactly one list request, which
    carries the new text (left out of the query when empty), the other
    filters as they are, [limit=200], and the selection of that moment.
    List, selection, detail and transcript stay as they are meanwhile. *)
Theorem filter_change_refetches (w : World) (v : string) :
  (v = q (state w) -> step w (ChangeQ v) = Normal w) /\
  (v <> q (state w) ->
   step w (ChangeQ v) =
     Normal (mkWorld (setErr None (setQ v (state w)))
               (inflight w ++
                  [PBundles (selected (state w))
                     (mkQuery (p_council (bundles_url (state w)))
                        (if String.eqb v "" then None else Some v)
                        (min_apps (bundles_url (state w))) "200")])%list)) /\
  (v = council (state w) -> step w (ChangeCouncil v) = Normal w) /\
  (v <> council (state w) ->
   step w (ChangeCouncil v) =
     Normal (mkWorld (setErr None (setCouncil v (state w)))
               (inflight w ++
                  [PBundles (selected (state w))
                     (mkQuery (if String.eqb v "" then None else Some v)
                        (p_q (bundles_url (state w)))
                        (min_apps (bundles_url (state w))) "200")])%list)).
Proof.
  split; [| split; [| split]].
  - intros ->. apply step_quiet; try reflexivity.
    unfold handle. rewrite setQ_same, world_eta. reflexivity.
  - intros Hne. erewrite step_unfold by reflexivity.
    unfold bundles_deps_changed, detail_deps_changed. simpl.
    rewrite String.eqb_refl, same_value_refl.
    replace (String.eqb (q (state w)) v) with false
      by (symmetry; apply String.eqb_neq; congruence).
    reflexivity.
  - intros ->. apply step_quiet; try reflexivity.
    unfold handle. rewrite setCouncil_same, world_eta. reflexivity.
  - intros Hne. erewrite step_unfold by reflexivity.
    unfold bundles_deps_changed, detail_deps_changed. simpl.
    rewrite same_value_refl.
    replace (String.eqb (council (state w)) v) with false
      by (symmetry; apply String.eqb_neq; congruence).
    reflexivity.
Qed.

Lemma filter_change_refetches_witness :
  step mount (ChangeQ "") = Normal mount /\
  step mount (ChangeQ "high street") =
    Normal (mkWorld (setQ "high street" initial)
              [PBundles JNull (mkQuery None None "5" "200");
               PBundles JNull (mkQuery None (Some "high street") "5" "200")]).
Proof.
  destruct (filter_change_refetches mount "") as (Hsame & _).
  destruct (filter_change_refetches mount "high street") as (_ & Hnew & _).
  split; [apply Hsame; reflexivity | apply Hnew; discriminate].
Defined.



(** *** Voice *)

(** Voice input.  Without a speech recognizer the click on the microphone
    only sets the error slot: no request, no turn.  With one, nothing
    changes until a result is heard, and the result is then asked with the
    selection of the moment of the click, whatever is selected by then: if
    nothing was selected at the click the words are dropped, otherwise the
    user turn is appended and the chat request carries that earlier
    selection. *)
Theorem voice_asks_with_selection_at_click (w : World) :
  step w (ClickMic false) =
    Normal (mkWorld (setErr (Some voice_unsupported) (state w)) (inflight w)) /\
  step w (ClickMic true) =
    Normal (mkWorld (state w) (inflight w ++ [PVoice (selected (state w))])%list) /\
  (forall i sel t,
     inflight w !! i = Some (PVoice sel) ->
     step w (Settle i (Heard t)) =
       Normal (if truthy sel
               then mkWorld
                      (setChat (fun c => (c ++ [user_turn t])%list)
                         (setErr None (setLoading true (state w))))
                      (delete i (inflight w) ++ [PChat sel t])%list
               else mkWorld (state w) (delete i (inflight w)))).
Proof.
  split; [| split].
  - apply step_quiet; try reflexivity.
    unfold handle, voiceAsk, suspend. simpl. rewrite app_nil_r. reflexivity.
  - apply step_quiet; reflexivity.
  - intros i sel t Hi. apply step_quiet;
      try (destruct (truthy sel); reflexivity).
    unfold handle, ask, suspend. rewrite Hi.
    destruct (truthy sel); simpl; rewrite ?app_nil_r; reflexivity.
Qed.

Lemma voice_asks_with_selection_at_click_witness :
  step (mkWorld (setSelected (JStr "b1") initial) [PVoice JNull])
    (Settle 0 (Heard "what changed")) =
  Normal (mkWorld (setSelected (JStr "b1") initial) []).
Proof.
  apply (proj2 (proj2 (voice_asks_with_selection_at_click
                         (mkWorld (setSelected (JStr "b1") initial)
                            [PVoice JNull])))
           0%nat JNull "what changed" eq_refl).
Defined.

(** Reading a turn aloud touches the error slot and nothing else: the
    settlement of the speech request leaves the whole state as it is when
    the audio arrives, and otherwise sets the error slot to [Voice failed: ]
    and the reason.  Transcript, selection, lists and the waiting indicator
    never change. *)
Theorem read_aloud_touches_only_error (w : World) (i : nat) (t : jsval)
    (f : FetchResult) :
  inflight w !! i = Some (PTts t) ->
  exists w',
    step w (Settle i (One f)) = Normal w' /\
    inflight w' = delete i (inflight w) /\
    (state w' = state w \/
     exists e, state w' = setErr (Some ("Voice failed: " ++ error_reason e))
                            (state w)) /\
    (forall r, f = Fulfilled r -> ok r = true -> blob_body r = Normal tt ->
       state w' = state w) /\
    (forall e, f = Rejected e ->
       state w' = setErr (Some ("Voice failed: " ++ error_reason e)) (state w)).
Proof.
  intros Hi. exists (mkWorld (speak_resume f (state w)) (delete i (inflight w))).
  split.
  - apply step_quiet;
      try (destruct (speak_resume_cases f (state w)) as [-> | (e & ->)];
           reflexivity).
    unfold handle. rewrite Hi. reflexivity.
  - simpl. split; [reflexivity |]. split; [apply speak_resume_cases |]. split.
    + intros r -> Hok Hb. unfold speak_resume. simpl. rewrite Hok, Hb. reflexivity.
    + intros e ->. reflexivity.
Qed.

Lemma read_aloud_touches_only_error_witness :
  exists w',
    step (mkWorld (state Sample.talking) [PTts (JStr intro_text)])
      (Settle 0 (One (Fulfilled (Sample.http_error 500 "tts down")))) = Normal w' /\
    inflight w' = [] /\
    state w' = setErr (Some "Voice failed: TTS HTTP 500: tts down")
                 (state Sample.talking).
Proof.
  destruct (read_aloud_touches_only_error
              (mkWorld (state Sample.talking) [PTts (JStr intro_text)])
              0 (JStr intro_text)
              (Fulfilled (Sample.http_error 500 "tts down")) eq_refl)
    as (w' & Hs & Hin & _).
  exists w'. split; [exact Hs |]. split; [exact Hin |].
  vm_compute in Hs. injection Hs as <-. reflexivity.
Defined.

(** *** Overlapping list fetches *)

Lemma run_effects_detail_inflight (fire : bool) (w : World) :
  exists extra, inflight (run_effects false fire w) = (inflight w ++ extra)%list.
Proof.
  unfold run_effects, detail_run, suspend.
  destruct fire; simpl; [| exists []; rewrite app_nil_r; reflexivity].
  destruct (truthy (selected (state w))); simpl; eauto.
Qed.

(** *** The number box reads back what it shows *)

Lemma read_digits_stop (rest : string) (acc : option Z) :
  ends_integer rest = true -> read_digits 10 rest acc = acc.
Proof.
  destruct rest as [| c r]; [reflexivity |].
  unfold ends_integer, decimal_digit. simpl.
  destruct (digit_value c) as [d |]; [| reflexivity].
  destruct (Z.ltb d 10); [discriminate | reflexivity].
Qed.

Lemma append_cons (c : ascii) (s r : string) :
  String c s ++ r = String c (s ++ r).
Proof. reflexivity. Qed.

Lemma read_digits_uint (d : Decimal.uint) (rest : string) (acc : option Z) :
  ends_integer rest = true ->
  read_digits 10 (NilEmpty.string_of_uint d ++ rest) acc =
    match d with
    | Decimal.Nil => acc
    | _ => Some (uint_value d (default 0 acc))
    end.
Proof.
  intros Hrest. revert acc.
  induction d as [| l IH | l IH | l IH | l IH | l IH | l IH | l IH | l IH | l IH | l IH];
    intros acc;
    [apply read_digits_stop; exact Hrest | ..];
    cbn [NilEmpty.string_of_uint]; rewrite append_cons; cbn [read_digits];
    match goal with
    | |- context [digit_value ?c] =>
        let v := eval vm_compute in (digit_value c) in
        change (digit_value c) with v
    end;
    cbv iota; change (Z.ltb _ 10) with true; cbv iota;
    rewrite IH; destruct l; reflexivity.
Qed.

Lemma uint_value_acc (d : Decimal.uint) (p : positive) :
  Z.pos (Pos.of_uint_acc d p) = uint_value d (Z.pos p).
Proof.
  revert p. induction d; intros p; simpl; [reflexivity | ..];
    rewrite IHd; f_equal; lia.
Qed.

Lemma uint_value_of_uint (d : Decimal.uint) :
  Z.of_N (Pos.of_uint d) = uint_value d 0.
Proof.
  induction d; simpl; [reflexivity | exact IHd | ..];
    apply uint_value_acc.
Qed.

Lemma uint_value_to_uint (p : positive) : uint_value (Pos.to_uint p) 0 = Z.pos p.
Proof.
  rewrite <- uint_value_of_uint, DecimalPos.Unsigned.of_to. reflexivity.
Qed.

Lemma digits_start (d : Decimal.uint) (rest : string) :
  d <> Decimal.Nil ->
  let s := NilEmpty.string_of_uint d ++ rest in
  trim_start s = s /\ strip_sign s = (false, s).
Proof. destruct d; intros H; try contradiction; split; reflexivity. Qed.

Lemma digits_not_hex (d : Decimal.uint) (rest : string) :
  d <> Decimal.Nil -> ends_integer rest = true ->
  strip_hex (NilEmpty.string_of_uint d ++ rest)
  = (10, NilEmpty.string_of_uint d ++ rest).
Proof.
  intros Hd Hrest. destruct d as [| l | | | | | | | | |];
    try contradiction; try reflexivity.
  destruct l; try reflexivity.
  destruct rest as [| c r]; [reflexivity |].
  unfold ends_integer in Hrest.
  destruct c as [[] [] [] [] [] [] [] []]; try reflexivity;
    vm_compute in Hrest; discriminate.
Qed.

Lemma parseInt_digits (d : Decimal.uint) (rest : string) :
  d <> Decimal.Nil -> ends_integer rest = true ->
  parseInt (NilEmpty.string_of_uint d ++ rest) = Int (uint_value d 0) /\
  parseInt (String "-" (NilEmpty.string_of_uint d ++ rest)) =
    (if Z.eqb (uint_value d 0) 0 then NegZero else Int (- uint_value d 0)).
Proof.
  intros Hd Hrest.
  destruct (digits_start d rest Hd) as (Ht & Hs).
  assert (Hr : read_digits 10 (NilEmpty.string_of_uint d ++ rest) None
               = Some (uint_value d 0))
    by (rewrite read_digits_uint by exact Hrest; destruct d;
        [contradiction | reflexivity ..]).
  split.
  - unfold parseInt. rewrite Ht, Hs, (digits_not_hex d rest Hd Hrest), Hr.
    destruct (Z.eqb_spec (uint_value d 0) 0) as [-> | _]; reflexivity.
  - unfold parseInt.
    change (trim_start (String "-" ?s)) with (String "-" s).
    cbn [strip_sign]. rewrite (digits_not_hex d rest Hd Hrest), Hr.
    reflexivity.
Qed.

Lemma parseInt_decimal (z : Z) (rest : string) :
  ends_integer rest = true ->
  parseInt (number_to_string (Int z) ++ rest) = Int z.
Proof.
  intros Hrest. destruct z as [| p | p]; cbn [number_to_string Z.to_int].
  - destruct rest as [| c r]; [reflexivity |].
    apply (parseInt_digits (Decimal.D0 Decimal.Nil) (String c r));
      [discriminate | exact Hrest].
  - cbn [NilZero.string_of_int].
    assert (Hn := DecimalPos.Unsigned.to_uint_nonnil p).
    replace (NilZero.string_of_uint (Pos.to_uint p))
      with (NilEmpty.string_of_uint (Pos.to_uint p))
      by (destruct (Pos.to_uint p); [contradiction | reflexivity ..]).
    rewrite (proj1 (parseInt_digits _ rest Hn Hrest)), uint_value_to_uint.
    reflexivity.
  - cbn [NilZero.string_of_int]. rewrite append_cons.
    assert (Hn := DecimalPos.Unsigned.to_uint_nonnil p).
    replace (NilZero.string_of_uint (Pos.to_uint p))
      with (NilEmpty.string_of_uint (Pos.to_uint p))
      by (destruct (Pos.to_uint p); [contradiction | reflexivity ..]).
    rewrite (proj2 (parseInt_digits _ rest Hn Hrest)), uint_value_to_uint.
    reflexivity.
Qed.

Lemma decimal_text_nonempty (z : Z) (rest : string) :
  str_or (number_to_string (Int z) ++ rest) "5"
  = number_to_string (Int z) ++ rest.
Proof.
  destruct z as [| p | p]; cbn [number_to_string Z.to_int NilZero.string_of_int];
    try reflexivity.
  assert (Hn := DecimalPos.Unsigned.to_uint_nonnil p).
  destruct (Pos.to_uint p); [contradiction | reflexivity ..].
Qed.

Lemma append_empty (s : string) : s ++ "" = s.
Proof. induction s as [| c s IH]; [reflexivity |]. rewrite append_cons, IH. reflexivity. Qed.

(** *** The question box *)

Lemma rev_app_append (x y z : string) :
  String.rev_app x (y ++ z) = String.rev_app x y ++ z.
Proof.
  revert y. induction x as [| a x IH]; intros y; simpl; [reflexivity |].
  rewrite <- IH, append_cons. reflexivity.
Qed.

Lemma rev_app_app (x y z : string) :
  String.rev_app (x ++ y) z = String.rev_app y (String.rev_app x z).
Proof.
  revert z. induction x as [| a x IH]; intros z; [reflexivity |].
  rewrite append_cons. simpl. apply IH.
Qed.

Lemma rev_app_rev_app (x y z : string) :
  String.rev_app (String.rev_app x y) z = String.rev_app y (x ++ z).
Proof.
  revert y z. induction x as [| a x IH]; intros y z; [reflexivity |].
  simpl. rewrite IH, append_cons. reflexivity.
Qed.

Lemma rev_involutive (s : string) : String.rev (String.rev s) = s.
Proof.
  unfold String.rev. rewrite rev_app_rev_app. simpl. apply append_empty.
Qed.

Lemma rev_append (x y : string) :
  String.rev (x ++ y) = String.rev y ++ String.rev x.
Proof.
  unfold String.rev. rewrite rev_app_app.
  change (String.rev_app x "") with ("" ++ String.rev_app x "").
  rewrite rev_app_append. reflexivity.
Qed.

Lemma trim_start_suffix (s : string) : exists pre, s = pre ++ trim_start s.
Proof.
  induction s as [| c s (pre & IH)]; [exists ""; reflexivity |].
  simpl. destruct (is_space c); [| exists ""; reflexivity].
  exists (String c pre). rewrite append_cons, <- IH. reflexivity.
Qed.

Lemma trim_start_idem (s : string) : trim_start (trim_start s) = trim_start s.
Proof.
  induction s as [| c s IH]; [reflexivity |].
  simpl. destruct (is_space c) eqn:Hc; [exact IH |]. simpl. rewrite Hc. reflexivity.
Qed.

Lemma length_append (x y : string) :
  String.length (x ++ y) = (String.length x + String.length y)%nat.
Proof.
  induction x as [| a x IH]; [reflexivity |].
  rewrite append_cons. simpl. rewrite IH. reflexivity.
Qed.

(** A text on which [trim_start] does nothing keeps that property in each
    of its non-empty prefixes. *)
Lemma trim_start_prefix (t rest : string) :
  trim_start (t ++ rest) = t ++ rest -> t <> "" -> trim_start t = t.
Proof.
  destruct t as [| c t]; [contradiction |]. intros H _.
  rewrite append_cons in H. simpl in *.
  destruct (is_space c); [| reflexivity].
  destruct (trim_start_suffix (t ++ rest)) as (pre & Hpre).
  rewrite H in Hpre. exfalso.
  apply (f_equal String.length) in Hpre.
  rewrite !length_append in Hpre. simpl in Hpre.
  rewrite ?length_append in Hpre. lia.
Qed.

Lemma trim_ends (s : string) :
  trim_start (trim s) = trim s /\
  trim_start (String.rev (trim s)) = String.rev (trim s).
Proof.
  unfold trim. set (a := trim_start s). set (b := trim_start (String.rev a)).
  split.
  - destruct (trim_start_suffix (String.rev a)) as (pre & Hpre). fold b in Hpre.
    assert (Ha : a = String.rev b ++ String.rev pre)
      by (rewrite <- rev_append, <- Hpre, rev_involutive; reflexivity).
    destruct (String.rev b) as [| c t] eqn:Hb; [reflexivity |].
    rewrite <- Hb in *. apply (trim_start_prefix _ (String.rev pre)).
    + rewrite <- Ha. apply trim_start_idem.
    + rewrite Hb. discriminate.
  - rewrite rev_involutive. apply trim_start_idem.
Qed.

(** The Ask button and the Enter key.  A question that trims to nothing is
    not sent: nothing changes.  Any other question is asked trimmed - the
    text of the user turn and of the request has no white space at either
    end - and the box keeps what was typed: asking never clears it. *)
Theorem submit_asks_trimmed_question (w : World) :
  (trim (question (state w)) = "" -> step w Submit = Normal w) /\
  (trim (question (state w)) <> "" ->
   truthy (selected (state w)) = true ->
   exists w',
     step w Submit = Normal w' /\
     chat (state w')
     = (chat (state w) ++ [user_turn (trim (question (state w)))])%list /\
     inflight w'
     = (inflight w ++
          [PChat (selected (state w)) (trim (question (state w)))])%list /\
     question (state w') = question (state w)) /\
  trim_start (trim (question (state w))) = trim (question (state w)) /\
  trim_start (String.rev (trim (question (state w))))
  = String.rev (trim (question (state w))).
Proof.
  split; [| split; [| apply trim_ends]].
  - intros Hb. apply step_quiet; try reflexivity.
    unfold handle. rewrite Hb. reflexivity.
  - intros Hb Hsel.
    exists (mkWorld
              (setChat (fun c => (c ++ [user_turn (trim (question (state w)))])%list)
                 (setErr None (setLoading true (state w))))
              (inflight w ++
                 [PChat (selected (state w)) (trim (question (state w)))])%list).
    split.
    + apply step_quiet; try reflexivity.
      unfold handle, ask. rewrite Hsel. cbv zeta.
      replace (String.eqb (trim (question (state w))) "") with false
        by (symmetry; apply String.eqb_neq; exact Hb).
      reflexivity.
    + simpl. auto.
Qed.

Lemma submit_asks_trimmed_question_witness :
  step (mkWorld (setQuestion "   " (setSelected (JStr "b1") initial)) [])
    Submit
  = Normal (mkWorld (setQuestion "   " (setSelected (JStr "b1") initial)) []) /\
  exists w',
    step (mkWorld (setQuestion "  any appeals? " (setSelected (JStr "b1") initial)) [])
      Submit = Normal w' /\
    chat (state w') = [user_turn "any appeals?"] /\
    inflight w' = [PChat (JStr "b1") "any appeals?"] /\
    question (state w') = "  any appeals? ".
Proof.
  split.
  - apply (proj1 (submit_asks_trimmed_question
                    (mkWorld (setQuestion "   "
                                (setSelected (JStr "b1") initial)) []))).
    reflexivity.
  - apply (proj1 (proj2 (submit_asks_trimmed_question
                    (mkWorld (setQuestion "  any appeals? "
                                (setSelected (JStr "b1") initial)) []))));
      [discriminate | reflexivity].
Defined.

(** *** Diagnostics of a bad status *)

Lemma slice0_prefix (n : nat) (s : string) :
  (String.length (slice0 n s) <= n)%nat /\
  exists rest, s = slice0 n s ++ rest.
Proof.
  unfold slice0. revert s. induction n as [| n IH]; intros s.
  - destruct s; simpl; split; eauto.
  - destruct s as [| c s]; simpl; [split; [lia | exists ""; reflexivity] |].
    destruct (IH s) as (Hl & rest & Hr). split; [lia |].
    exists rest. rewrite append_cons, <- Hr. reflexivity.
Qed.

(** When the chat or the speech endpoint answers with a status outside
    200-299, the error shown names the endpoint and the status and then
    quotes the beginning of the response body, at most 200 characters of
    it, however long the body is. *)
Theorem bad_status_quotes_at_most_200 (r : Response) (body : string) (s : State) :
  ok r = false ->
  text_body r = Normal body ->
  exists quoted rest,
    body = quoted ++ rest /\
    (String.length quoted <= 200)%nat /\
    (exists s', ask_resume (Fulfilled r) s = Normal s' /\
       err s' = Some ("Chat failed: Chat HTTP " ++ status_text r ++ ": " ++ quoted)) /\
    err (speak_resume (Fulfilled r) s)
    = Some ("Voice failed: TTS HTTP " ++ status_text r ++ ": " ++ quoted).
Proof.
  intros Hok Hb. destruct (slice0_prefix 200 body) as (Hl & rest & Hr).
  exists (slice0 200 body), rest. split; [exact Hr |]. split; [exact Hl |].
  split.
  - eexists. split.
    + unfold ask_resume, chat_exchange. simpl. rewrite Hok, Hb. reflexivity.
    + reflexivity.
  - unfold speak_resume. simpl. rewrite Hok, Hb. reflexivity.
Qed.

Lemma bad_status_quotes_at_most_200_witness :
  exists quoted rest,
    "upstream timed out" = quoted ++ rest /\
    (String.length quoted <= 200)%nat /\
    (exists s',
       ask_resume (Fulfilled (Sample.http_error 504 "upstream timed out"))
         initial = Normal s' /\
       err s' = Some ("Chat failed: Chat HTTP 504: " ++ quoted)) /\
    err (speak_resume (Fulfilled (Sample.http_error 504 "upstream timed out"))
           initial)
    = Some ("Voice failed: TTS HTTP 504: " ++ quoted).
Proof.
  apply (bad_status_quotes_at_most_200
           (Sample.http_error 504 "upstream timed out") "upstream timed out"
           initial); reflexivity.
Defined.

(** *** Charts, headlines and list panels *)

Lemma index_entries_filter (fs : list (string * jsval)) :
  map snd (View.index_entries fs)
  = filter (fun kv => is_Some (View.array_index (fst kv))) fs.
Proof.
  unfold View.index_entries.
  induction fs as [| kv fs IH]; [reflexivity |].
  cbn [omap list_omap].
  destruct (View.array_index (fst kv)) as [z |] eqn:Hk; simpl.
  - rewrite filter_cons_True by (rewrite Hk; eauto). f_equal. exact IH.
  - rewrite filter_cons_False by (rewrite Hk; intros [? [=]]). exact IH.
Qed.

Lemma own_entries_Permutation (fs : list (string * jsval)) :
  View.own_entries fs ≡ₚ fs.
Proof.
  unfold View.own_entries.
  rewrite (Permutation_map snd (merge_sort_Permutation View.by_index _)).
  rewrite index_entries_filter. apply filter_app_complement.
Qed.

Lemma own_entries_plain_keys (fs : list (string * jsval)) :
  Forall (fun kv => View.array_index (fst kv) = None) fs ->
  View.own_entries fs = fs.
Proof.
  intros H. unfold View.own_entries.
  assert (H1 : View.index_entries fs = []).
  { unfold View.index_entries. induction H as [| kv fs Hk _ IH]; [reflexivity |].
    cbn [omap list_omap]. rewrite Hk. exact IH. }
  rewrite H1. simpl.
  induction H as [| kv fs Hk _ IH]; [reflexivity |].
  rewrite filter_cons_True by (rewrite Hk; intros [? [=]]).
  f_equal. apply IH.
  unfold View.index_entries in *. cbn [omap list_omap] in H1.
  rewrite Hk in H1. exact H1.
Qed.

(** The bars of a chart are the counts of the overview, each key once with
    its count: none is dropped, doubled or invented, and when no key is
    the decimal text of an array index the bars come in the order of the
    reply.  The chart says [No data] exactly when there is no count object
    or an empty one. *)
Theorem chart_bars_are_the_counts (key : string) (overview : jsval) :
  (truthy (get_opt overview key) = false ->
   View.chart_data key overview = [] /\
   View.Chart_no_data (View.chart_data key overview) = true) /\
  (forall fs,
     get_opt overview key = JObj fs ->
     View.chart_data key overview
       ≡ₚ map (fun kv => View.mkBar (fst kv) (snd kv)) fs /\
     (Forall (fun kv => View.array_index (fst kv) = None) fs ->
      View.chart_data key overview
      = map (fun kv => View.mkBar (fst kv) (snd kv)) fs) /\
     (View.Chart_no_data (View.chart_data key overview) = true <-> fs = [])).
Proof.
  unfold View.chart_data. split.
  - intros ->. split; reflexivity.
  - intros fs ->. simpl. split; [| split].
    + apply Permutation_map, own_entries_Permutation.
    + intros H. rewrite (own_entries_plain_keys fs H). reflexivity.
    + unfold View.Chart_no_data. rewrite length_map.
      rewrite (Permutation_length (own_entries_Permutation fs)).
      rewrite Nat.eqb_eq. destruct fs; simpl; split; congruence.
Qed.

Lemma chart_bars_are_the_counts_witness :
  View.typeChartData
    (JObj [("n_commits", JNum 5);
           ("type_counts", JObj [("Full", JNum 3); ("Householder", JNum 2)])])
  = [View.mkBar "Full" (JNum 3); View.mkBar "Householder" (JNum 2)] /\
  View.Chart_no_data (View.decisionChartData JNull) = true.
Proof.
  split.
  - apply (proj2 (chart_bars_are_the_counts "type_counts"
                    (JObj [("n_commits", JNum 5);
                           ("type_counts",
                            JObj [("Full", JNum 3); ("Householder", JNum 2)])]))
             [("Full", JNum 3); ("Householder", JNum 2)] eq_refl).
    repeat constructor.
  - apply (proj1 (chart_bars_are_the_counts "decision_counts" JNull)).
    reflexivity.
Defined.

(** The line printed for a commit is its heading, whole, when it has one.
    Without a heading it is the beginning of the proposal text, at most 160
    characters of it, and the empty text when the proposal is missing or
    empty too. *)
Theorem headline_falls_back_to_proposal (c : jsval) :
  nullish c = false ->
  (truthy (get_opt c "heading") = true ->
   View.headline c = Normal (get_opt c "heading")) /\
  (truthy (get_opt c "heading") = false ->
   forall p, get_opt c "proposal" = JStr p ->
     exists shown rest,
       View.headline c = Normal (JStr shown) /\
       p = shown ++ rest /\ (String.length shown <= 160)%nat) /\
  (truthy (get_opt c "heading") = false ->
   truthy (get_opt c "proposal") = false ->
   View.headline c = Normal (JStr "")).
Proof.
  intros Hc. unfold View.headline.
  rewrite !(get_not_nullish _ _ Hc). simpl.
  split; [| split].
  - intros ->. reflexivity.
  - intros -> p ->. destruct (slice0_prefix 160 p) as (Hl & rest & Hr).
    unfold or_else. simpl.
    destruct p as [| a p]; simpl; [exists "", ""; auto with arith |].
    exists (slice0 160 (String a p)), rest. auto.
  - intros -> Hp. unfold or_else. rewrite Hp. reflexivity.
Qed.

Lemma headline_falls_back_to_proposal_witness :
  View.headline (JObj [("planning_reference", JStr "2024/0001");
                       ("proposal", JStr "Rear extension")])
  = Normal (JStr "Rear extension") /\
  View.headline (JObj [("planning_reference", JStr "2024/0002")])
  = Normal (JStr "").
Proof.
  destruct (headline_falls_back_to_proposal
              (JObj [("planning_reference", JStr "2024/0001");
                     ("proposal", JStr "Rear extension")]) eq_refl)
    as (_ & Hp & _).
  destruct (Hp eq_refl "Rear extension" eq_refl) as (shown & rest & Hh & _).
  split.
  - rewrite Hh. vm_compute in Hh. injection Hh as <-. reflexivity.
  - apply (proj2 (proj2 (headline_falls_back_to_proposal
                           (JObj [("planning_reference", JStr "2024/0002")])
                           eq_refl))); reflexivity.
Defined.

(** The insights panel and the next-actions panel are never blank: what
    they list is either the non-empty array of the overview, as it is, or
    the single placeholder line - also before any overview is loaded, when
    the overview is [null]. *)
Theorem list_panels_never_blank (key placeholder : string) (overview : jsval)
    (items : list jsval) :
  View.list_panel key placeholder overview = Normal items ->
  items <> [] /\
  (items = [JStr placeholder] \/ get_opt overview key = JArr items).
Proof.
  unfold View.list_panel.
  destruct (get_opt overview key) as [| | b | n | s | l | fs] eqn:Hk; simpl;
    try (intros [= <-]; split; [discriminate | auto]; fail).
  - destruct (negb (Z.of_nat (String.length s) =? 0)%Z);
      [discriminate | intros [= <-]; split; [discriminate | auto]].
  - destruct l as [| x l]; simpl.
    + intros [= <-]. split; [discriminate | auto].
    + replace (negb (Z.of_nat (S (length l)) =? 0)%Z) with true
        by (symmetry; apply negb_true_iff, Z.eqb_neq; lia).
      intros [= <-]. split; [discriminate | auto].
  - destruct (truthy (lookup_field "length" fs));
      [discriminate | intros [= <-]; split; [discriminate | auto]].
Qed.

Lemma list_panels_never_blank_witness :
  View.insights_panel JNull = Normal [JStr "No insights available yet."] /\
  [JStr "No insights available yet."] <> [] /\
  View.next_actions_panel
    (JObj [("next_actions", JArr [JStr "Check the appeal deadline."])])
  = Normal [JStr "Check the appeal deadline."].
Proof.
  split; [reflexivity |]. split; [| reflexivity].
  apply (list_panels_never_blank "insights" "No insights available yet." JNull).
  reflexivity.
Defined.


(** ** The page as the user sees it *)

(** *** What a render depends on *)

Lemma place_all_app (l1 l2 : list Screen.Slot) :
  Screen.place_all (l1 ++ l2) = Normal tt <->
  Screen.place_all l1 = Normal tt /\ Screen.place_all l2 = Normal tt.
Proof.
  induction l1 as [| x l1 IH]; simpl; [tauto |].
  destruct (Screen.place x) as [[] | e]; simpl; [exact IH |].
  split; [discriminate | intros [H _]; discriminate H].
Qed.

Lemma paint_normal (piece : Completion (list Screen.Slot)) :
  Screen.paint piece = Normal tt <->
  exists slots, piece = Normal slots /\ Screen.place_all slots = Normal tt.
Proof.
  unfold Screen.paint. destruct piece as [slots | e]; simpl; split.
  - eauto.
  - intros (slots' & [= <-] & H). exact H.
  - discriminate.
  - intros (slots' & [=] & _).
Qed.

Lemma completion_unit (c : Completion unit) :
  c = Normal tt \/ exists e, c = Throw e.
Proof. destruct c as [[] | e]; eauto. Qed.

Lemma paint_each {A} (f : A -> Completion (list Screen.Slot)) (l : list A) :
  Screen.paint (Screen.each f l) = Normal tt <->
  Forall (fun x => Screen.paint (f x) = Normal tt) l.
Proof.
  induction l as [| x l IH].
  - split; [constructor | reflexivity].
  - rewrite Forall_cons, <- IH. clear IH.
    unfold Screen.each, Screen.paint. simpl.
    destruct (f x) as [y | e]; simpl;
      [| split; [discriminate | intros [H _]; discriminate H]].
    destruct (mapM f l) as [ys | e]; simpl;
      [| split; [discriminate | intros [_ H]; discriminate H]].
    apply place_all_app.
Qed.

Lemma displays_parts (s : State) :
  Screen.displays s <->
  Screen.list_displays (bundles s) /\
  Screen.selection_displays (selected s) /\
  Screen.overview_displays (overview s) /\
  Screen.history_displays (commits s) /\
  Screen.transcript_displays (chat s).
Proof.
  unfold Screen.displays, Screen.render, Screen.screen, Screen.list_displays,
    Screen.selection_displays, Screen.overview_displays,
    Screen.history_displays, Screen.transcript_displays.
  rewrite !paint_normal.
  destruct (Screen.each Screen.bundle_button (bundles s)) as [side | e]; simpl;
    [| split; [intros (? & [=] & _) | intros ((? & [=] & _) & _)]].
  destruct (Screen.overview_panels (overview s)) as [panels | e]; simpl;
    [| split; [intros (? & [=] & _) | intros (_ & _ & (? & [=] & _) & _)]].
  destruct (Screen.feed (commits s)) as [history | e]; simpl;
    [| split; [intros (? & [=] & _) | intros (_ & _ & _ & (? & [=] & _) & _)]].
  destruct (Screen.each Screen.turn_bubble (chat s)) as [talk | e]; simpl;
    [| split; [intros (? & [=] & _) | intros (_ & _ & _ & _ & (? & [=] & _))]].
  split.
  - intros (slots & [= <-] & H).
    apply place_all_app in H. destruct H as (H1 & H).
    cbn [Screen.place_all] in H.
    destruct (Screen.place (Screen.title (selected s))) as [[] | e] eqn:Ht;
      [| discriminate H].
    change (Screen.place_all (panels ++ history ++ talk) = Normal tt) in H.
    rewrite !place_all_app in H. destruct H as (H2 & H3 & H4).
    split; [eauto |]. split; [exact Ht |]. eauto 10.
  - intros ((x1 & E1 & P1) & Ht & (x2 & E2 & P2) & (x3 & E3 & P3)
            & (x4 & E4 & P4)).
    injection E1 as <-. injection E2 as <-. injection E3 as <-.
    injection E4 as <-.
    eexists. split; [reflexivity |].
    apply place_all_app. split; [exact P1 |].
    change (Screen.place (Screen.title (selected s)) = Normal tt) in Ht.
    cbn [Screen.place_all]. rewrite Ht.
    change (Screen.place_all (panels ++ history ++ talk) = Normal tt).
    rewrite !place_all_app. auto.
Qed.

Lemma render_run_effects (b1 b2 : bool) (w : World) :
  Screen.render (state (run_effects b1 b2 w)) = Screen.render (state w).
Proof.
  destruct (run_effects_frame b1 b2 w)
    as (_ & _ & _ & Hb & Hs & Hc & Ho & _ & Hch & _).
  unfold Screen.render, Screen.screen. rewrite Hb, Hs, Hc, Ho, Hch. reflexivity.
Qed.

(** *** The transition with its render *)

Lemma update_of_step (w w' : World) (ev : Event) :
  step w ev = Normal w' -> Screen.displays (state w') ->
  Screen.update w ev = Normal w'.
Proof.
  unfold step, Screen.update, Screen.displays.
  destruct (handle ev w) as [w1 | e]; simpl; [| discriminate].
  intros [= <-]. rewrite render_run_effects. intros ->. reflexivity.
Qed.

Lemma update_torn (w w' : World) (ev : Event) (e : JsError) :
  step w ev = Normal w' -> Screen.render (state w') = Throw e ->
  Screen.update w ev = Throw e.
Proof.
  unfold step, Screen.update.
  destruct (handle ev w) as [w1 | e1]; simpl; [| discriminate].
  intros [= <-]. rewrite render_run_effects. intros ->. reflexivity.
Qed.

Lemma update_step (w w' : World) (ev : Event) :
  Screen.update w ev = Normal w' ->
  step w ev = Normal w' /\ Screen.displays (state w').
Proof.
  unfold step, Screen.update, Screen.displays.
  destruct (handle ev w) as [w1 | e]; simpl; [| discriminate].
  destruct (Screen.render (state w1)) as [[] | e] eqn:Hr; simpl; [| discriminate].
  intros [= <-]. rewrite render_run_effects. auto.
Qed.

Lemma update_cases (w w' : World) (ev : Event) :
  step w ev = Normal w' ->
  (Screen.displays (state w') /\ Screen.update w ev = Normal w') \/
  (~ Screen.displays (state w') /\ exists e, Screen.update w ev = Throw e).
Proof.
  intros Hs. destruct (completion_unit (Screen.render (state w'))) as [H | (e & H)].
  - left. split; [exact H | apply update_of_step; assumption].
  - right. split; [unfold Screen.displays; congruence |].
    exists e. eapply update_torn; eauto.
Qed.

(** *** Parts that always display *)

Lemma history_displays_empty : Screen.history_displays (JArr []).
Proof. reflexivity. Qed.

Lemma overview_displays_null : Screen.overview_displays JNull.
Proof. reflexivity. Qed.

Lemma turn_displays_user (t : string) : Screen.turn_displays (user_turn t).
Proof. reflexivity. Qed.

Lemma turn_displays_fallback : Screen.turn_displays fallback_turn.
Proof. reflexivity. Qed.

Lemma turn_displays_intro : Screen.turn_displays intro_turn.
Proof. reflexivity. Qed.

Lemma transcript_displays_app (c : list ChatMsg) (m : ChatMsg) :
  Screen.transcript_displays (c ++ [m]) <->
  Screen.transcript_displays c /\ Screen.turn_displays m.
Proof.
  unfold Screen.transcript_displays, Screen.turn_displays.
  rewrite !paint_each, Forall_app, Forall_singleton. reflexivity.
Qed.

Lemma transcript_displays_intro : Screen.transcript_displays [intro_turn].
Proof. reflexivity. Qed.

Lemma displays_detail_success (s : State) (cs ov : jsval) :
  Screen.displays s ->
  Screen.history_displays cs -> Screen.overview_displays ov ->
  Screen.displays
    (setQuestion ""
       (setChat (fun _ => [intro_turn]) (setOverview ov (setCommits cs s)))).
Proof.
  intros Hd Hh Ho. apply displays_parts in Hd.
  destruct Hd as (D1 & D2 & _ & _ & _).
  apply displays_parts. simpl.
  auto using transcript_displays_intro.
Qed.

Lemma displays_detail_failure (s : State) (e : option string) :
  Screen.displays s ->
  Screen.displays (setOverview JNull (setCommits (JArr []) (setErr e s))).
Proof.
  intros Hd. apply displays_parts in Hd.
  destruct Hd as (D1 & D2 & _ & _ & D5).
  apply displays_parts. simpl.
  auto using history_displays_empty, overview_displays_null.
Qed.

Lemma displays_ask (sel : jsval) (t : string) (s : State) :
  Screen.displays s -> Screen.displays (fst (ask sel t s)).
Proof.
  intros Hd. unfold ask. destruct (negb (truthy sel)); [exact Hd |].
  apply displays_parts in Hd. destruct Hd as (D1 & D2 & D3 & D4 & D5).
  apply displays_parts. simpl.
  rewrite transcript_displays_app. auto 10 using turn_displays_user.
Qed.

(** *** Asking and being answered, on the page *)

Lemma update_call_ask (w : World) (t : string) :
  truthy (selected (state w)) = true ->
  Screen.displays (state w) ->
  Screen.update w (CallAsk t) =
    Normal (mkWorld
              (setChat (fun c => (c ++ [user_turn t])%list)
                 (setErr None (setLoading true (state w))))
              (inflight w ++ [PChat (selected (state w)) t])%list).
Proof.
  intros Hsel Hd. apply update_of_step; [apply step_call_ask; exact Hsel |].
  pose proof (displays_ask (selected (state w)) t (state w) Hd) as H.
  unfold ask in H. rewrite Hsel in H. exact H.
Qed.

Lemma update_settle_chat_reply (w : World) (i : nat) (sel : jsval) (t : string)
    (f : FetchResult) (m : ChatMsg) :
  inflight w !! i = Some (PChat sel t) ->
  reply_of f = Normal m ->
  Screen.displays (state w) ->
  Screen.turn_displays m ->
  exists w',
    Screen.update w (Settle i (One f)) = Normal w' /\
    chat (state w') = (chat (state w) ++ [m])%list /\
    loading (state w') = false /\
    selected (state w') = selected (state w) /\
    commits (state w') = commits (state w) /\
    overview (state w') = overview (state w) /\
    inflight w' = delete i (inflight w) /\
    Screen.displays (state w').
Proof.
  intros Hi Hm Hd Ht.
  assert (Hr : exists s', ask_resume f (state w) = Normal s').
  { unfold ask_resume, reply_of in *. destruct (chat_exchange f); [| eauto].
    rewrite Hm. simpl. eauto. }
  destruct Hr as (s' & Hr).
  pose proof (step_settle_chat _ _ _ _ _ _ Hi Hr) as Hs.
  apply ask_resume_chat in Hr. destruct Hr as (m' & Hm' & ->).
  rewrite Hm in Hm'. injection Hm' as <-.
  set (s0 := match chat_exchange f with
             | Normal _ => state w
             | Throw e => setErr (Some ("Chat failed: " ++ error_reason e)) (state w)
             end) in *.
  assert (H0 : bundles s0 = bundles (state w) /\ selected s0 = selected (state w)
               /\ overview s0 = overview (state w)
               /\ commits s0 = commits (state w) /\ chat s0 = chat (state w))
    by (subst s0; destruct (chat_exchange f); simpl; auto).
  destruct H0 as (Eb & Es & Eo & Ec & Ech).
  assert (Hd' : Screen.displays
                  (setLoading false (setChat (fun c => (c ++ [m])%list) s0))).
  { apply displays_parts in Hd. destruct Hd as (D1 & D2 & D3 & D4 & D5).
    apply displays_parts. simpl. rewrite Eb, Es, Eo, Ec, Ech.
    rewrite transcript_displays_app. auto 10. }
  eexists. split; [apply update_of_step; [exact Hs | exact Hd'] |].
  simpl. rewrite Es, Eo, Ec, Ech. auto 10.
Qed.

Lemma reply_of_failure (f : FetchResult) (reason : string) :
  ChatFailure f reason -> reply_of f = Normal fallback_turn.
Proof.
  intros Hf. destruct (chat_failure_throws _ _ Hf) as (e & He & _).
  unfold reply_of. rewrite He. reflexivity.
Qed.

Lemma reply_of_success (r : Response) (data : jsval) :
  ok r = true -> json_body r = Normal data -> nullish data = false ->
  reply_of (Fulfilled r) =
    Normal (mkMsg Assistant
              (or_else (get_opt data "answer") (JStr "No answer returned."))
              (or_else (get_opt data "citations") (JArr []))).
Proof.
  intros Hok Hj Hn. unfold reply_of, chat_exchange. simpl. rewrite Hok, Hj.
  apply assistant_turn_normal. exact Hn.
Qed.

(** *** Which events keep the turns of the transcript *)

Lemma Handles_chat_extends (w w1 : World) (ev : Event) :
  Handles w ev w1 -> ~ settles_detail ev ->
  exists added, chat (state w1) = (chat (state w) ++ added)%list.
Proof.
  intros Hh Hev.
  assert (Hsame : forall c : list ChatMsg, exists added, c = (c ++ added)%list)
    by (intros c; exists []; rewrite app_nil_r; reflexivity).
  destruct Hh; simpl; auto; try (rewrite ask_chat; eauto).
  - destruct (bundles_resume_frame sel f (state w)) as (_ & _ & _ & -> & _). auto.
  - exfalso. apply Hev. exact I.
  - match goal with H : ask_resume _ _ = Normal _ |- _ =>
      apply ask_resume_chat in H; destruct H as (m & _ & ->) end.
    simpl. destruct (chat_exchange f); simpl; eauto.
  - destruct (speak_resume_cases f (state w)) as [-> | (e & ->)]; auto.
Qed.

Lemma updates_chat_extends (evs : list Event) (w w' : World) :
  Forall (fun ev => ~ settles_detail ev) evs ->
  Screen.updates w evs = Normal w' ->
  exists added, chat (state w') = (chat (state w) ++ added)%list.
Proof.
  intros Hevs. revert w. induction Hevs as [| ev evs Hev _ IH]; intros w; simpl.
  - intros [= <-]. exists []. rewrite app_nil_r. reflexivity.
  - destruct (Screen.update w ev) as [w1 | e] eqn:Hu; simpl; [| discriminate].
    intros Hrest. destruct (IH _ Hrest) as (added2 & H2).
    apply update_step in Hu. destruct Hu as (Hs & _).
    destruct (step_Handles _ _ _ Hs) as (w0 & b1 & b2 & Hh & ->).
    destruct (run_effects_frame b1 b2 w0)
      as (_ & _ & _ & _ & _ & _ & _ & _ & Hc & _).
    destruct (Handles_chat_extends _ _ _ Hh Hev) as (added1 & H1).
    exists (added1 ++ added2)%list.
    rewrite H2, Hc, H1, <- app_assoc. reflexivity.
Qed.

(** C4, as the code has it. [ask(text)] whose [selected] is truthy appends
    the user turn carrying exactly [text] in its synchronous part, the part
    that issues the request - also when it is called from an older render,
    as the voice input does.  On the page, with [ask] called from the
    current render: the turn is there once the call returns and the request
    is in flight; when the request fails the fallback turn is appended after
    it; when the request succeeds with a body that is not [null] and a reply
    the page can display, the assistant turn is appended after it; and
    through any later events, however many, the turn stays where it is as
    long as no detail load settles among them. *)
Theorem ask_appends_user_turn (sel : jsval) (t : string) :
  truthy sel = true ->
  (forall s,
     exists s1,
       ask sel t s = (s1, Some (PChat sel t)) /\
       chat s1 = (chat s ++ [mkMsg User (JStr t) JUndefined])%list) /\
  (forall w,
     selected (state w) = sel ->
     Screen.displays (state w) ->
     exists w1,
       Screen.update w (CallAsk t) = Normal w1 /\
       chat (state w1)
       = (chat (state w) ++ [mkMsg User (JStr t) JUndefined])%list /\
       inflight w1 = (inflight w ++ [PChat sel t])%list /\
       (forall f reason,
          ChatFailure f reason ->
          exists w2,
            Screen.update w1 (Settle (length (inflight w)) (One f)) = Normal w2 /\
            chat (state w2) =
              (chat (state w) ++
                 [mkMsg User (JStr t) JUndefined;
                  mkMsg Assistant (JStr fallback_text) (JArr [])])%list) /\
       (forall r data,
          ok r = true -> json_body r = Normal data -> nullish data = false ->
          Screen.turn_displays
            (mkMsg Assistant
               (or_else (get_opt data "answer") (JStr "No answer returned."))
               (or_else (get_opt data "citations") (JArr []))) ->
          exists w2,
            Screen.update w1 (Settle (length (inflight w)) (One (Fulfilled r)))
              = Normal w2 /\
            chat (state w2) =
              (chat (state w) ++
                 [mkMsg User (JStr t) JUndefined;
                  mkMsg Assistant
                    (or_else (get_opt data "answer") (JStr "No answer returned."))
                    (or_else (get_opt data "citations") (JArr []))])%list) /\
       (forall evs w2,
          Forall (fun ev => ~ settles_detail ev) evs ->
          Screen.updates w1 evs = Normal w2 ->
          exists later,
            chat (state w2) =
              (chat (state w) ++ mkMsg User (JStr t) JUndefined :: later)%list)).
Proof.
  intros Hsel. split.
  - intros s. eexists. split; [unfold ask; rewrite Hsel; reflexivity |].
    reflexivity.
  - intros w <- Hd. eexists.
    split; [apply update_call_ask; assumption |].
    split; [reflexivity |]. split; [reflexivity |].
    set (w1 := mkWorld _ _).
    assert (Hi : inflight w1 !! length (inflight w)
                 = Some (PChat (selected (state w)) t))
      by apply lookup_last_added.
    assert (Hd1 : Screen.displays (state w1)).
    { pose proof (displays_ask (selected (state w)) t (state w) Hd) as H.
      unfold ask in H. rewrite Hsel in H. exact H. }
    split; [| split].
    + intros f reason Hf.
      destruct (update_settle_chat_reply w1 _ _ _ f fallback_turn Hi
                  (reply_of_failure _ _ Hf) Hd1 turn_displays_fallback)
        as (w2 & Hu & Hc & _).
      exists w2. split; [exact Hu |]. rewrite Hc. subst w1. simpl.
      rewrite <- app_assoc. reflexivity.
    + intros r data Hok Hj Hn Ht.
      destruct (update_settle_chat_reply w1 _ _ _ (Fulfilled r) _ Hi
                  (reply_of_success _ _ Hok Hj Hn) Hd1 Ht)
        as (w2 & Hu & Hc & _).
      exists w2. split; [exact Hu |]. rewrite Hc. subst w1. simpl.
      rewrite <- app_assoc. reflexivity.
    + intros evs w2 Hevs Hrun.
      destruct (updates_chat_extends _ _ _ Hevs Hrun) as (added & Hc).
      exists added. rewrite Hc. subst w1. simpl.
      rewrite <- app_assoc. reflexivity.
Qed.

Lemma ask_appends_user_turn_witness :
  exists w1 w2 w3,
    Screen.update (Sample.selecting "b1") (CallAsk "hello") = Normal w1 /\
    chat (state w1) = [mkMsg User (JStr "hello") JUndefined] /\
    inflight w1 = [PChat (JStr "b1") "hello"] /\
    Screen.update w1 (Settle 0 (One (Rejected Sample.network_down))) = Normal w2 /\
    chat (state w2) =
      [mkMsg User (JStr "hello") JUndefined;
       mkMsg Assistant (JStr fallback_text) (JArr [])] /\
    Screen.update w1
      (Settle 0 (One (Fulfilled (Sample.json_ok (Sample.answer [Sample.citation "1"])))))
      = Normal w3 /\
    chat (state w3) =
      [mkMsg User (JStr "hello") JUndefined;
       mkMsg Assistant (JStr "Two applications were approved.")
         (JArr [Sample.citation "1"])].
Proof.
  destruct (ask_appends_user_turn (JStr "b1") "hello" eq_refl) as (_ & Hw).
  destruct (Hw (Sample.selecting "b1") eq_refl eq_refl)
    as (w1 & H1 & H2 & H3 & Hfail & Hok & _).
  destruct (Hfail (Rejected Sample.network_down) "Failed to fetch"
              (chat_network_error Sample.network_down)) as (w2 & H4 & H5).
  destruct (Hok (Sample.json_ok (Sample.answer [Sample.citation "1"]))
              (Sample.answer [Sample.citation "1"]) eq_refl eq_refl eq_refl
              eq_refl) as (w3 & H6 & H7).
  exists w1, w2, w3. auto 10.
Defined.

(** C4 as stated fails.  The turn does not outlive every outcome: with the
    detail load of [b1] still in flight a question is asked; the detail load
    then succeeds and resets the transcript, so the user turn is gone while
    the chat request has not returned, and it is still gone when the answer
    arrives.  And a 2xx reply whose body is [null] takes the whole page
    down. *)
Lemma ask_turn_counterexample :
  (exists w1 w2 w3,
     Screen.updates Page.mount
       [Settle 0 (One (Fulfilled (Sample.json_ok (JArr [Sample.bundle "b1"]))));
        CallAsk "What changed?"] = Normal w1 /\
     selected (state w1) = JStr "b1" /\
     chat (state w1) = [user_turn "What changed?"] /\
     inflight w1 = [PDetail (JStr "b1"); PChat (JStr "b1") "What changed?"] /\
     Screen.update w1 (Settle 0 (All (Sample.detail_ok "b1"))) = Normal w2 /\
     inflight w2 = [PChat (JStr "b1") "What changed?"] /\
     chat (state w2) = [intro_turn] /\
     ~ In (user_turn "What changed?") (chat (state w2)) /\
     Screen.update w2 (Settle 0 (One (Fulfilled (Sample.json_ok (Sample.answer [])))))
       = Normal w3 /\
     ~ In (user_turn "What changed?") (chat (state w3))) /\
  (exists w1 e,
     Screen.update (Sample.selecting "b1") (CallAsk "hello") = Normal w1 /\
     Screen.update w1 (Settle 0 (One (Fulfilled (Sample.json_ok JNull))))
       = Throw e).
Proof.
  split.
  - eexists. eexists. eexists.
    split; [vm_compute; reflexivity |]. split; [reflexivity |].
    split; [reflexivity |]. split; [reflexivity |].
    split; [vm_compute; reflexivity |]. split; [reflexivity |].
    split; [reflexivity |].
    split; [simpl; intros [H | []]; discriminate H |].
    split; [vm_compute; reflexivity |].
    simpl. intros [H | [H | []]]; discriminate H.
  - eexists. eexists. split; [vm_compute; reflexivity |].
    vm_compute. reflexivity.
Qed.

(** *** Detail loads, on the page *)

Lemma update_detail_success (w : World) (i : nat) (sel : jsval)
    (a : AllResult) (cs ov : jsval) :
  inflight w !! i = Some (PDetail sel) ->
  DetailSuccess a cs ov ->
  Screen.displays (state w) ->
  let s' := setQuestion ""
              (setChat (fun _ => [intro_turn])
                 (setOverview ov (setCommits (or_else cs (JArr [])) (state w)))) in
  (Screen.history_displays (or_else cs (JArr [])) ->
   Screen.overview_displays ov ->
   Screen.update w (Settle i (All a)) = Normal (mkWorld s' (delete i (inflight w)))) /\
  (~ (Screen.history_displays (or_else cs (JArr [])) /\
      Screen.overview_displays ov) ->
   exists e, Screen.update w (Settle i (All a)) = Throw e).
Proof.
  intros Hi Hs Hd s'.
  pose proof (step_settle_detail _ _ _ a Hi) as Hstep.
  rewrite (detail_success_applies _ _ _ _ Hs) in Hstep. fold s' in Hstep.
  split.
  - intros Hh Ho. apply update_of_step; [exact Hstep |].
    apply displays_detail_success; assumption.
  - intros Hn. destruct (update_cases _ _ _ Hstep) as [[Hd' _] | [_ He]];
      [| exact He].
    exfalso. apply Hn. apply displays_parts in Hd'. simpl in Hd'. tauto.
Qed.

Lemma update_detail_failure (w : World) (i : nat) (sel : jsval)
    (a : AllResult) (which : Resource) (reason : string) :
  inflight w !! i = Some (PDetail sel) ->
  DetailFailure a which reason ->
  Screen.displays (state w) ->
  Screen.update w (Settle i (All a)) =
    Normal (mkWorld
              (setOverview JNull
                 (setCommits (JArr [])
                    (setErr (Some ("Failed to load repo: " ++ reason)) (state w))))
              (delete i (inflight w))).
Proof.
  intros Hi Hf Hd.
  pose proof (step_settle_detail _ _ _ a Hi) as Hstep.
  rewrite (detail_failure_clears _ _ _ _ Hf) in Hstep.
  apply update_of_step; [exact Hstep |].
  apply displays_detail_failure. exact Hd.
Qed.

(** C1, as the code has it. The continuation of the detail loader reads no
    [selected]: a jointly successful pair of responses is applied when it
    arrives, whatever the selection is by then.  When the page can display
    the history and the overview of the pair, they become what it shows, the
    transcript and the question input are reset, and the selection itself
    stays what it is; when it cannot, the render throws and the page is
    gone. *)
Theorem detail_response_applied_whatever_selection (w : World) (i : nat)
    (A : jsval) (a : AllResult) (cs ov : jsval) :
  inflight w !! i = Some (PDetail A) ->
  DetailSuccess a cs ov ->
  Screen.displays (state w) ->
  (Screen.history_displays (or_else cs (JArr [])) ->
   Screen.overview_displays ov ->
   exists w',
     Screen.update w (Settle i (All a)) = Normal w' /\
     commits (state w') = or_else cs (JArr []) /\
     overview (state w') = ov /\
     selected (state w') = selected (state w) /\
     chat (state w') = [intro_turn] /\
     question (state w') = "" /\
     inflight w' = delete i (inflight w)) /\
  (~ (Screen.history_displays (or_else cs (JArr [])) /\
      Screen.overview_displays ov) ->
   exists e, Screen.update w (Settle i (All a)) = Throw e).
Proof.
  intros Hi Hs Hd.
  destruct (update_detail_success w i A a cs ov Hi Hs Hd) as (Hok & Hbad).
  split; [| exact Hbad].
  intros Hh Ho. eexists. split; [apply Hok; assumption |].
  simpl. auto 10.
Qed.

Lemma detail_response_applied_whatever_selection_witness :
  exists w w',
    Screen.updates Page.mount Sample.stale_trace = Normal w /\
    selected (state w) = JStr "b2" /\
    inflight w = [PDetail (JStr "b1")] /\
    Screen.update w (Settle 0 (All (Sample.detail_ok "b1"))) = Normal w' /\
    commits (state w') = get_opt (Sample.repo_of "b1") "commits" /\
    overview (state w') = Sample.overview_of "b1" /\
    selected (state w') = JStr "b2".
Proof.
  eexists.
  destruct (detail_response_applied_whatever_selection
              (mkWorld
                 (setOverview (Sample.overview_of "b2")
                    (setCommits (get_opt (Sample.repo_of "b2") "commits")
                       (setChat (fun _ => [intro_turn])
                          (setSelected (JStr "b2")
                             (setBundles [Sample.bundle "b1"; Sample.bundle "b2"]
                                initial)))))
                 [PDetail (JStr "b1")])
              0 (JStr "b1") (Sample.detail_ok "b1")
              (get_opt (Sample.repo_of "b1") "commits")
              (Sample.overview_of "b1") eq_refl)
    as (Hok & _).
  { exists (Sample.json_ok (Sample.repo_of "b1")),
      (Sample.json_ok (Sample.overview_of "b1")), (Sample.repo_of "b1").
    repeat split; reflexivity. }
  { reflexivity. }
  destruct (Hok eq_refl eq_refl) as (w' & H1 & H2 & H3 & H4 & _).
  exists w'. split; [vm_compute; reflexivity |].
  split; [reflexivity |]. split; [reflexivity |]. auto.
Defined.

(** C5, as the code has it. Picking another bundle changes the selection
    and nothing of the transcript or of the question input.  Both are reset
    - the transcript to the single introductory assistant turn, the input to
    the empty string - when a detail load completes with joint success (and
    the page can display what it brought), and neither is touched when a
    detail load fails. *)
Theorem transcript_reset_on_detail_success (w : World) :
  Screen.displays (state w) ->
  (forall i b Y,
     bundles (state w) !! i = Some b ->
     get b "site_bundle_id" = Normal Y ->
     Screen.selection_displays Y ->
     exists w',
       Screen.update w (ClickBundle i) = Normal w' /\
       selected (state w') = Y /\
       chat (state w') = chat (state w) /\
       question (state w') = question (state w)) /\
  (forall i sel a cs ov,
     inflight w !! i = Some (PDetail sel) ->
     DetailSuccess a cs ov ->
     Screen.history_displays (or_else cs (JArr [])) ->
     Screen.overview_displays ov ->
     exists w',
       Screen.update w (Settle i (All a)) = Normal w' /\
       chat (state w') = [mkMsg Assistant (JStr intro_text) JUndefined] /\
       question (state w') = "") /\
  (forall i sel a which reason,
     inflight w !! i = Some (PDetail sel) ->
     DetailFailure a which reason ->
     exists w',
       Screen.update w (Settle i (All a)) = Normal w' /\
       chat (state w') = chat (state w) /\
       question (state w') = question (state w)).
Proof.
  intros Hd. split; [| split].
  - intros i b Y Hb HY HdY.
    assert (Hstep : step w (ClickBundle i) =
                    Normal (run_effects false
                              (detail_deps_changed (state w)
                                 (setSelected Y (state w)))
                              (mkWorld (setSelected Y (state w)) (inflight w)))).
    { erewrite step_unfold by (unfold handle; rewrite Hb, HY; reflexivity).
      rewrite bundles_deps_same by reflexivity. reflexivity. }
    eexists. split.
    + apply update_of_step; [exact Hstep |].
      unfold Screen.displays. rewrite render_run_effects.
      apply displays_parts in Hd. destruct Hd as (D1 & _ & D3 & D4 & D5).
      apply displays_parts. simpl. auto.
    + match goal with |- context [run_effects false ?f ?x] =>
        destruct (run_effects_detail_frame f x) as (_ & -> & _ & _ & -> & ->) end.
      auto.
  - intros i sel a cs ov Hi Hs Hh Ho.
    destruct (update_detail_success w i sel a cs ov Hi Hs Hd) as (Hok & _).
    eexists. split; [apply Hok; assumption |]. auto.
  - intros i sel a which reason Hi Hf. eexists.
    split; [apply (update_detail_failure _ _ _ _ _ _ Hi Hf Hd) |]. auto.
Qed.

Lemma transcript_reset_on_detail_success_witness :
  (exists w',
     Screen.update Sample.talking (ClickBundle 1) = Normal w' /\
     selected (state w') = JStr "b2" /\
     chat (state w') = [intro_turn; user_turn "What changed?"] /\
     question (state w') = "draft") /\
  (exists w',
     Screen.update Sample.talking (Settle 0 (All (Sample.detail_ok "b1")))
       = Normal w' /\
     chat (state w') = [intro_turn] /\
     question (state w') = "") /\
  (exists w',
     Screen.update Sample.talking
       (Settle 0 (All (FirstRejected Repo Sample.network_down))) = Normal w' /\
     chat (state w') = [intro_turn; user_turn "What changed?"] /\
     question (state w') = "draft").
Proof.
  destruct (transcript_reset_on_detail_success Sample.talking eq_refl)
    as (Hclick & Hok & Hfail).
  split; [| split].
  - apply (Hclick 1%nat (Sample.bundle "b2") (JStr "b2")); reflexivity.
  - apply (Hok 0%nat (JStr "b1") (Sample.detail_ok "b1")
             (get_opt (Sample.repo_of "b1") "commits")
             (Sample.overview_of "b1")); try reflexivity.
    exists (Sample.json_ok (Sample.repo_of "b1")),
      (Sample.json_ok (Sample.overview_of "b1")), (Sample.repo_of "b1").
    repeat split; reflexivity.
  - apply (Hfail 0%nat (JStr "b1") (FirstRejected Repo Sample.network_down)
             Repo "Failed to fetch"); [reflexivity |].
    exact (detail_network_error Repo Sample.network_down).
Defined.

(** A detail load settles in one of three ways and no fourth.  Both
    statuses are fine, both bodies parse, the repo body is not [null] and
    the page can display what came: history and overview are both replaced
    by that reply.  The same, but the page cannot display it: the render
    throws and the page is gone.  Anything else: both are cleared and the
    error slot tells why.  The page never shows the history of one reply
    beside the overview of another. *)
Theorem detail_settles_all_or_nothing (w : World) (i : nat) (sel : jsval)
    (a : AllResult) :
  inflight w !! i = Some (PDetail sel) ->
  Screen.displays (state w) ->
  (exists w',
     Screen.update w (Settle i (All a)) = Normal w' /\
     ((exists cs ov,
         DetailSuccess a cs ov /\
         commits (state w') = or_else cs (JArr []) /\
         overview (state w') = ov /\
         err (state w') = err (state w)) \/
      (exists e,
         commits (state w') = JArr [] /\
         overview (state w') = JNull /\
         err (state w') = Some ("Failed to load repo: " ++ error_reason e)))) \/
  (exists e cs ov,
     Screen.update w (Settle i (All a)) = Throw e /\
     DetailSuccess a cs ov /\
     ~ (Screen.history_displays (or_else cs (JArr [])) /\
        Screen.overview_displays ov)).
Proof.
  intros Hi Hd.
  pose proof (step_settle_detail _ _ _ a Hi) as Hstep.
  destruct (detail_resume_all_or_nothing a (state w))
    as [(cs & ov & Hs & Hr) | (e & Hr)].
  - destruct (update_detail_success w i sel a cs ov Hi Hs Hd) as (Hok & Hbad).
    rewrite Hr in Hstep.
    destruct (update_cases _ _ _ Hstep) as [[Hd' Hu] | [Hd' _]].
    + left. eexists. split; [exact Hu |]. left. exists cs, ov. simpl. auto.
    + assert (Hn : ~ (Screen.history_displays (or_else cs (JArr [])) /\
                      Screen.overview_displays ov)).
      { intros [Hh Ho]. apply Hd'. simpl.
        apply displays_detail_success; assumption. }
      destruct (Hbad Hn) as (e & He). right. exists e, cs, ov. auto.
  - left. rewrite Hr in Hstep. eexists. split.
    + apply update_of_step; [exact Hstep |]. simpl.
      apply displays_detail_failure. exact Hd.
    + right. exists e. simpl. auto.
Qed.

Lemma detail_settles_all_or_nothing_witness :
  (exists w',
     Screen.update Sample.talking
       (Settle 0 (All (AllFulfilled (Sample.json_ok JNull)
                         (Sample.json_ok (Sample.overview_of "b1")))))
       = Normal w' /\
     commits (state w') = JArr [] /\
     overview (state w') = JNull /\
     err (state w')
     = Some "Failed to load repo: Cannot read properties of null (reading 'commits')") /\
  (exists e,
     Screen.update Sample.talking
       (Settle 0 (All (AllFulfilled
                         (Sample.json_ok (JObj [("commits", JArr [JNull])]))
                         (Sample.json_ok (Sample.overview_of "b1")))))
     = Throw e).
Proof.
  split.
  - destruct (detail_settles_all_or_nothing Sample.talking 0 (JStr "b1")
                (AllFulfilled (Sample.json_ok JNull)
                   (Sample.json_ok (Sample.overview_of "b1"))) eq_refl eq_refl)
      as [(w' & Hu & _) | (e & cs & ov & Hu & _)].
    + exists w'. split; [exact Hu |].
      vm_compute in Hu. injection Hu as <-. repeat split.
    + vm_compute in Hu. discriminate Hu.
  - destruct (detail_settles_all_or_nothing Sample.talking 0 (JStr "b1")
                (AllFulfilled
                   (Sample.json_ok (JObj [("commits", JArr [JNull])]))
                   (Sample.json_ok (Sample.overview_of "b1"))) eq_refl eq_refl)
      as [(w' & Hu & _) | (e & cs & ov & Hu & _)].
    + vm_compute in Hu. discriminate Hu.
    + exists e. exact Hu.
Defined.

(** *** List replies, on the page *)

Lemma update_settle_bundles (w : World) (i : nat) (sel : jsval)
    (u : BundlesQuery) (r : Response) (data : jsval) :
  inflight w !! i = Some (PBundles sel u) ->
  ok r = true -> json_body r = Normal data ->
  Screen.displays (state w) ->
  Screen.list_displays (match data with JArr l => l | _ => [] end) ->
  let s' := bundles_resume sel (Fulfilled r) (state w) in
  Screen.selection_displays (selected s') ->
  Screen.displays s' /\
  bundles s' = match data with JArr l => l | _ => [] end /\
  Screen.update w (Settle i (One (Fulfilled r))) =
    Normal (run_effects false (detail_deps_changed (state w) s')
              (mkWorld s' (delete i (inflight w)))).
Proof.
  intros Hi Hok Hj Hd Hl s' Hsel.
  pose proof (step_settle_bundles _ _ _ _ (Fulfilled r) Hi) as Hstep.
  cbv zeta in Hstep. fold s' in Hstep.
  destruct (bundles_resume_frame sel (Fulfilled r) (state w))
    as (Hc & Ho & _ & Hch & _). fold s' in Hc, Ho, Hch.
  assert (Hb : bundles s' = match data with JArr l => l | _ => [] end).
  { subst s'. rewrite (bundles_resume_success _ _ _ _ Hok Hj). cbv zeta.
    destruct (negb (truthy sel) && _); reflexivity. }
  assert (Hd' : Screen.displays s').
  { apply displays_parts in Hd. destruct Hd as (_ & _ & D3 & D4 & D5).
    apply displays_parts. rewrite Hb, Hc, Ho, Hch. auto. }
  split; [exact Hd' |]. split; [exact Hb |].
  apply update_of_step; [exact Hstep |].
  unfold Screen.displays. rewrite render_run_effects. exact Hd'.
Qed.

(** C3, as the code has it. The test [!selected] reads the selection of the
    render that issued the fetch.  A successful fetch issued while a
    selection existed, with a list the page can display, leaves the
    selection alone.  A successful fetch that is issued and completes with
    no selection, and whose reply is a non-empty array the page can display
    whose first entry has a truthy [site_bundle_id], makes that identifier
    the selection (and the detail load for it starts). *)
Theorem default_selection (w : World) (i : nat) (sel : jsval)
    (u : BundlesQuery) (r : Response) (data : jsval) :
  inflight w !! i = Some (PBundles sel u) ->
  ok r = true ->
  json_body r = Normal data ->
  Screen.displays (state w) ->
  Screen.list_displays (match data with JArr l => l | _ => [] end) ->
  (truthy sel = true ->
   exists w',
     Screen.update w (Settle i (One (Fulfilled r))) = Normal w' /\
     bundles (state w') = match data with JArr l => l | _ => [] end /\
     selected (state w') = selected (state w) /\
     inflight w' = delete i (inflight w)) /\
  (truthy sel = false -> truthy (selected (state w)) = false ->
   forall b rest, data = JArr (b :: rest) ->
     truthy (get_opt b "site_bundle_id") = true ->
     Screen.selection_displays (get_opt b "site_bundle_id") ->
     exists w',
       Screen.update w (Settle i (One (Fulfilled r))) = Normal w' /\
       bundles (state w') = b :: rest /\
       selected (state w') = get_opt b "site_bundle_id" /\
       inflight w' =
         (delete i (inflight w) ++ [PDetail (get_opt b "site_bundle_id")])%list).
Proof.
  intros Hi Hok Hj Hd Hl.
  pose proof (update_settle_bundles w i sel u r data Hi Hok Hj Hd Hl) as Hu.
  cbv zeta in Hu. rewrite (bundles_resume_success _ _ _ _ Hok Hj) in Hu.
  cbv zeta in Hu. split.
  - intros Hsel. rewrite Hsel in Hu. simpl in Hu.
    destruct Hu as (_ & _ & Hu).
    { apply displays_parts in Hd. tauto. }
    rewrite detail_deps_same in Hu by reflexivity.
    eexists. split; [exact Hu |]. auto.
  - intros Hsel Hcur b rest -> Hid Hdid.
    simpl index0_opt in Hu. rewrite Hsel, Hid in Hu. simpl in Hu.
    destruct Hu as (_ & _ & Hu); [exact Hdid |].
    unfold detail_deps_changed in Hu. simpl selected in Hu.
    rewrite (truthy_differs _ _ Hcur Hid) in Hu. simpl in Hu.
    unfold run_effects, detail_run in Hu. simpl in Hu. rewrite Hid in Hu.
    simpl in Hu.
    eexists. split; [exact Hu |]. auto.
Qed.

Lemma default_selection_witness :
  exists w',
    Screen.update Page.mount
      (Settle 0 (One (Fulfilled
         (Sample.json_ok (JArr [Sample.bundle "b1"; Sample.bundle "b2"])))))
      = Normal w' /\
    selected (state w') = JStr "b1" /\
    inflight w' = [PDetail (JStr "b1")].
Proof.
  destruct (default_selection Page.mount 0 JNull (bundles_url initial)
              (Sample.json_ok (JArr [Sample.bundle "b1"; Sample.bundle "b2"]))
              (JArr [Sample.bundle "b1"; Sample.bundle "b2"])
              eq_refl eq_refl eq_refl eq_refl eq_refl)
    as (_ & H3).
  destruct (H3 eq_refl eq_refl (Sample.bundle "b1") [Sample.bundle "b2"]
              eq_refl eq_refl eq_refl) as (w' & H1 & _ & H4 & H5).
  exists w'. auto.
Defined.

(** Two list requests in flight, both answered with arrays the page can
    display.  The list shown in the end is the one whose reply arrived
    last, also when that reply belongs to the request issued first: nothing
    orders replies by issue time, so an old filter's list can replace the
    list of the current filter. *)
Theorem older_list_reply_overwrites_newer (w : World) (i j : nat)
    (sel1 sel2 : jsval) (u1 u2 : BundlesQuery) (r1 r2 : Response)
    (l1 l2 : list jsval) :
  (i < j)%nat ->
  inflight w !! i = Some (PBundles sel1 u1) ->
  inflight w !! j = Some (PBundles sel2 u2) ->
  ok r1 = true -> json_body r1 = Normal (JArr l1) ->
  ok r2 = true -> json_body r2 = Normal (JArr l2) ->
  Screen.displays (state w) ->
  Screen.list_displays l1 -> Screen.list_displays l2 ->
  Screen.selection_displays (get_opt (index0_opt (JArr l1)) "site_bundle_id") ->
  Screen.selection_displays (get_opt (index0_opt (JArr l2)) "site_bundle_id") ->
  exists w1 w2,
    Screen.update w (Settle j (One (Fulfilled r2))) = Normal w1 /\
    bundles (state w1) = l2 /\
    Screen.update w1 (Settle i (One (Fulfilled r1))) = Normal w2 /\
    bundles (state w2) = l1.
Proof.
  intros Hij Hi Hj Hok1 Hj1 Hok2 Hj2 Hd Hl1 Hl2 Hs1 Hs2.
  assert (Hnew : forall sel r l s,
            ok r = true -> json_body r = Normal (JArr l) ->
            Screen.selection_displays (selected s) ->
            Screen.selection_displays
              (get_opt (index0_opt (JArr l)) "site_bundle_id") ->
            Screen.selection_displays
              (selected (bundles_resume sel (Fulfilled r) s))).
  { intros sel r l s Hok Hjs Hcur Hid.
    rewrite (bundles_resume_success _ _ _ _ Hok Hjs). cbv zeta.
    destruct (negb (truthy sel) && _); simpl; assumption. }
  assert (Hcur : Screen.selection_displays (selected (state w)))
    by (apply displays_parts in Hd; tauto).
  destruct (update_settle_bundles w j sel2 u2 r2 (JArr l2) Hj Hok2 Hj2 Hd Hl2
              (Hnew _ _ _ _ Hok2 Hj2 Hcur Hs2)) as (Hd1 & Hb1 & Hu1).
  match type of Hu1 with _ = Normal ?x => set (w1 := x) in * end.
  destruct (run_effects_detail_frame
              (detail_deps_changed (state w)
                 (bundles_resume sel2 (Fulfilled r2) (state w)))
              (mkWorld (bundles_resume sel2 (Fulfilled r2) (state w))
                 (delete j (inflight w))))
    as (Eb & Es & _).
  destruct (run_effects_detail_inflight
              (detail_deps_changed (state w)
                 (bundles_resume sel2 (Fulfilled r2) (state w)))
              (mkWorld (bundles_resume sel2 (Fulfilled r2) (state w))
                 (delete j (inflight w))))
    as (extra & Hin1).
  fold w1 in Eb, Es, Hin1. simpl in Eb, Es, Hin1.
  assert (Hdw1 : Screen.displays (state w1)).
  { unfold Screen.displays. subst w1. rewrite render_run_effects. exact Hd1. }
  assert (Hi' : inflight w1 !! i = Some (PBundles sel1 u1)).
  { rewrite Hin1. rewrite lookup_app_l.
    - rewrite list_lookup_delete_lt by exact Hij. exact Hi.
    - rewrite length_delete by eauto.
      apply lookup_lt_Some in Hj. lia. }
  assert (Hcur1 : Screen.selection_displays (selected (state w1)))
    by (apply displays_parts in Hdw1; tauto).
  destruct (update_settle_bundles w1 i sel1 u1 r1 (JArr l1) Hi' Hok1 Hj1 Hdw1 Hl1
              (Hnew _ _ _ _ Hok1 Hj1 Hcur1 Hs1)) as (_ & Hb2 & Hu2).
  eexists. eexists. split; [exact Hu1 |].
  split; [rewrite Eb; exact Hb1 |].
  split; [exact Hu2 |].
  match goal with |- context [run_effects false ?b ?x] =>
    destruct (run_effects_detail_frame b x) as (-> & _) end.
  exact Hb2.
Qed.

Lemma older_list_reply_overwrites_newer_witness :
  exists w1 w2,
    Screen.update
      (mkWorld (setQ "camden" initial)
         [PBundles JNull (mkQuery None None "5" "200");
          PBundles JNull (mkQuery None (Some "camden") "5" "200")])
      (Settle 1 (One (Fulfilled (Sample.json_ok (JArr [Sample.bundle "c1"])))))
      = Normal w1 /\
    bundles (state w1) = [Sample.bundle "c1"] /\
    Screen.update w1
      (Settle 0 (One (Fulfilled
         (Sample.json_ok (JArr [Sample.bundle "b1"; Sample.bundle "b2"])))))
      = Normal w2 /\
    bundles (state w2) = [Sample.bundle "b1"; Sample.bundle "b2"].
Proof.
  apply (older_list_reply_overwrites_newer
           (mkWorld (setQ "camden" initial)
              [PBundles JNull (mkQuery None None "5" "200");
               PBundles JNull (mkQuery None (Some "camden") "5" "200")])
           0 1 JNull JNull (mkQuery None None "5" "200")
           (mkQuery None (Some "camden") "5" "200")
           (Sample.json_ok (JArr [Sample.bundle "b1"; Sample.bundle "b2"]))
           (Sample.json_ok (JArr [Sample.bundle "c1"])));
    try reflexivity. lia.
Defined.

(** *** Answers, on the page *)

(** Two questions asked one after the other before any answer: both user
    turns are appended at once, in the order asked; the answers the page
    can display are appended in the order in which they arrive, so when the
    second is answered first the transcript reads question 1, question 2,
    answer 2, answer 1. *)
Theorem replies_in_arrival_order (w : World) (t1 t2 : string)
    (f1 f2 : FetchResult) (m1 m2 : ChatMsg) :
  truthy (selected (state w)) = true ->
  reply_of f1 = Normal m1 ->
  reply_of f2 = Normal m2 ->
  Screen.displays (state w) ->
  Screen.turn_displays m1 -> Screen.turn_displays m2 ->
  exists w',
    Screen.updates w
      [CallAsk t1; CallAsk t2;
       Settle (S (length (inflight w))) (One f2);
       Settle (length (inflight w)) (One f1)] = Normal w' /\
    chat (state w') =
      (chat (state w) ++ [user_turn t1; user_turn t2; m2; m1])%list /\
    inflight w' = inflight w /\
    loading (state w') = false.
Proof.
  intros Hsel H1 H2 Hd Hm1 Hm2. simpl Screen.updates.
  rewrite (update_call_ask w t1 Hsel Hd). simpl.
  set (w1 := mkWorld _ _).
  assert (Hd1 : Screen.displays (state w1)).
  { pose proof (displays_ask (selected (state w)) t1 (state w) Hd) as H.
    unfold ask in H. rewrite Hsel in H. exact H. }
  rewrite (update_call_ask w1 t2 Hsel Hd1). simpl.
  set (w2 := mkWorld _ _).
  assert (Hd2 : Screen.displays (state w2)).
  { pose proof (displays_ask (selected (state w1)) t2 (state w1) Hd1) as H.
    unfold ask in H. change (selected (state w1)) with (selected (state w)) in H.
    rewrite Hsel in H. exact H. }
  assert (Hi2 : inflight w2 !! S (length (inflight w))
                = Some (PChat (selected (state w)) t2)).
  { subst w2 w1. simpl.
    replace (S (length (inflight w)))
      with (length (inflight w ++ [PChat (selected (state w)) t1])%list)
      by (rewrite length_app; simpl; lia).
    apply lookup_last_added. }
  destruct (update_settle_chat_reply w2 _ _ _ f2 m2 Hi2 H2 Hd2 Hm2)
    as (w3 & -> & Hc3 & _ & Hs3 & _ & _ & Hin3 & Hd3). simpl.
  assert (Hin3' : inflight w3
                  = (inflight w ++ [PChat (selected (state w)) t1])%list).
  { rewrite Hin3. subst w2 w1. simpl.
    replace (S (length (inflight w)))
      with (length (inflight w ++ [PChat (selected (state w)) t1])%list)
      by (rewrite length_app; simpl; lia).
    apply delete_last_added. }
  assert (Hi1 : inflight w3 !! length (inflight w)
                = Some (PChat (selected (state w)) t1))
    by (rewrite Hin3'; apply lookup_last_added).
  destruct (update_settle_chat_reply w3 _ _ _ f1 m1 Hi1 H1 Hd3 Hm1)
    as (w4 & -> & Hc4 & Hl4 & _ & _ & _ & Hin4 & _). simpl.
  exists w4. split; [reflexivity |]. split; [| split; [| exact Hl4]].
  - rewrite Hc4, Hc3. subst w2 w1. simpl. rewrite <- !app_assoc. reflexivity.
  - rewrite Hin4, Hin3'. apply delete_last_added.
Qed.

Lemma replies_in_arrival_order_witness :
  exists w',
    Screen.updates (Sample.selecting "b1")
      [CallAsk "first"; CallAsk "second";
       Settle 1 (One (Fulfilled (Sample.json_ok (Sample.answer []))));
       Settle 0 (One (Rejected Sample.network_down))] = Normal w' /\
    map text (chat (state w')) =
      [JStr "first"; JStr "second"; JStr "Two applications were approved.";
       JStr fallback_text].
Proof.
  destruct (replies_in_arrival_order (Sample.selecting "b1") "first" "second"
              (Rejected Sample.network_down)
              (Fulfilled (Sample.json_ok (Sample.answer [])))
              fallback_turn
              (mkMsg Assistant (JStr "Two applications were approved.") (JArr []))
              eq_refl eq_refl eq_refl eq_refl eq_refl eq_refl)
    as (w' & Hrun & Hchat & _).
  exists w'. split; [exact Hrun |]. rewrite Hchat. reflexivity.
Defined.

(** The answer to a chat request, when the page can display it, is appended
    to whatever the transcript is when it arrives and for whatever bundle is
    selected by then: nothing compares the bundle the question was asked
    about with the current selection, so an answer about one bundle can
    land in the transcript of another. *)
Theorem answer_appended_whatever_selection (w : World) (i : nat) (sel : jsval)
    (t : string) (f : FetchResult) (m : ChatMsg) :
  inflight w !! i = Some (PChat sel t) ->
  reply_of f = Normal m ->
  Screen.displays (state w) ->
  Screen.turn_displays m ->
  exists w',
    Screen.update w (Settle i (One f)) = Normal w' /\
    chat (state w') = (chat (state w) ++ [m])%list /\
    selected (state w') = selected (state w) /\
    commits (state w') = commits (state w) /\
    overview (state w') = overview (state w).
Proof.
  intros Hi Hm Hd Ht.
  destruct (update_settle_chat_reply w i sel t f m Hi Hm Hd Ht)
    as (w' & Hu & Hc & _ & Hsel & Hco & Hov & _).
  exists w'. auto.
Qed.

Lemma answer_appended_whatever_selection_witness :
  exists w',
    Screen.update
      (mkWorld
         (setChat (fun _ => [intro_turn]) (setSelected (JStr "b2") initial))
         [PChat (JStr "b1") "What changed?"])
      (Settle 0 (One (Fulfilled (Sample.json_ok (Sample.answer [])))))
      = Normal w' /\
    chat (state w') =
      [intro_turn;
       mkMsg Assistant (JStr "Two applications were approved.") (JArr [])] /\
    selected (state w') = JStr "b2".
Proof.
  destruct (answer_appended_whatever_selection
              (mkWorld
                 (setChat (fun _ => [intro_turn])
                    (setSelected (JStr "b2") initial))
                 [PChat (JStr "b1") "What changed?"])
              0 (JStr "b1") "What changed?"
              (Fulfilled (Sample.json_ok (Sample.answer [])))
              (mkMsg Assistant (JStr "Two applications were approved.") (JArr []))
              eq_refl eq_refl eq_refl eq_refl)
    as (w' & Hs & Hc & Hsel & _).
  exists w'. auto.
Defined.

(** *** The minimum-activity filter *)

Lemma number_same_spec (a b : number) : number_same a b = true <-> a = b.
Proof.
  destruct a, b; simpl; try (split; congruence).
  rewrite Z.eqb_eq. split; congruence.
Qed.

Lemma not_a_number_is_empty (typed : string) :
  valid_float typed = false -> number_input_value typed = "".
Proof. unfold number_input_value. intros ->. reflexivity. Qed.

Lemma update_min_apps (w : World) (typed : string) (n : number) :
  parseInt (str_or (number_input_value typed) "5") = n ->
  Screen.displays (state w) ->
  Screen.update w (ChangeMinApps typed) =
    Normal (if number_same (minApps (state w)) n then w
            else mkWorld (setErr None (setMinApps n (state w)))
                   (inflight w ++
                      [PBundles (selected (state w))
                         (mkQuery (p_council (bundles_url (state w)))
                            (p_q (bundles_url (state w)))
                            (number_to_string n) "200")])%list).
Proof.
  intros Hn Hd. apply update_of_step.
  - erewrite step_unfold by reflexivity.
    unfold onChange_minApps. rewrite Hn.
    unfold bundles_deps_changed, detail_deps_changed. simpl.
    rewrite !String.eqb_refl, same_value_refl. simpl.
    destruct (number_same (minApps (state w)) n) eqn:Hsame; simpl.
    + apply number_same_spec in Hsame. rewrite <- Hsame.
      destruct w as [[] ?]; reflexivity.
    + reflexivity.
  - destruct (number_same (minApps (state w)) n); [exact Hd |].
    apply displays_parts in Hd. apply displays_parts. exact Hd.
Qed.

(** C2. The box is an [<input type="number">]: for a text that is not a
    number - ["abc"], the empty text - the value it hands to the handler is
    the empty string, which the handler replaces by ["5"] before parsing.
    So 5 is stored, every list request built from that state carries
    [min_apps=5], and the request the change itself starts (there is one
    when the threshold was not 5 already) carries it. *)
Theorem min_apps_defaults_to_five (typed : string) :
  valid_float typed = false ->
  number_input_value typed = "" /\
  (forall s,
     minApps (onChange_minApps (number_input_value typed) s) = Int 5 /\
     min_apps (bundles_url (onChange_minApps (number_input_value typed) s))
     = "5") /\
  (forall w,
     Screen.displays (state w) -> minApps (state w) <> Int 5 ->
     Screen.update w (ChangeMinApps typed) =
       Normal (mkWorld (setErr None (setMinApps (Int 5) (state w)))
                 (inflight w ++
                    [PBundles (selected (state w))
                       (mkQuery (p_council (bundles_url (state w)))
                          (p_q (bundles_url (state w))) "5" "200")])%list)) /\
  (forall w,
     Screen.displays (state w) -> minApps (state w) = Int 5 ->
     Screen.update w (ChangeMinApps typed) = Normal w).
Proof.
  intros Hv. pose proof (not_a_number_is_empty typed Hv) as He.
  split; [exact He |]. split; [| split].
  - intros s. rewrite He. split; reflexivity.
  - intros w Hd Hne.
    rewrite (update_min_apps w typed (Int 5)) by first [rewrite He; reflexivity | exact Hd].
    destruct (number_same (minApps (state w)) (Int 5)) eqn:Hs; [| reflexivity].
    apply number_same_spec in Hs. contradiction.
  - intros w Hd Heq.
    rewrite (update_min_apps w typed (Int 5)) by first [rewrite He; reflexivity | exact Hd].
    rewrite Heq. reflexivity.
Qed.

Lemma min_apps_defaults_to_five_witness :
  number_input_value "abc" = "" /\
  minApps (onChange_minApps (number_input_value "abc") initial) = Int 5 /\
  min_apps (bundles_url (onChange_minApps (number_input_value "abc") initial))
  = "5" /\
  Screen.update Page.mount (ChangeMinApps "abc") = Normal Page.mount /\
  Screen.update (mkWorld (setMinApps (Int 12) initial) []) (ChangeMinApps "")
  = Normal (mkWorld (setMinApps (Int 5) initial)
              [PBundles JNull (mkQuery None None "5" "200")]).
Proof.
  destruct (min_apps_defaults_to_five "abc" eq_refl) as (H1 & H2 & _ & H4).
  destruct (min_apps_defaults_to_five "" eq_refl) as (_ & _ & H3 & _).
  destruct (H2 initial) as (H5 & H6).
  split; [exact H1 |]. split; [exact H5 |]. split; [exact H6 |].
  split; [apply H4; reflexivity |].
  apply (H3 (mkWorld (setMinApps (Int 12) initial) [])); [reflexivity | discriminate].
Defined.

(** *** The number box, within the integers a double holds *)

Lemma uint_digits (d : Decimal.uint) (rest : string) :
  skip_digits (NilEmpty.string_of_uint d ++ rest) = skip_digits rest /\
  (d <> Decimal.Nil ->
   starts_with_digit (NilEmpty.string_of_uint d ++ rest) = true /\
   strip_minus (NilEmpty.string_of_uint d ++ rest)
   = NilEmpty.string_of_uint d ++ rest).
Proof.
  split.
  - induction d; cbn [NilEmpty.string_of_uint]; rewrite ?append_cons;
      [reflexivity | exact IHd ..].
  - destruct d; intros H; try contradiction; split; reflexivity.
Qed.

Lemma valid_float_digits (d : Decimal.uint) (rest : string) :
  d <> Decimal.Nil ->
  valid_float (NilEmpty.string_of_uint d ++ rest) =
    match skip_digits rest with
    | String "." r => starts_with_digit r && valid_exponent (skip_digits r)
    | s2 => valid_exponent s2
    end /\
  valid_float (String "-" (NilEmpty.string_of_uint d ++ rest)) =
    match skip_digits rest with
    | String "." r => starts_with_digit r && valid_exponent (skip_digits r)
    | s2 => valid_exponent s2
    end.
Proof.
  intros Hd. destruct (uint_digits d rest) as (Hskip & Hrest).
  destruct (Hrest Hd) as (Hstart & Hsign).
  unfold valid_float. cbn [strip_minus]. rewrite Hsign, Hskip, Hstart.
  split; reflexivity.
Qed.

Lemma decimal_text (z : Z) :
  (z = 0 /\ number_to_string (Int z) = "0") \/
  exists d, d <> Decimal.Nil /\
    (number_to_string (Int z) = NilEmpty.string_of_uint d \/
     number_to_string (Int z) = String "-" (NilEmpty.string_of_uint d)).
Proof.
  destruct z as [| p | p]; [left; auto | right ..];
    exists (Pos.to_uint p);
    assert (Hn := DecimalPos.Unsigned.to_uint_nonnil p);
    (split; [exact Hn |]);
    cbn [number_to_string Z.to_int NilZero.string_of_int];
    replace (NilZero.string_of_uint (Pos.to_uint p))
      with (NilEmpty.string_of_uint (Pos.to_uint p))
      by (destruct (Pos.to_uint p); [contradiction | reflexivity ..]);
    auto.
Qed.

Lemma valid_float_decimal (z : Z) : valid_float (number_to_string (Int z)) = true.
Proof.
  destruct (decimal_text z) as [(_ & ->) | (d & Hd & [-> | ->])];
    [reflexivity | ..].
  - rewrite <- (append_empty (NilEmpty.string_of_uint d)).
    rewrite (proj1 (valid_float_digits d "" Hd)). reflexivity.
  - rewrite <- (append_empty (NilEmpty.string_of_uint d)).
    rewrite (proj2 (valid_float_digits d "" Hd)). reflexivity.
Qed.

(** The number box keeps the leading integer of the number typed and drops
    the rest: a number that starts with the decimal text of an integer [z]
    of at most 2^53 in absolute value, negative ones included, and goes on
    with a fraction or an exponent - [3.7], [1e3] - stores [z], and the list
    request carries the decimal text of [z].  Nothing clamps the value at
    zero. *)
Theorem min_apps_keeps_leading_integer (z : Z) (rest : string) (s : State) :
  (Z.abs z <= max_exact)%Z ->
  ends_integer rest = true ->
  valid_float (number_to_string (Int z) ++ rest) = true ->
  number_input_value (number_to_string (Int z) ++ rest)
  = number_to_string (Int z) ++ rest /\
  minApps (onChange_minApps
             (number_input_value (number_to_string (Int z) ++ rest)) s) = Int z /\
  min_apps (bundles_url
              (onChange_minApps
                 (number_input_value (number_to_string (Int z) ++ rest)) s))
  = number_to_string (Int z).
Proof.
  intros _ Hrest Hv.
  assert (Hin : number_input_value (number_to_string (Int z) ++ rest)
                = number_to_string (Int z) ++ rest)
    by (unfold number_input_value; rewrite Hv; reflexivity).
  split; [exact Hin |]. rewrite Hin.
  assert (H : parseInt (str_or (number_to_string (Int z) ++ rest) "5") = Int z)
    by (rewrite decimal_text_nonempty; apply parseInt_decimal; exact Hrest).
  unfold onChange_minApps, bundles_url, setMinApps. cbn [minApps min_apps].
  rewrite H. auto.
Qed.

Lemma min_apps_keeps_leading_integer_witness :
  number_input_value "-3.7" = "-3.7" /\
  minApps (onChange_minApps (number_input_value "-3.7") initial) = Int (-3) /\
  min_apps (bundles_url (onChange_minApps (number_input_value "-3.7") initial))
  = "-3".
Proof.
  apply (min_apps_keeps_leading_integer (-3) ".7" initial);
    [vm_compute; discriminate | reflexivity | reflexivity].
Defined.

(** The number box reads back what it shows: committing the decimal text
    of the threshold in force, an integer of at most 2^53 in absolute value,
    stores the same threshold, so nothing changes and no list request is
    issued. *)
Theorem min_apps_same_value_is_noop (w : World) (z : Z) :
  minApps (state w) = Int z ->
  (Z.abs z <= max_exact)%Z ->
  Screen.displays (state w) ->
  Screen.update w (ChangeMinApps (number_to_string (minApps (state w))))
  = Normal w.
Proof.
  intros Hz _ Hd.
  assert (H : parseInt (str_or (number_input_value
                                  (number_to_string (minApps (state w)))) "5")
              = minApps (state w)).
  { rewrite Hz. unfold number_input_value. rewrite valid_float_decimal.
    rewrite <- (append_empty (number_to_string (Int z))).
    rewrite decimal_text_nonempty. apply parseInt_decimal. reflexivity. }
  rewrite (update_min_apps w _ _ H Hd), number_same_refl. reflexivity.
Qed.

Lemma min_apps_same_value_is_noop_witness :
  Screen.update Page.mount (ChangeMinApps "5") = Normal Page.mount.
Proof.
  apply (min_apps_same_value_is_noop Page.mount 5);
    [reflexivity | vm_compute; discriminate | reflexivity].
Defined.

(** *** What the page can and cannot display *)

Lemma updates_displays (evs : list Event) (w w' : World) :
  Screen.displays (state w) ->
  Screen.updates w evs = Normal w' ->
  Screen.displays (state w').
Proof.
  revert w. induction evs as [| ev evs IH]; intros w Hd; simpl.
  - intros [= <-]. exact Hd.
  - destruct (Screen.update w ev) as [w1 | e] eqn:Hu; simpl; [| discriminate].
    apply IH. apply update_step in Hu. tauto.
Qed.

Lemma bundle_button_nullish (b : jsval) :
  Screen.paint (Screen.bundle_button b) = Normal tt -> nullish b = false.
Proof. destruct b; simpl; intros H; try discriminate; reflexivity. Qed.

Lemma commit_card_nullish (c : jsval) :
  Screen.paint (Screen.commit_card c) = Normal tt -> nullish c = false.
Proof. destruct c; simpl; intros H; try discriminate; reflexivity. Qed.

Lemma list_displays_entries (l : list jsval) :
  Screen.list_displays l -> Forall (fun b => nullish b = false) l.
Proof.
  unfold Screen.list_displays. rewrite paint_each. intros H.
  eapply Forall_impl; [exact H | exact bundle_button_nullish].
Qed.

Lemma history_displays_entries (v : jsval) :
  Screen.history_displays v ->
  exists l, v = JArr l /\ Forall (fun c => nullish c = false) l.
Proof.
  unfold Screen.history_displays.
  destruct v as [| | b | n | s | l | fs]; try discriminate.
  intros H. exists l. split; [reflexivity |].
  simpl in H. rewrite paint_each in H.
  eapply Forall_impl; [exact H | exact commit_card_nullish].
Qed.

Lemma anchors_nullish (cs : list jsval) (anchors : list Anchor) :
  mapM (fun c => u ← get c "url";
                 p ← get c "planning_reference";
                 Normal (mkAnchor u p)) cs = Normal anchors ->
  Forall (fun c => nullish c = false) cs.
Proof.
  revert anchors. induction cs as [| c cs IH]; intros anchors; [constructor |].
  simpl. destruct c; simpl; try discriminate;
    match goal with |- context [mapM ?f cs] =>
      destruct (mapM f cs) as [rest |] eqn:Hm; simpl; [| discriminate] end;
    intros _; constructor; eauto.
Qed.

Lemma turn_displays_shape (m : ChatMsg) :
  Screen.turn_displays m ->
  (forall fs, text m <> JObj fs) /\
  (role m = Assistant ->
   forall cs, citations m = JArr cs ->
     Forall (fun c => nullish c = false) (take 4 cs)).
Proof.
  unfold Screen.turn_displays. rewrite paint_normal.
  intros (slots & Hb & Hp). unfold Screen.turn_bubble in Hb.
  destruct (render_citations m) as [anchors | e] eqn:Ha; simpl in Hb;
    [| discriminate].
  injection Hb as <-. split.
  - intros fs Ht. simpl in Hp. rewrite Ht in Hp. discriminate Hp.
  - intros Hrole cs Hcs. unfold render_citations in Ha.
    rewrite Hrole, Hcs in Ha.
    destruct (truthy (length_opt (JArr cs))) eqn:Hlen.
    + eapply anchors_nullish. exact Ha.
    + destruct cs as [| c cs]; [constructor |].
      simpl in Hlen. discriminate Hlen.
Qed.

(** As long as the page is up, what it holds has the shape its JSX needs,
    whatever the replies were: in every run from the first render the list
    holds no [null] entry, the history is an array without [null] entries,
    no turn has an object for text, and no assistant turn has [null] among
    its first four citations. *)
Theorem shown_data_is_well_formed (evs : list Event) (w : World) :
  Screen.updates mount evs = Normal w ->
  Forall (fun b => nullish b = false) (bundles (state w)) /\
  (exists l, commits (state w) = JArr l /\
             Forall (fun c => nullish c = false) l) /\
  Forall (fun m =>
            (forall fs, text m <> JObj fs) /\
            (role m = Assistant ->
             forall cs, citations m = JArr cs ->
               Forall (fun c => nullish c = false) (take 4 cs)))
    (chat (state w)).
Proof.
  intros Hrun.
  assert (Hd : Screen.displays (state w))
    by (eapply updates_displays; [| exact Hrun]; reflexivity).
  apply displays_parts in Hd. destruct Hd as (D1 & _ & _ & D4 & D5).
  split; [apply list_displays_entries; exact D1 |].
  split; [apply history_displays_entries; exact D4 |].
  unfold Screen.transcript_displays in D5. rewrite paint_each in D5.
  eapply Forall_impl; [exact D5 | exact turn_displays_shape].
Qed.

Lemma shown_data_is_well_formed_witness :
  exists w,
    Screen.updates mount
      [Settle 0 (One (Fulfilled
         (Sample.json_ok (JArr [Sample.bundle "b1"; Sample.bundle "b2"]))))]
    = Normal w /\
    bundles (state w) = [Sample.bundle "b1"; Sample.bundle "b2"] /\
    Forall (fun b => nullish b = false) (bundles (state w)).
Proof.
  exists (mkWorld
            (setSelected (JStr "b1")
               (setBundles [Sample.bundle "b1"; Sample.bundle "b2"] initial))
            [PDetail (JStr "b1")]).
  assert (Hrun : Screen.updates mount
                   [Settle 0 (One (Fulfilled
                      (Sample.json_ok
                         (JArr [Sample.bundle "b1"; Sample.bundle "b2"]))))]
                 = Normal (mkWorld
                             (setSelected (JStr "b1")
                                (setBundles [Sample.bundle "b1"; Sample.bundle "b2"]
                                   initial))
                             [PDetail (JStr "b1")]))
    by (vm_compute; reflexivity).
  split; [exact Hrun |]. split; [reflexivity |].
  exact (proj1 (shown_data_is_well_formed _ _ Hrun)).
Defined.

Lemma Forall_nullish_In (l : list jsval) :
  In JNull l -> ~ Forall (fun c => nullish c = false) l.
Proof.
  intros Hin Hall. rewrite Forall_forall in Hall.
  apply list_elem_of_In in Hin. specialize (Hall _ Hin). discriminate Hall.
Qed.

Lemma update_not_displayed (w w' : World) (ev : Event) :
  step w ev = Normal w' -> ~ Screen.displays (state w') ->
  exists e, Screen.update w ev = Throw e.
Proof.
  intros Hs Hn. destruct (update_cases _ _ _ Hs) as [[Hd _] | [_ He]];
    [contradiction | exact He].
Qed.

(** A reply that parses but has not the shape the JSX needs takes the page
    down when it arrives, whatever the page showed: a list reply that holds
    [null]; a detail reply whose [commits] is truthy and not an array, or an
    array that holds [null]; a chat reply whose answer is an object, or that
    has [null] among its first four citations.  Nothing is displayed and no
    effect runs after it. *)
Theorem malformed_reply_takes_page_down (w : World) (i : nat) :
  (forall sel u r l,
     inflight w !! i = Some (PBundles sel u) ->
     ok r = true -> json_body r = Normal (JArr l) -> In JNull l ->
     exists e, Screen.update w (Settle i (One (Fulfilled r))) = Throw e) /\
  (forall sel a cs ov,
     inflight w !! i = Some (PDetail sel) ->
     DetailSuccess a cs ov -> truthy cs = true ->
     (forall l, cs = JArr l -> In JNull l) ->
     exists e, Screen.update w (Settle i (All a)) = Throw e) /\
  (forall sel t r data,
     inflight w !! i = Some (PChat sel t) ->
     ok r = true -> json_body r = Normal data -> nullish data = false ->
     (exists fs, get_opt data "answer" = JObj fs) \/
     (exists cs, get_opt data "citations" = JArr cs /\ In JNull (take 4 cs)) ->
     exists e, Screen.update w (Settle i (One (Fulfilled r))) = Throw e).
Proof.
  split; [| split].
  - intros sel u r l Hi Hok Hj Hin.
    pose proof (step_settle_bundles _ _ _ _ (Fulfilled r) Hi) as Hs.
    cbv zeta in Hs. eapply update_not_displayed; [exact Hs |].
    unfold Screen.displays. rewrite render_run_effects. simpl.
    intros Hd. apply displays_parts in Hd. destruct Hd as (D1 & _).
    apply list_displays_entries in D1. revert D1.
    rewrite (bundles_resume_success _ _ _ _ Hok Hj). cbv zeta.
    assert (Hb : forall s : State,
              bundles (if negb (truthy sel)
                          && truthy (get_opt (index0_opt (JArr l)) "site_bundle_id")
                       then setSelected
                              (get_opt (index0_opt (JArr l)) "site_bundle_id")
                              (setBundles l s)
                       else setBundles l s) = l)
      by (intros s; destruct (negb (truthy sel) && _); reflexivity).
    rewrite Hb. apply Forall_nullish_In. exact Hin.
  - intros sel a cs ov Hi Hs Hcs Hbad.
    pose proof (step_settle_detail _ _ _ a Hi) as Hstep.
    rewrite (detail_success_applies _ _ _ _ Hs) in Hstep.
    eapply update_not_displayed; [exact Hstep |]. simpl.
    intros Hd. apply displays_parts in Hd. destruct Hd as (_ & _ & _ & D4 & _).
    simpl in D4. unfold or_else in D4. rewrite Hcs in D4.
    apply history_displays_entries in D4. destruct D4 as (l & -> & Hall).
    exact (Forall_nullish_In l (Hbad l eq_refl) Hall).
  - intros sel t r data Hi Hok Hj Hn Hbad.
    assert (Hr : ask_resume (Fulfilled r) (state w) =
                 Normal (setLoading false
                           (setChat
                              (fun c =>
                                 (c ++ [mkMsg Assistant
                                          (or_else (get_opt data "answer")
                                             (JStr "No answer returned."))
                                          (or_else (get_opt data "citations")
                                             (JArr []))])%list)
                              (state w)))).
    { unfold ask_resume, chat_exchange. simpl. rewrite Hok, Hj.
      rewrite (assistant_turn_normal _ Hn). reflexivity. }
    pose proof (step_settle_chat _ _ _ _ _ _ Hi Hr) as Hstep.
    eapply update_not_displayed; [exact Hstep |]. simpl.
    intros Hd. apply displays_parts in Hd. destruct Hd as (_ & _ & _ & _ & D5).
    simpl in D5. apply transcript_displays_app in D5. destruct D5 as (_ & Dm).
    apply turn_displays_shape in Dm. destruct Dm as (Htext & Hcit).
    destruct Hbad as [(fs & Hfs) | (cs & Hcs & Hin)].
    + apply (Htext fs). simpl. rewrite Hfs. reflexivity.
    + simpl in Hcit. rewrite Hcs in Hcit.
      exact (Forall_nullish_In _ Hin (Hcit eq_refl cs eq_refl)).
Qed.

Lemma malformed_reply_takes_page_down_witness :
  (exists e,
     Screen.update mount
       (Settle 0 (One (Fulfilled
          (Sample.json_ok (JArr [Sample.bundle "b1"; JNull]))))) = Throw e) /\
  (exists e,
     Screen.update Sample.talking
       (Settle 0 (All (AllFulfilled
                         (Sample.json_ok (JObj [("commits", JNum 5)]))
                         (Sample.json_ok (Sample.overview_of "b1")))))
     = Throw e).
Proof.
  destruct (malformed_reply_takes_page_down mount 0) as (Hlist & _).
  destruct (malformed_reply_takes_page_down Sample.talking 0) as (_ & Hdetail & _).
  split.
  - apply (Hlist JNull (bundles_url initial)
             (Sample.json_ok (JArr [Sample.bundle "b1"; JNull]))
             [Sample.bundle "b1"; JNull]); try reflexivity.
    right. left. reflexivity.
  - apply (Hdetail (JStr "b1") _ (JNum 5) (Sample.overview_of "b1"));
      try reflexivity.
    + exists (Sample.json_ok (JObj [("commits", JNum 5)])),
        (Sample.json_ok (Sample.overview_of "b1")), (JObj [("commits", JNum 5)]).
      repeat split; reflexivity.
    + intros l H. discriminate H.
Defined.

(** *** Replies of the expected shape always display *)

Lemma scalar_places (v : jsval) :
  scalar v = true ->
  Screen.child v = Normal tt /\ Screen.to_text v = Normal tt.
Proof. destruct v; simpl; intros H; try discriminate; auto. Qed.

Lemma record_field (b : jsval) (k : string) :
  record b = true ->
  nullish b = false /\ get b k = Normal (get_opt b k) /\
  scalar (get_opt b k) = true.
Proof.
  destruct b as [| | x | n | s | l | fs]; simpl; try discriminate.
  intros H. split; [reflexivity |]. split; [reflexivity |].
  unfold lookup_field. induction fs as [| kv fs IH]; simpl; [reflexivity |].
  simpl in H. apply andb_true_iff in H. destruct H as (Hkv & Hfs).
  destruct (String.eqb (fst kv) k); [exact Hkv | exact (IH Hfs)].
Qed.

Lemma children_scalars (l : list jsval) :
  forallb scalar l = true -> Screen.place_all (map Screen.Child l) = Normal tt.
Proof.
  induction l as [| x l IH]; simpl; [reflexivity |].
  rewrite andb_true_iff. intros [Hx Hl].
  rewrite (proj1 (scalar_places x Hx)). simpl. exact (IH Hl).
Qed.

Lemma bundle_button_record (b : jsval) :
  record b = true -> Screen.paint (Screen.bundle_button b) = Normal tt.
Proof.
  intros Hb. unfold Screen.bundle_button, Screen.paint.
  destruct (record_field b "site_bundle_id" Hb) as (_ & -> & Hid).
  destruct (record_field b "first_app" Hb) as (_ & _ & Hf).
  destruct (record_field b "last_app" Hb) as (_ & _ & Hl).
  destruct (record_field b "council_name" Hb) as (_ & _ & Hc).
  destruct (record_field b "n_apps" Hb) as (_ & _ & Hn).
  destruct (record_field b "sample_address" Hb) as (_ & _ & Ha).
  simpl.
  rewrite (proj2 (scalar_places _ Hf)), (proj2 (scalar_places _ Hl)),
    (proj2 (scalar_places _ Hid)). simpl.
  rewrite (proj1 (scalar_places _ Hc)), (proj1 (scalar_places _ Hn)),
    (proj1 (scalar_places _ Ha)). reflexivity.
Qed.

Lemma headline_record (c : jsval) :
  record c = true ->
  truthy (get_opt c "heading") = true \/
  text_or_missing (get_opt c "proposal") = true ->
  exists h, View.headline c = Normal h /\ scalar h = true.
Proof.
  intros Hc Hhp. unfold View.headline.
  destruct (record_field c "heading" Hc) as (_ & -> & Hh).
  destruct (record_field c "proposal" Hc) as (_ & -> & Hp).
  simpl. destruct (truthy (get_opt c "heading")) eqn:Ht; [eauto |].
  destruct Hhp as [Hbad | Htext]; [discriminate Hbad |].
  simpl. unfold or_else.
  destruct (get_opt c "proposal") as [| | x | n | s | l | fs];
    try discriminate Htext; simpl; eauto.
  destruct (negb (String.eqb s "")); simpl; eauto.
Qed.

Lemma commit_card_record (c : jsval) :
  record c = true ->
  truthy (get_opt c "heading") = true \/
  text_or_missing (get_opt c "proposal") = true ->
  Screen.paint (Screen.commit_card c) = Normal tt.
Proof.
  intros Hc Hhp. unfold Screen.commit_card, Screen.paint.
  destruct (headline_record c Hc Hhp) as (h & -> & Hh).
  destruct (record_field c "planning_reference" Hc) as (_ & -> & Href).
  destruct (record_field c "event_dt" Hc) as (_ & _ & Hdt).
  destruct (record_field c "normalised_application_type" Hc) as (_ & _ & Hty).
  destruct (record_field c "normalised_decision" Hc) as (_ & _ & Hde).
  destruct (record_field c "raw_address" Hc) as (_ & _ & Had).
  destruct (record_field c "url" Hc) as (_ & _ & Hurl).
  simpl.
  rewrite (proj2 (scalar_places _ Hdt)), (proj2 (scalar_places _ Href)). simpl.
  rewrite (proj1 (scalar_places _ Href)), (proj1 (scalar_places _ Hty)),
    (proj1 (scalar_places _ Hde)), (proj1 (scalar_places _ Hh)),
    (proj1 (scalar_places _ Had)). simpl.
  destruct (truthy (get_opt c "url")); simpl;
    [rewrite (proj2 (scalar_places _ Hurl)) | rewrite (proj1 (scalar_places _ Hurl))];
    reflexivity.
Qed.

Lemma anchors_records (cs : list jsval) :
  Forall (fun c => record c = true) cs ->
  forallb (fun c => negb (nullish c)) cs = true /\
  Screen.place_all
    (concat (map (fun a => [Screen.Text (href a); Screen.Child (source a)])
               (map anchor_of cs))) = Normal tt.
Proof.
  induction 1 as [| c cs Hc _ (IH1 & IH2)]; [split; reflexivity |].
  destruct (record_field c "url" Hc) as (Hn & _ & Hu).
  destruct (record_field c "planning_reference" Hc) as (_ & _ & Hp).
  split.
  - simpl. rewrite Hn, IH1. reflexivity.
  - simpl. rewrite (proj2 (scalar_places _ Hu)). simpl.
    rewrite (proj1 (scalar_places _ Hp)). simpl. exact IH2.
Qed.

Lemma list_panel_scalars (key placeholder : string) (ov : jsval) :
  scalars (get_opt ov key) = true ->
  exists items,
    View.list_panel key placeholder ov = Normal items /\
    forallb scalar items = true.
Proof.
  unfold View.list_panel.
  destruct (get_opt ov key) as [| | x | n | s | l | fs]; simpl;
    try discriminate; eauto.
  intros Hl. destruct l as [| y l]; simpl; [eauto |].
  replace (negb (Z.of_nat (S (length l)) =? 0)%Z) with true
    by (symmetry; apply negb_true_iff, Z.eqb_neq; lia).
  eauto.
Qed.

(** Replies of the shape the backend sends always display: a list of
    bundles that are objects with plain fields; a history of commits that
    are such objects and have a heading or a proposal that is a text (or
    none); an overview with plain figures and lists of plain items; an
    answer with a plain text whose citations are such objects; a plain
    identifier as the selection.  So the page stays up on them. *)
Theorem plain_replies_display :
  (forall l, Forall (fun b => record b = true) l -> Screen.list_displays l) /\
  (forall l,
     Forall (fun c => record c = true /\
                      (truthy (get_opt c "heading") = true \/
                       text_or_missing (get_opt c "proposal") = true)) l ->
     Screen.history_displays (JArr l)) /\
  (forall ov, plain_overview ov = true -> Screen.overview_displays ov) /\
  (forall t cs,
     scalar t = true -> Forall (fun c => record c = true) cs ->
     Screen.turn_displays (mkMsg Assistant t (JArr cs))) /\
  (forall id, scalar id = true -> Screen.selection_displays id).
Proof.
  split; [| split; [| split; [| split]]].
  - intros l Hl. unfold Screen.list_displays. rewrite paint_each.
    eapply Forall_impl; [exact Hl | exact bundle_button_record].
  - intros l Hl. unfold Screen.history_displays. simpl. rewrite paint_each.
    eapply Forall_impl; [exact Hl |].
    intros c [Hc Hhp]. apply commit_card_record; assumption.
  - intros ov Hov. unfold plain_overview in Hov.
    rewrite !andb_true_iff in Hov.
    destruct Hov as ((((((Hi & Ha) & Hu) & Hn) & Hs) & Hd) & Hc).
    unfold Screen.overview_displays, Screen.overview_panels, Screen.paint,
      View.insights_panel, View.next_actions_panel.
    destruct (list_panel_scalars "insights" "No insights available yet." ov Hi)
      as (ins & -> & Hins).
    destruct (list_panel_scalars "next_actions" "Select a repo to see actions."
                ov Ha) as (act & -> & Hact).
    simpl. rewrite !place_all_app.
    split; [| split; [| split]].
    + unfold Screen.latest_link.
      destruct (truthy _); simpl; [| reflexivity].
      rewrite (proj2 (scalar_places _ Hu)). reflexivity.
    + unfold Screen.kpis. destruct (truthy ov); simpl; [| reflexivity].
      assert (Hd' : scalar (Screen.coalesce (get_opt ov "days_span") (JStr "—"))
                    = true)
        by (unfold Screen.coalesce; destruct (nullish _); [reflexivity | exact Hd]).
      rewrite (proj2 (scalar_places _ Hn)), (proj2 (scalar_places _ Hs)),
        (proj2 (scalar_places _ Hd')), (proj2 (scalar_places _ Hc)).
      reflexivity.
    + apply children_scalars. exact Hins.
    + apply children_scalars. exact Hact.
  - intros t cs Ht Hcs. unfold Screen.turn_displays, Screen.turn_bubble, Screen.paint.
    assert (Htake : Forall (fun c => record c = true) (take 4 cs))
      by (apply Forall_take; exact Hcs).
    destruct (anchors_records _ Htake) as (Hnn & Hplace).
    rewrite (render_citations_array t cs Hnn). simpl.
    rewrite (proj1 (scalar_places _ Ht)). simpl. exact Hplace.
  - intros id Hid. unfold Screen.selection_displays, Screen.title. simpl.
    unfold Screen.coalesce. destruct (nullish id); [reflexivity |].
    exact (proj1 (scalar_places _ Hid)).
Qed.

Lemma plain_replies_display_witness :
  Screen.list_displays [Sample.bundle "b1"; Sample.bundle "b2"] /\
  Screen.history_displays (get_opt (Sample.repo_of "b1") "commits") /\
  Screen.overview_displays (Sample.overview_of "b1") /\
  Screen.turn_displays
    (mkMsg Assistant (JStr "Two applications were approved.")
       (JArr Sample.five_citations)).
Proof.
  destruct plain_replies_display as (Hlist & Hhist & Hov & Hturn & _).
  split; [| split; [| split]].
  - apply Hlist. repeat constructor.
  - apply (Hhist [JObj [("planning_reference", JStr "b1/0001");
                        ("heading", JStr "Rear extension")]]).
    constructor; [| constructor]. split; [reflexivity | left; reflexivity].
  - apply Hov. reflexivity.
  - apply Hturn; [reflexivity | repeat constructor].
Defined.

(** [".5"] is a number for the box but no integer for [parseInt]: a number
    typed without digits before the dot is stored as [NaN], and the list
    request carries [min_apps=NaN]. *)
Theorem fraction_without_integer_part (rest : string) (s : State) :
  valid_float (String "." rest) = true ->
  minApps (onChange_minApps (number_input_value (String "." rest)) s) = NaN /\
  min_apps (bundles_url (onChange_minApps (number_input_value (String "." rest)) s))
  = "NaN".
Proof.
  intros Hv. unfold number_input_value. rewrite Hv. split; reflexivity.
Qed.

Lemma fraction_without_integer_part_witness :
  minApps (onChange_minApps (number_input_value ".5") initial) = NaN /\
  min_apps (bundles_url (onChange_minApps (number_input_value ".5") initial))
  = "NaN".
Proof. apply (fraction_without_integer_part "5" initial). reflexivity. Defined.

(** *** The sample runs, on the page *)

(** The runs that show where C1, C3 and C5 fail go through every render:
    the page is up at each step of them. *)
Lemma stale_detail_displayed :
  exists w w',
    Screen.updates mount Sample.stale_trace = Normal w /\
    selected (state w) = JStr "b2" /\
    Screen.update w (Settle 0 (All (Sample.detail_ok "b1"))) = Normal w' /\
    selected (state w') = JStr "b2" /\
    commits (state w') = get_opt (Sample.repo_of "b1") "commits" /\
    overview (state w') = Sample.overview_of "b1".
Proof.
  eexists. eexists. split; [vm_compute; reflexivity |].
  split; [reflexivity |]. split; [vm_compute; reflexivity |].
  repeat split.
Qed.

Lemma default_selection_displayed :
  exists w w',
    Screen.updates mount
      [ChangeQ "c";
       Settle 0 (One (Fulfilled
         (Sample.json_ok (JArr [Sample.bundle "b1"; Sample.bundle "b2"]))));
       ClickBundle 1] = Normal w /\
    selected (state w) = JStr "b2" /\
    Screen.update w (Settle 0 (One (Fulfilled
                      (Sample.json_ok (JArr [Sample.bundle "c1"]))))) = Normal w' /\
    selected (state w') = JStr "c1".
Proof.
  eexists. eexists. split; [vm_compute; reflexivity |].
  split; [reflexivity |]. split; [vm_compute; reflexivity | reflexivity].
Qed.

Lemma selection_change_displayed :
  exists w0 w w1,
    Screen.updates mount Sample.conversation_trace = Normal w0 /\
    Screen.update w0 (ClickBundle 1) = Normal w /\
    selected (state w) = JStr "b2" /\
    chat (state w) = chat (state w0) /\
    question (state w) = "draft" /\
    Screen.update w (CallAsk "And here?") = Normal w1 /\
    chat (state w1) = (chat (state w0) ++ [user_turn "And here?"])%list.
Proof.
  eexists. eexists. eexists.
  split; [vm_compute; reflexivity |].
  split; [vm_compute; reflexivity |].
  split; [reflexivity |]. split; [reflexivity |]. split; [reflexivity |].
  split; [vm_compute; reflexivity | reflexivity].
Qed.
